(** * PowerTrade bidding visualisation: data handler and chart analytics

    A shallow embedding of [src/data-handler.js] (class [DataHandler]) and of
    the trend-line and colour code of [src/chart.js] (class
    [PowerTradeChart]), with the properties of the specification proved
    about it; further on, of the cache, of the traces, the selection and
    the statistics of the chart, and of [truncateText] of [src/main.js],
    with properties read off the code.

    JavaScript numbers are IEEE 754 binary64 values, so they are embedded as
    Rocq's primitive [float]: [+], [-], [*], [/], [<] and [>] of the source
    are the primitive operations, with the same rounding.  Array lengths and
    indices are [nat] and enter the arithmetic through [Number_of_nat].
    JavaScript strings are sequences of UTF-16 code units, so they are
    embedded as lists of code units, and a text between double quotes
    stands for the code units of that text.  Built-ins whose result
    depends on the engine or on the clock ([parseFloat], [new Date(...)],
    the date getters, [toFixed], [toLocaleDateString], [JSON.stringify])
    are the fields of a [Host] record that the functions take as a
    parameter. *)

From Stdlib Require Import ZArith NArith List Bool Lia Floats Permutation Sorted.
From stdpp Require Import base option list gmap.
Import ListNotations.

#[local] Set Warnings "-register-all".

Local Open Scope list_scope.
Local Open Scope Z_scope.

(* ------------------------------------------------------------------ *)
(** ** JavaScript numbers *)

Module Num.

(** The decimal literals of the source, as the binary64 values nearest to
    them. *)
Definition lit_0_1 : float := 0x1.999999999999ap-4%float.  (* 0.1 *)
Definition lit_0_2 : float := 0x1.999999999999ap-3%float.  (* 0.2 *)
Definition lit_2_0 : float := 2%float.                      (* 2.0 *)

(** [isNaN(x)] and [isFinite(x)] on a number. *)
Definition isNaN (x : float) : bool := PrimFloat.is_nan x.
Definition isFinite (x : float) : bool := PrimFloat.is_finite x.

(** ToBoolean on a number: [+0], [-0] and [NaN] are falsy. *)
Definition truthy (x : float) : bool :=
  negb (PrimFloat.eqb x 0%float || PrimFloat.is_nan x).

(** A length, index or count as a number.  JavaScript array lengths are
    below [2^32], where the conversion is exact. *)
Definition Number_of_Z (z : Z) : float :=
  PrimFloat.of_uint63 (Uint63.of_Z z).

Definition Number_of_nat (n : nat) : float := Number_of_Z (Z.of_nat n).

(** An integer of either sign as a number; exact below [2^53] in
    magnitude. *)
Definition Number_of_int (z : Z) : float :=
  if z <? 0 then PrimFloat.opp (Number_of_Z (- z)) else Number_of_Z z.

(** [Math.round(x)]: the integer nearest to [x], the greater of the two
    when [x] lies halfway; [x] itself when it is an integer, a zero, an
    infinity or NaN; [-0] for a negative [x] that rounds to zero.  A finite
    [x] is [±m·2^e]: with [e >= 0] it is an integer, and otherwise the
    result is the integer part of [x + 1/2], computed on the integers. *)
Definition Math_round (x : float) : float :=
  match Prim2SF x with
  | S754_finite s m e =>
      if 0 <=? e then x
      else
        let n := (2 * cond_Zopp s (Zpos m) + 2 ^ (- e)) / 2 ^ (1 - e) in
        if n =? 0 then (if s then PrimFloat.neg_zero else PrimFloat.zero)
        else Number_of_int n
  | _ => x
  end.

(** [Math.ceil(x)]: the least integer not below [x], with the same
    special cases. *)
Definition Math_ceil (x : float) : float :=
  match Prim2SF x with
  | S754_finite s m e =>
      if 0 <=? e then x
      else
        let n := - ((- cond_Zopp s (Zpos m)) / 2 ^ (- e)) in
        if n =? 0 then (if s then PrimFloat.neg_zero else PrimFloat.zero)
        else Number_of_int n
  | _ => x
  end.

(** The mantissa of a finite binary64 number with sign [s], mantissa [m] and
    exponent [e], as a signed integer at the exponent [ez <= e]. *)
Definition scaled (s : bool) (m : positive) (e ez : Z) : Z :=
  cond_Zopp s (Zpos (fst (shl_align m e ez))).

End Num.
Export Num.

(* ------------------------------------------------------------------ *)
(** ** Strings *)

(** A JavaScript string is a sequence of 16-bit code units, the UTF-16
    form of its text: [length], [substring], [includes], [trim] and a
    regular expression without the [u] flag count and compare code units.
    A string is embedded as the list of its code units. *)
Abbreviation string := (list N) (only parsing).

(** A text between double quotes in this development stands for the
    string of its UTF-16 code units; the file itself holds it in UTF-8. *)
Module Literal.

Inductive t : Type :=
| Empty
| Unit (c : N) (rest : t).

(** The code points of a UTF-8 text. *)
Fixpoint code_points (bytes : list N) : list N :=
  match bytes with
  | [] => []
  | b :: rest =>
      if (b <? 128)%N then b :: code_points rest
      else if (b <? 224)%N then
        match rest with
        | b1 :: rest1 => ((b - 192) * 64 + (b1 - 128))%N :: code_points rest1
        | _ => []
        end
      else if (b <? 240)%N then
        match rest with
        | b1 :: b2 :: rest2 =>
            ((b - 224) * 4096 + (b1 - 128) * 64 + (b2 - 128))%N
            :: code_points rest2
        | _ => []
        end
      else
        match rest with
        | b1 :: b2 :: b3 :: rest3 =>
            ((b - 240) * 262144 + (b1 - 128) * 4096 + (b2 - 128) * 64
             + (b3 - 128))%N
            :: code_points rest3
        | _ => []
        end
  end.

(** The code units of a code point: itself, or a surrogate pair. *)
Definition code_units (cp : N) : list N :=
  if (cp <? 65536)%N then [cp]
  else [(55296 + (cp - 65536) / 1024)%N; (56320 + (cp - 65536) mod 1024)%N].

Fixpoint of_units (units : list N) : t :=
  match units with
  | [] => Empty
  | c :: rest => Unit c (of_units rest)
  end.

Fixpoint to_units (s : t) : list N :=
  match s with
  | Empty => []
  | Unit c rest => c :: to_units rest
  end.

Definition parse (bytes : list Byte.byte) : t :=
  of_units (concat (map code_units (code_points (map Byte.to_N bytes)))).

(** Shown as a text when every code unit is a printable ASCII character. *)
Definition print (s : t) : option (list Byte.byte) :=
  match to_units s with
  | [] => None
  | units =>
      if forallb (fun c => (32 <=? c)%N && (c <? 127)%N) units
      then Some (omap Byte.of_N units) else None
  end.

End Literal.

Declare Scope js_scope.
Delimit Scope js_scope with js.
#[local] Set Warnings "-via-type-mismatch,-via-type-remapping".
String Notation list Literal.parse Literal.print
  (via Literal.t mapping [[nil] => Literal.Empty, [cons] => Literal.Unit])
  : js_scope.
#[local] Set Warnings "via-type-mismatch,via-type-remapping".
Local Open Scope js_scope.

Module Str.

(** [a === b] on two strings. *)
Fixpoint eqb (a b : string) : bool :=
  match a, b with
  | [], [] => true
  | c :: a', d :: b' => N.eqb c d && eqb a' b'
  | _, _ => false
  end.

(** White space as [String.prototype.trim] and the regular expression
    class [\s] have it: the WhiteSpace and LineTerminator code points of
    the language, each a single code unit.  TAB, LF, VT, FF, CR; space;
    NBSP; U+1680; U+2000 to U+200A; LS and PS; U+202F; U+205F; the
    ideographic space U+3000; the byte-order mark U+FEFF. *)
Definition is_space (c : N) : bool :=
  ((9 <=? c) && (c <=? 13)
   || (c =? 32) || (c =? 160) || (c =? 5760)
   || (8192 <=? c) && (c <=? 8202)
   || (c =? 8232) || (c =? 8233) || (c =? 8239) || (c =? 8287)
   || (c =? 12288) || (c =? 65279))%N.

Fixpoint trimStart (s : string) : string :=
  match s with
  | c :: rest => if is_space c then trimStart rest else s
  | [] => s
  end.

Definition trimEnd (s : string) : string := rev (trimStart (rev s)).

Definition trim (s : string) : string := trimEnd (trimStart s).

(** [s.replace(/\s+/g, ' ')]: every maximal run of white space becomes
    one space.  [in_run] says that the previous code unit was white
    space, already replaced. *)
Fixpoint collapse (in_run : bool) (s : string) : string :=
  match s with
  | [] => []
  | c :: rest =>
      if is_space c
      then if in_run then collapse true rest
           else 32%N :: collapse true rest
      else c :: collapse false rest
  end.

(** [s.startsWith(sub)]. *)
Fixpoint prefix (sub s : string) : bool :=
  match sub, s with
  | [], _ => true
  | c :: sub', d :: s' => N.eqb c d && prefix sub' s'
  | _ :: _, [] => false
  end.

(** [s.includes(sub)]. *)
Fixpoint includes (sub s : string) : bool :=
  prefix sub s
  || match s with
     | [] => false
     | _ :: rest => includes sub rest
     end.

(** [s.toLowerCase()], on the letters A-Z.  The module compares the
    result with ['json'] and ['csv'] only, and no other character has one
    of their letters as its lower case. *)
Definition lower_char (c : N) : N :=
  if ((65 <=? c) && (c <=? 90))%N then (c + 32)%N else c.

Definition toLowerCase (s : string) : string := map lower_char s.

End Str.

(* ------------------------------------------------------------------ *)
(** ** JavaScript values and errors *)

(** A decoded JSON value, or [undefined].  [JObj] lists the own properties
    of an object (keys unique, as [JSON.parse] leaves them). *)
Inductive JSValue : Type :=
| JUndefined
| JNull
| JBool (b : bool)
| JNum (x : float)
| JStr (s : string)
| JArr (items : list JSValue)
| JObj (props : list (string * JSValue)).

(** ToBoolean. *)
Definition truthy_value (v : JSValue) : bool :=
  match v with
  | JUndefined | JNull => false
  | JBool b => b
  | JNum x => Num.truthy x
  | JStr s => negb (Str.eqb s "")
  | JArr _ | JObj _ => true
  end.

(** [typeof v === 'object'] ([null] and arrays included). *)
Definition typeof_object (v : JSValue) : bool :=
  match v with
  | JNull | JArr _ | JObj _ => true
  | _ => false
  end.

Definition isArray (v : JSValue) : bool :=
  match v with JArr _ => true | _ => false end.

Fixpoint assoc_get (k : string) (props : list (string * JSValue)) : option JSValue :=
  match props with
  | [] => None
  | (k', v) :: rest => if Str.eqb k k' then Some v else assoc_get k rest
  end.

(** [field in record], for a record of type object.  The names asked for are
    the four required fields, none of which is an array index or inherited,
    so an array only has ["length"]. *)
Definition has_property (field : string) (record : JSValue) : bool :=
  match record with
  | JObj props => match assoc_get field props with Some _ => true | None => false end
  | JArr _ => Str.eqb field "length"
  | _ => false
  end.

(** [record[field]]. *)
Definition get_property (field : string) (record : JSValue) : JSValue :=
  match record with
  | JObj props => default JUndefined (assoc_get field props)
  | JArr items => if Str.eqb field "length"
                  then JNum (Number_of_nat (length items)) else JUndefined
  | _ => JUndefined
  end.

(** The errors the module throws, one constructor per [throw] site (the
    source tells them apart by message only). *)
Inductive Error : Type :=
| InvalidRecord                       (* 记录格式无效 *)
| MissingField (field : string)       (* 缺少必需字段 *)
| InvalidString (field : string)      (* 必须为非空字符串 *)
| InvalidNumber (field : string)      (* 必须为有效数字 *)
| PriceOutOfRange (value : float)     (* 电价 ... 超出合理范围 (0.1-2.0) *)
| InvalidDate (field : string)        (* 必须为有效日期格式 *)
| DateOutOfRange (value : JSValue)    (* 日期 ... 超出合理范围 *)
| EmptyData                           (* 数据为空 *)
| MalformedData                       (* 数据格式不正确 *)
| DataQuality (rejected total : nat)  (* 数据质量较差 *)
| NoValidRecords                      (* 没有有效的数据记录 *)
| ProcessingFailed (cause : Error)    (* 数据处理失败 *)
| ConcurrentLoad                      (* 数据正在加载中，请稍候 *)
| RetrievalFailed (status : Z)        (* 数据加载失败 *)
| DecodeFailed                        (* response.json() rejected *)
| NoExportData                        (* 没有可导出的数据 *)
| UnsupportedFormat (format : string) (* 不支持的导出格式 *)
| TypeError.                          (* thrown by the engine *)

(** A computation that returns or throws. *)
Inductive Result (A : Type) : Type :=
| Ok (a : A)
| Throw (e : Error).
Arguments Ok {A} a.
Arguments Throw {A} e.

Definition bind {A B} (r : Result A) (k : A -> Result B) : Result B :=
  match r with
  | Ok a => k a
  | Throw e => Throw e
  end.

Notation "x <- r ;; k" := (bind r (fun x => k))
  (at level 100, r at next level, right associativity).

Definition is_ok {A} (r : Result A) : bool :=
  match r with Ok _ => true | Throw _ => false end.

(** A property value of a record as the serialisers see it: a plain value,
    or the [Date] object that validation stores. *)
Inductive Cell : Type :=
| CValue (v : JSValue)
| CDate (d : option Z).

(* ------------------------------------------------------------------ *)
(** ** The engine *)

(** The built-ins the module calls and this development does not interpret.
    A [Date] is its time value: [Some t] for [t] milliseconds since the
    epoch, [None] for an invalid date. *)
Record Host : Type := {
  parseFloat : JSValue -> float;             (* parseFloat(v) *)
  Date_new : JSValue -> option Z;            (* new Date(v) *)
  Date_now : Z;                              (* new Date() *)
  Date_getMonth : option Z -> float;         (* d.getMonth() *)
  Date_getFullYear : option Z -> float;      (* d.getFullYear() *)
  toLocaleDateString : option Z -> string;   (* d.toLocaleDateString('zh-CN', ...) *)
  toFixed3 : float -> string;                (* x.toFixed(3) *)
  Number_toString : float -> string;         (* `${x}` *)
  ToNumber_other : JSValue -> float;         (* ToNumber of a string, array or object *)
  ToString_other : JSValue -> string;        (* ToString of a value that is no string *)
  Date_toString : option Z -> string;        (* String(d) *)
  JSON_stringify : list (list (string * Cell)) -> string;
                                             (* JSON.stringify(rows, null, 2) *)
}.

(** ToNumber and ToString. *)
Definition ToNumber (h : Host) (v : JSValue) : float :=
  match v with
  | JNum x => x
  | JUndefined => PrimFloat.nan
  | JNull => 0%float
  | JBool b => if b then 1%float else 0%float
  | _ => ToNumber_other h v
  end.

Definition ToString (h : Host) (v : JSValue) : string :=
  match v with
  | JStr s => s
  | _ => ToString_other h v
  end.

(** [a < b] and [a > b] on two dates: on their time values, false when
    either is invalid. *)
Definition date_lt (a b : option Z) : bool :=
  match a, b with
  | Some x, Some y => Z.ltb x y
  | _, _ => false
  end.

Definition date_gt (a b : option Z) : bool := date_lt b a.

(* ------------------------------------------------------------------ *)
(** ** Records *)

(** The fields [enrichData] adds. *)
Record Derived : Type := {
  id : nat;
  bid_date_formatted : string;
  bid_price_formatted : string;
  quarter : string;
  month : float;
  year : float;
}.

(** A validated record; [derived] is [Some] once [enrichData] has run.
    [bid_date] is the raw value as the input had it. *)
Record BidRecord : Type := {
  user_name : string;
  power_company : string;
  bid_date : JSValue;
  bid_date_parsed : option Z;
  bid_price : float;
  derived : option Derived;
}.

Definition set_user_name (s : string) (r : BidRecord) : BidRecord :=
  {| user_name := s; power_company := power_company r; bid_date := bid_date r;
     bid_date_parsed := bid_date_parsed r; bid_price := bid_price r;
     derived := derived r |}.

Definition set_power_company (s : string) (r : BidRecord) : BidRecord :=
  {| user_name := user_name r; power_company := s; bid_date := bid_date r;
     bid_date_parsed := bid_date_parsed r; bid_price := bid_price r;
     derived := derived r |}.

Definition set_bid_date (v : JSValue) (d : option Z) (r : BidRecord) : BidRecord :=
  {| user_name := user_name r; power_company := power_company r; bid_date := v;
     bid_date_parsed := d; bid_price := bid_price r; derived := derived r |}.

Definition set_bid_price (x : float) (r : BidRecord) : BidRecord :=
  {| user_name := user_name r; power_company := power_company r;
     bid_date := bid_date r; bid_date_parsed := bid_date_parsed r;
     bid_price := x; derived := derived r |}.

Definition set_derived (d : Derived) (r : BidRecord) : BidRecord :=
  {| user_name := user_name r; power_company := power_company r;
     bid_date := bid_date r; bid_date_parsed := bid_date_parsed r;
     bid_price := bid_price r; derived := Some d |}.

(* ------------------------------------------------------------------ *)
(** ** DataHandler: validation *)

Module DataHandler.

Inductive FieldType : Type := TString | TDate | TNumber.

(** [this.requiredFields] and [this.dataTypes] of the constructor. *)
Definition requiredFields : list string :=
  ["user_name"; "power_company"; "bid_date"; "bid_price"].

Definition dataTypes (field : string) : option FieldType :=
  if Str.eqb field "user_name" then Some TString
  else if Str.eqb field "power_company" then Some TString
  else if Str.eqb field "bid_date" then Some TDate
  else if Str.eqb field "bid_price" then Some TNumber
  else None.

(** [validatedRecord[field] = v], for a string, a number and a date. *)
Definition store_string (field : string) (s : string) (r : BidRecord) : BidRecord :=
  if Str.eqb field "user_name" then set_user_name s r
  else if Str.eqb field "power_company" then set_power_company s r
  else r.

Definition store_number (field : string) (x : float) (r : BidRecord) : BidRecord :=
  if Str.eqb field "bid_price" then set_bid_price x r else r.

Definition store_date (field : string) (v : JSValue) (d : option Z)
    (r : BidRecord) : BidRecord :=
  if Str.eqb field "bid_date" then set_bid_date v d r else r.

(** [const validatedRecord = {}]: no field assigned yet.  Every field is
    assigned by the loop before the record is returned. *)
Definition empty_record : BidRecord :=
  {| user_name := ""; power_company := ""; bid_date := JUndefined;
     bid_date_parsed := None; bid_price := 0%float; derived := None |}.

Section WithHost.
Variable h : Host.

(** One turn of the loop of [validateRecord]: the presence check, then
    the [switch] on the expected type. *)
Definition validateField (record : JSValue) (field : string)
    (validatedRecord : BidRecord) : Result BidRecord :=
  if negb (has_property field record) then Throw (MissingField field)
  else
    let value := get_property field record in
    match dataTypes field with
    | Some TString =>
        match value with
        | JStr s =>
            if Str.eqb (Str.trim s) "" then Throw (InvalidString field)
            else Ok (store_string field (Str.trim s) validatedRecord)
        | _ => Throw (InvalidString field)
        end
    | Some TNumber =>
        let numValue := parseFloat h value in
        if Num.isNaN numValue || negb (Num.isFinite numValue)
        then Throw (InvalidNumber field)
        else if Str.eqb field "bid_price"
                && (PrimFloat.ltb numValue lit_0_1
                    || PrimFloat.ltb lit_2_0 numValue)
        then Throw (PriceOutOfRange numValue)
        else Ok (store_number field numValue validatedRecord)
    | Some TDate =>
        let dateValue := Date_new h value in
        match dateValue with
        | None => Throw (InvalidDate field)
        | Some _ =>
            let now := Some (Date_now h) in
            let minDate := Date_new h (JStr "2020-01-01") in
            if date_gt dateValue now || date_lt dateValue minDate
            then Throw (DateOutOfRange value)
            else Ok (store_date field value dateValue validatedRecord)
        end
    | None => Ok validatedRecord
    end.

Fixpoint validateFields (record : JSValue) (fields : list string)
    (validatedRecord : BidRecord) : Result BidRecord :=
  match fields with
  | [] => Ok validatedRecord
  | field :: rest =>
      r <- validateField record field validatedRecord ;;
      validateFields record rest r
  end.

(** [validateRecord(record, index)]; [index] is not used by the body. *)
Definition validateRecord (record : JSValue) (index : nat) : Result BidRecord :=
  if negb (truthy_value record) || negb (typeof_object record)
  then Throw InvalidRecord
  else validateFields record requiredFields empty_record.

End WithHost.

(** What the module reports besides its result: [console.warn] of the
    rejected records, and the two events dispatched on [window]. *)
Inductive Event : Type :=
| ValidationWarning (errors : list (nat * Error))
| LoadingStateChanged (isLoading : bool)
| DataError (e : Error).

Section Dataset.
Variable h : Host.

(** The shape test of [validateDataStructure]: a bare array, or an
    object whose [data] is an array. *)
Definition resolveArray (jsonData : JSValue) : Result (list JSValue) :=
  if negb (truthy_value jsonData) then Throw EmptyData
  else
    match jsonData with
    | JArr items => Ok items
    | _ =>
        match get_property "data" jsonData with
        | JArr items => Ok items
        | _ => Throw MalformedData
        end
    end.

(** The [forEach] with its [try]/[catch]: accepted records and messages
    of rejected ones, each in input order.  A message carries the
    1-based position of its record. *)
Fixpoint validateEach (items : list JSValue) (index : nat)
    (validatedData : list BidRecord) (errors : list (nat * Error))
    : list BidRecord * list (nat * Error) :=
  match items with
  | [] => (validatedData, errors)
  | item :: rest =>
      match validateRecord h item index with
      | Ok validatedItem =>
          validateEach rest (S index) (validatedData ++ [validatedItem]) errors
      | Throw e =>
          validateEach rest (S index) validatedData
                       (errors ++ [((index + 1)%nat, e)])
      end
  end.

(** [errors.length / dataArray.length > 0.2]. *)
Definition overThreshold (rejected total : nat) : bool :=
  PrimFloat.ltb lit_0_2
    (PrimFloat.div (Number_of_nat rejected) (Number_of_nat total)).

(** The checks after the loop. *)
Definition qualityGate (total : nat) (validatedData : list BidRecord)
    (errors : list (nat * Error)) : Result (list BidRecord) * list Event :=
  let warned := if (0 <? length errors)%nat
                then [ValidationWarning errors] else [] in
  if (0 <? length errors)%nat && overThreshold (length errors) total
  then (Throw (DataQuality (length errors) total), warned)
  else if (length validatedData =? 0)%nat
  then (Throw NoValidRecords, warned)
  else (Ok validatedData, warned).

Definition validateDataStructure (jsonData : JSValue)
    : Result (list BidRecord) * list Event :=
  match resolveArray jsonData with
  | Throw e => (Throw e, [])
  | Ok dataArray =>
      if (length dataArray =? 0)%nat then (Throw EmptyData, [])
      else
        let '(validatedData, errors) := validateEach dataArray 0 [] [] in
        qualityGate (length dataArray) validatedData errors
  end.

End Dataset.

End DataHandler.

(* ------------------------------------------------------------------ *)
(** ** A concrete engine for examples *)

(** An instance of [Host] on which the functions can be run: [parseFloat]
    reads decimal literals, rounding to the nearest binary64 number; dates
    are the ISO form [YYYY-MM-DD] read as UTC midnight, and the clock
    stands at 2025-10-02.  The formatting functions return the empty
    string. *)
Module ExampleHost.

Definition digit (c : N) : option Z :=
  if ((48 <=? c) && (c <=? 57))%N then Some (Z.of_N (c - 48)) else None.

Fixpoint digits (acc : Z) (cs : string) : option Z :=
  match cs with
  | [] => Some acc
  | c :: rest =>
      match digit c with
      | Some d => digits (10 * acc + d) rest
      | None => None
      end
  end.

(** Days from 1970-01-01 to the civil date [y]-[m]-[d]. *)
Definition days_from_civil (y m d : Z) : Z :=
  let y' := if m <=? 2 then y - 1 else y in
  let era := y' / 400 in
  let yoe := y' - era * 400 in
  let doy := (153 * (m + (if 2 <? m then -3 else 9)) + 2) / 5 + d - 1 in
  let doe := yoe * 365 + yoe / 4 - yoe / 100 + doy in
  era * 146097 + doe - 719468.

Definition msPerDay : Z := 86400000.

Definition parse_iso (s : string) : option Z :=
  match s with
  | [y1; y2; y3; y4; 45%N; m1; m2; 45%N; d1; d2] =>
      match digits 0 [y1; y2; y3; y4], digits 0 [m1; m2], digits 0 [d1; d2] with
      | Some y, Some m, Some d =>
          if (1 <=? m) && (m <=? 12) && (1 <=? d) && (d <=? 31)
          then Some (days_from_civil y m d * msPerDay) else None
      | _, _, _ => None
      end
  | _ => None
  end.

(** Year and month (1-12) of a time value, in UTC. *)
Definition civil_of_time (t : Z) : Z * Z :=
  let z := t / msPerDay + 719468 in
  let era := z / 146097 in
  let doe := z - era * 146097 in
  let yoe := (doe - doe / 1460 + doe / 36524 - doe / 146096) / 365 in
  let doy := doe - (365 * yoe + yoe / 4 - yoe / 100) in
  let mp := (5 * doy + 2) / 153 in
  let m := if mp <? 10 then mp + 3 else mp - 9 in
  let y := yoe + era * 400 + (if m <=? 2 then 1 else 0) in
  (y, m).

(** The decimal digits at the front of a text: their value after [acc],
    how many they are, and the text that follows. *)
Fixpoint leading_digits (acc : Z) (count : Z) (s : string) : Z * Z * string :=
  match s with
  | c :: rest =>
      match digit c with
      | Some d => leading_digits (10 * acc + d) (count + 1) rest
      | None => (acc, count, s)
      end
  | [] => (acc, count, s)
  end.

(** The binary64 number nearest to [m * 10^e10], ties to even. *)
Definition of_decimal (negative : bool) (m e10 : Z) : float :=
  SF2Prim
    (match m with
     | Zpos p =>
         if 0 <=? e10
         then binary_normalize prec emax (cond_Zopp negative (m * 10 ^ e10)) 0 false
         else SFdiv prec emax (S754_finite negative p 0)
                (S754_finite false (Z.to_pos (10 ^ (- e10))) 0)
     | _ => S754_zero negative
     end).

(** The exponent part at the front of [s], if there is one. *)
Definition exponent (s : string) : Z :=
  match s with
  | (101 | 69)%N :: rest =>
      let '(negative, rest') :=
        match rest with
        | 45%N :: r => (true, r)
        | 43%N :: r => (false, r)
        | _ => (false, rest)
        end in
      let '(e, count, _) := leading_digits 0 0 rest' in
      if 0 <? count then cond_Zopp negative e else 0
  | _ => 0
  end.

(** [parseFloat(s)] on a string: white space, a sign, then [Infinity] or
    the longest decimal literal; NaN when there is none. *)
Definition parseFloat_string (s : string) : float :=
  let s := Str.trimStart s in
  let '(negative, s) :=
    match s with
    | 45%N :: r => (true, r)
    | 43%N :: r => (false, r)
    | _ => (false, s)
    end in
  if Str.prefix "Infinity" s
  then (if negative then PrimFloat.neg_infinity else PrimFloat.infinity)
  else
    let '(whole, count, s) := leading_digits 0 0 s in
    let '(mantissa, decimals, total, s) :=
      match s with
      | 46%N :: r =>
          let '(m, d, r') := leading_digits whole 0 r in
          (m, d, count + d, r')
      | _ => (whole, 0, count, s)
      end in
    if total =? 0 then PrimFloat.nan
    else of_decimal negative mantissa (exponent s - decimals).

(** [parseFloat(v)]: of the text of [v].  The text of a number reads back
    as that number ([-0] as [0]); the text of an array starts with that of
    its first element, which is empty for [null] and [undefined]. *)
Fixpoint parseFloat_value (v : JSValue) : float :=
  match v with
  | JNum x => if PrimFloat.eqb x 0%float then 0%float else x
  | JStr s => parseFloat_string s
  | JArr (first :: _) =>
      match first with
      | JUndefined | JNull => PrimFloat.nan
      | _ => parseFloat_value first
      end
  | _ => PrimFloat.nan
  end.

Definition host : Host :=
  {| parseFloat := parseFloat_value;
     Date_new := fun v => match v with JStr s => parse_iso s | _ => None end;
     Date_now := 1759363200000;
     Date_getMonth := fun d =>
       match d with
       | Some t => Number_of_int (snd (civil_of_time t) - 1)
       | None => PrimFloat.nan
       end;
     Date_getFullYear := fun d =>
       match d with
       | Some t => Number_of_int (fst (civil_of_time t))
       | None => PrimFloat.nan
       end;
     toLocaleDateString := fun _ => "";
     toFixed3 := fun _ => "";
     Number_toString := fun _ => "";
     ToNumber_other := fun _ => PrimFloat.nan;
     ToString_other := fun _ => "";
     Date_toString := fun _ => "";
     JSON_stringify := fun _ => "[]" |}.

(** A well-formed raw record. *)
Definition raw (user company date : string) (price : float) : JSValue :=
  JObj [("user_name", JStr user); ("power_company", JStr company);
        ("bid_date", JStr date); ("bid_price", JNum price)].

End ExampleHost.

(* ------------------------------------------------------------------ *)
(** ** Dataset validation, as the specification words it *)

Module DatasetSpec.
Import DataHandler.

(** The records of the input that the record validator accepts, in input
    order. *)
Fixpoint acceptedRecords (h : Host) (items : list JSValue) : list BidRecord :=
  match items with
  | [] => []
  | item :: rest =>
      match validateRecord h item 0 with
      | Ok v => v :: acceptedRecords h rest
      | Throw _ => acceptedRecords h rest
      end
  end.

(** The rejections, each with the 1-based position of its record; [index]
    is the 0-based position of the head of [items]. *)
Fixpoint rejectionsFrom (h : Host) (index : nat) (items : list JSValue)
    : list (nat * Error) :=
  match items with
  | [] => []
  | item :: rest =>
      match validateRecord h item index with
      | Ok _ => rejectionsFrom h (S index) rest
      | Throw e => ((index + 1)%nat, e) :: rejectionsFrom h (S index) rest
      end
  end.

(** The rejected fraction is strictly above one fifth, in exact
    arithmetic. *)
Definition aboveOneFifth (rejected total : nat) : bool :=
  (total <? 5 * rejected)%nat.

End DatasetSpec.

(* ------------------------------------------------------------------ *)
(** ** Arrays *)

(** [Array.prototype.sort(comparefn)] sorts in place and is stable.  On a
    comparator that orders the elements consistently every stable sort
    gives the same array; it is embedded as the insertion sort that moves
    an element past its right neighbour only when [comparefn] of the two is
    positive ([positive a b] is [comparefn(a, b) > 0]).  Where the
    comparator is not consistent (here: a date that cannot be read, a
    price that is NaN, for which it returns NaN) the language leaves the
    order to the engine; what is proved of the order an array is left in
    is stated for arrays on which the comparator is consistent. *)
Module JSArray.
Section Sort.
Context {A : Type}.
Variable positive : A -> A -> bool.

Fixpoint insert (x : A) (sorted : list A) : list A :=
  match sorted with
  | [] => [x]
  | y :: rest => if positive x y then y :: insert x rest else x :: sorted
  end.

Fixpoint sort (l : list A) : list A :=
  match l with
  | [] => []
  | x :: rest => insert x (sort rest)
  end.
End Sort.

(** [a] may stand before [b]: the comparator is not positive on them. *)
Definition in_order {A : Type} (positive : A -> A -> bool) (a b : A) : Prop :=
  positive a b = false.

(** [l.reduce((acc, x, i) => f(acc, x, i), init)]. *)
Fixpoint reduce_from {A B : Type} (f : B -> A -> nat -> B) (i : nat)
    (l : list A) (acc : B) : B :=
  match l with
  | [] => acc
  | x :: rest => reduce_from f (S i) rest (f acc x i)
  end.

Definition reduce {A B : Type} (f : B -> A -> nat -> B) (l : list A) (init : B) : B :=
  reduce_from f 0 l init.

(** [l.map((x, i) => f(x, i))]. *)
Fixpoint map_from {A B : Type} (f : A -> nat -> B) (i : nat) (l : list A) : list B :=
  match l with
  | [] => []
  | x :: rest => f x i :: map_from f (S i) rest
  end.

Definition mapi {A B : Type} (f : A -> nat -> B) (l : list A) : list B :=
  map_from f 0 l.
End JSArray.

(** The arrays of records live in a store, so that two names of one array
    see each other's writes.  A reference is a position in the store;
    [alloc] extends the store by a new array.  The records themselves are
    never written to after they are built, so they are stored by value. *)
Module Store.
Abbreviation ref := nat (only parsing).
Abbreviation Heap := (list (list BidRecord)) (only parsing).

Definition read (σ : Heap) (r : ref) : list BidRecord := default [] (σ !! r).
Definition write (σ : Heap) (r : ref) (arr : list BidRecord) : Heap :=
  <[r := arr]> σ.
Definition alloc (σ : Heap) (arr : list BidRecord) : ref * Heap :=
  (length σ, σ ++ [arr]).
End Store.
Export Store.

(* ------------------------------------------------------------------ *)
(** ** DataHandler: processing *)

Module Processing.
Section WithHost.
Variable h : Host.

(** [dateA - dateB]: the difference of the time values, [None] (NaN)
    when a date is invalid.  The sort looks at its sign only. *)
Definition date_diff (a b : option Z) : option Z :=
  match a, b with
  | Some x, Some y => Some (x - y)
  | _, _ => None
  end.

Definition is_positive (v : option Z) : bool :=
  match v with Some z => 0 <? z | None => false end.

(** The comparator of [sortByDate]. *)
Definition compareByDate (ascending : bool) (a b : BidRecord) : option Z :=
  let dateA := Date_new h (bid_date a) in
  let dateB := Date_new h (bid_date b) in
  if ascending then date_diff dateA dateB else date_diff dateB dateA.

Definition sortedByDate (ascending : bool) (l : list BidRecord) : list BidRecord :=
  JSArray.sort (fun a b => is_positive (compareByDate ascending a b)) l.

(** [sortByDate(data, ascending)]: [data.sort(...)] reorders the array
    [data] refers to and returns that same reference. *)
Definition sortByDate (data : ref) (ascending : bool) (σ : Heap) : ref * Heap :=
  (data, write σ data (sortedByDate ascending (read σ data))).

(** Record [a] is not dated after record [b] (an invalid date compares as
    equal to everything). *)
Definition not_after (a b : BidRecord) : Prop :=
  match Date_new h (bid_date a), Date_new h (bid_date b) with
  | Some x, Some y => x <= y
  | _, _ => True
  end.

Definition cleanString (str : string) : string :=
  Str.trim (Str.collapse false str).

Definition roundPrice (price : float) : float :=
  PrimFloat.div (Math_round (PrimFloat.mul price 1000%float)) 1000%float.

Definition cleanItem (item : BidRecord) : BidRecord :=
  set_bid_price (roundPrice (bid_price item))
    (set_power_company (cleanString (power_company item))
       (set_user_name (cleanString (user_name item)) item)).

(** [cleanData(data)]: [data.map(...)] builds a new array. *)
Definition cleanData (data : ref) (σ : Heap) : ref * Heap :=
  alloc σ (map cleanItem (read σ data)).

Definition formatDate (dateStr : JSValue) : string :=
  toLocaleDateString h (Date_new h dateStr).

Definition getMonth (dateStr : JSValue) : float :=
  PrimFloat.add (Date_getMonth h (Date_new h dateStr)) 1%float.

Definition getQuarter (dateStr : JSValue) : string :=
  let month := PrimFloat.add (Date_getMonth h (Date_new h dateStr)) 1%float in
  "Q" ++ Number_toString h (Math_ceil (PrimFloat.div month 3%float)).

Definition getYear (dateStr : JSValue) : float :=
  Date_getFullYear h (Date_new h dateStr).

Definition enrichItem (item : BidRecord) (index : nat) : BidRecord :=
  set_derived
    {| id := index + 1;
       bid_date_formatted := formatDate (bid_date item);
       bid_price_formatted := toFixed3 h (bid_price item) ++ " 元/kWh";
       quarter := getQuarter (bid_date item);
       month := getMonth (bid_date item);
       year := getYear (bid_date item) |}
    item.

(** [enrichData(data)]: again a new array. *)
Definition enrichData (data : ref) (σ : Heap) : ref * Heap :=
  alloc σ (JSArray.mapi enrichItem (read σ data)).

(** [processData(data)].  On typed records no step throws, so the
    [catch] clause has nothing to wrap. *)
Definition processData (data : ref) (σ : Heap) : ref * Heap :=
  let '(sortedData, σ1) := sortByDate data true σ in
  let '(cleanedData, σ2) := cleanData sortedData σ1 in
  enrichData cleanedData σ2.

(** [getLatestRecords(count, data)]; [processedData] is
    [this.processedData].  The array is copied before it is sorted. *)
Definition getLatestRecords (count : nat) (data processedData : option ref)
    (σ : Heap) : ref * Heap :=
  let sourceData := match data with Some d => Some d | None => processedData end in
  match sourceData with
  | None => alloc σ []
  | Some src =>
      if (length (read σ src) =? 0)%nat then alloc σ []
      else
        let '(copy, σ1) := alloc σ (read σ src) in
        let '(sortedData, σ2) := sortByDate copy false σ1 in
        alloc σ2 (take count (read σ2 sortedData))
  end.

End WithHost.
End Processing.

(* ------------------------------------------------------------------ *)
(** ** DataHandler: analytics *)

(** The [filters] argument of [filterData]; a property that is not
    supplied reads as [JUndefined]. *)
Record Filters : Type := {
  startDate : JSValue;
  endDate : JSValue;
  minPrice : JSValue;
  maxPrice : JSValue;
  userName : JSValue;
  powerCompany : JSValue;
}.

Record PriceStats : Type := {
  min : float;
  max : float;
  average : float;
  median : float;
}.

Record Statistics : Type := {
  totalRecords : nat;
  priceStats : PriceStats;
  earliest : option Z;
  latest : option Z;
  uniqueUsers : nat;
  uniqueCompanies : nat;
}.

Module Analytics.

(** [data || this.processedData]: an array is truthy even when empty. *)
Definition sourceOf {A : Type} (data processedData : option (list A))
    : option (list A) :=
  match data with
  | Some d => Some d
  | None => processedData
  end.

Section WithHost.
Variable h : Host.

(** The callback of [sourceData.filter(...)]. *)
Definition keeps (filters : Filters) (item : BidRecord) : bool :=
  if truthy_value (startDate filters)
     && date_lt (Date_new h (bid_date item)) (Date_new h (startDate filters))
  then false
  else if truthy_value (endDate filters)
     && date_gt (Date_new h (bid_date item)) (Date_new h (endDate filters))
  then false
  else if truthy_value (minPrice filters)
     && PrimFloat.ltb (bid_price item) (ToNumber h (minPrice filters))
  then false
  else if truthy_value (maxPrice filters)
     && PrimFloat.ltb (ToNumber h (maxPrice filters)) (bid_price item)
  then false
  else if truthy_value (userName filters)
     && negb (Str.includes (ToString h (userName filters)) (user_name item))
  then false
  else if truthy_value (powerCompany filters)
     && negb (Str.includes (ToString h (powerCompany filters)) (power_company item))
  then false
  else true.

Definition filterData (filters : Filters)
    (data processedData : option (list BidRecord)) : list BidRecord :=
  match sourceOf data processedData with
  | None => []
  | Some sourceData =>
      if (length sourceData =? 0)%nat then []
      else List.filter (keeps filters) sourceData
  end.

End WithHost.

(** [sorted[i]] read as a number: [undefined], out of range, is NaN in
    the arithmetic that follows. *)
Definition at_index (l : list float) (i : Z) : float :=
  if i <? 0 then PrimFloat.nan else nth (Z.to_nat i) l PrimFloat.nan.

(** The comparator [(a, b) => a - b] is positive. *)
Definition minus_positive (a b : float) : bool :=
  PrimFloat.ltb 0%float (PrimFloat.sub a b).

Definition calculateMedian (numbers : list float) : float :=
  let sorted := JSArray.sort minus_positive numbers in
  let middle := Z.of_nat (length sorted) / 2 in
  if Z.of_nat (length sorted) mod 2 =? 0
  then PrimFloat.div
         (PrimFloat.add (at_index sorted (middle - 1)) (at_index sorted middle))
         2%float
  else at_index sorted middle.

Definition is_negative_zero (x : float) : bool :=
  match PrimFloat.classify x with NZero => true | _ => false end.

Definition is_positive_zero (x : float) : bool :=
  match PrimFloat.classify x with PZero => true | _ => false end.

(** [Math.min(...xs)] and [Math.max(...xs)]. *)
Fixpoint Math_min_from (lowest : float) (xs : list float) : float :=
  match xs with
  | [] => lowest
  | x :: rest =>
      if Num.isNaN x then PrimFloat.nan
      else if is_negative_zero x && is_positive_zero lowest
      then Math_min_from x rest
      else if PrimFloat.ltb x lowest then Math_min_from x rest
      else Math_min_from lowest rest
  end.

Fixpoint Math_max_from (highest : float) (xs : list float) : float :=
  match xs with
  | [] => highest
  | x :: rest =>
      if Num.isNaN x then PrimFloat.nan
      else if is_positive_zero x && is_negative_zero highest
      then Math_max_from x rest
      else if PrimFloat.ltb highest x then Math_max_from x rest
      else Math_max_from highest rest
  end.

Definition Math_min (xs : list float) : float :=
  Math_min_from PrimFloat.infinity xs.
Definition Math_max (xs : list float) : float :=
  Math_max_from PrimFloat.neg_infinity xs.

(** [new Date(Math.min(...dates))]: the least time value, invalid as
    soon as one date is ([dates] is not empty here). *)
Fixpoint date_extreme (pick : Z -> Z -> Z) (acc : option Z) (dates : list (option Z))
    : option Z :=
  match dates with
  | [] => acc
  | None :: _ => None
  | Some t :: rest =>
      date_extreme pick (Some (match acc with Some a => pick a t | None => t end)) rest
  end.

(** [prices.reduce((sum, price) => sum + price, 0)]. *)
Definition sum (xs : list float) : float :=
  JSArray.reduce (fun acc x _ => PrimFloat.add acc x) xs 0%float.

Section Statistics.
Variable h : Host.

(** [getDataStatistics(data)]; [None] is [null]. *)
Definition getDataStatistics (data processedData : option (list BidRecord))
    : option Statistics :=
  match sourceOf data processedData with
  | None => None
  | Some sourceData =>
      if (length sourceData =? 0)%nat then None
      else
        let prices := map bid_price sourceData in
        let dates := map (fun item => Date_new h (bid_date item)) sourceData in
        Some {| totalRecords := length sourceData;
                priceStats :=
                  {| min := Math_min prices;
                     max := Math_max prices;
                     average := PrimFloat.div (sum prices)
                                  (Number_of_nat (length prices));
                     median := calculateMedian prices |};
                earliest := date_extreme Z.min None dates;
                latest := date_extreme Z.max None dates;
                uniqueUsers := length (remove_dups (map user_name sourceData));
                uniqueCompanies :=
                  length (remove_dups (map power_company sourceData)) |}
  end.
End Statistics.

End Analytics.

(** Filter sets, as the specification words them. *)
Module FilterSpec.

(** Two values of a filter property count as the same bound when they are
    equal or both falsy. *)
Definition same_bound (v v' : JSValue) : Prop :=
  v = v' \/ (truthy_value v = false /\ truthy_value v' = false).

Definition same_filters (f f' : Filters) : Prop :=
  same_bound (startDate f) (startDate f')
  /\ same_bound (endDate f) (endDate f')
  /\ same_bound (minPrice f) (minPrice f')
  /\ same_bound (maxPrice f) (maxPrice f')
  /\ same_bound (userName f) (userName f')
  /\ same_bound (powerCompany f) (powerCompany f').

(** No property supplied. *)
Definition no_filters : Filters :=
  {| startDate := JUndefined; endDate := JUndefined; minPrice := JUndefined;
     maxPrice := JUndefined; userName := JUndefined; powerCompany := JUndefined |}.

End FilterSpec.

(* ------------------------------------------------------------------ *)
(** ** DataHandler: export *)

Module Exporter.
Import Analytics.

Section WithHost.
Variable h : Host.

(** The own properties of a record, in insertion order: the validated
    fields as [validateRecord] assigns them, then the fields of
    [enrichData]. *)
Definition entries (r : BidRecord) : list (string * Cell) :=
  [("user_name", CValue (JStr (user_name r)));
   ("power_company", CValue (JStr (power_company r)));
   ("bid_date", CValue (bid_date r));
   ("bid_date_parsed", CDate (bid_date_parsed r));
   ("bid_price", CValue (JNum (bid_price r)))]
  ++ match derived r with
     | None => []
     | Some d =>
         [("id", CValue (JNum (Number_of_nat (id d))));
          ("bid_date_formatted", CValue (JStr (bid_date_formatted d)));
          ("bid_price_formatted", CValue (JStr (bid_price_formatted d)));
          ("quarter", CValue (JStr (quarter d)));
          ("month", CValue (JNum (month d)));
          ("year", CValue (JNum (year d)))]
     end.

Fixpoint cell_get (k : string) (props : list (string * Cell)) : option Cell :=
  match props with
  | [] => None
  | (k', c) :: rest => if Str.eqb k k' then Some c else cell_get k rest
  end.

Definition dquote : string := [34%N].

(** One cell of a CSV row: a string with a comma is wrapped in double
    quotes; then [join] turns the value into text, [undefined] and [null]
    into nothing. *)
Definition csvCell (value : option Cell) : string :=
  match value with
  | None | Some (CValue JUndefined) | Some (CValue JNull) => []
  | Some (CValue (JStr s)) =>
      if Str.includes "," s then dquote ++ s ++ dquote else s
  | Some (CValue (JNum x)) => Number_toString h x
  | Some (CValue v) => ToString_other h v
  | Some (CDate d) => Date_toString h d
  end.

Fixpoint join (sep : string) (parts : list string) : string :=
  match parts with
  | [] => []
  | [s] => s
  | s :: rest => s ++ sep ++ join sep rest
  end.

Definition newline : string := [10%N].

Definition convertToCSV (data : list BidRecord) : string :=
  match data with
  | [] => []
  | first :: _ =>
      let headers := map fst (entries first) in
      let csvHeaders := join "," headers in
      let csvRows :=
        map (fun row =>
               join "," (map (fun header => csvCell (cell_get header (entries row)))
                             headers))
            data in
      join newline (csvHeaders :: csvRows)
  end.

(** [exportData(format, data)]; [format] defaults to ['json'] when it is
    [undefined].  [toLowerCase] exists on strings only. *)
Definition exportData (format : JSValue) (data processedData : option (list BidRecord))
    : Result string :=
  let format := match format with JUndefined => JStr "json" | _ => format end in
  match sourceOf data processedData with
  | None => Throw NoExportData
  | Some sourceData =>
      if (length sourceData =? 0)%nat then Throw NoExportData
      else
        match format with
        | JStr s =>
            let lower := Str.toLowerCase s in
            if Str.eqb lower "json"
            then Ok (JSON_stringify h (map entries sourceData))
            else if Str.eqb lower "csv"
            then Ok (convertToCSV sourceData)
            else Throw (UnsupportedFormat s)
        | _ => Throw TypeError
        end
  end.

End WithHost.
End Exporter.

(* ------------------------------------------------------------------ *)
(** ** PowerTradeChart: colours and trend line *)

(** The two data arrays of the trace [calculateLinearTrendLine] returns;
    its other properties are constants of the presentation. *)
Record TrendLine : Type := {
  trend_x : list JSValue;
  trend_y : list float;
}.

Module Chart.

(** The [for] loop of [generateTimeBasedColors]: [remaining] turns are left,
    the next index is [i]. *)
Fixpoint colorsLoop (remaining i dataLength : nat) (colors : list float) : list float :=
  match remaining with
  | O => colors
  | S k =>
      let normalizedTime :=
        PrimFloat.div (Number_of_nat i)
                      (PrimFloat.sub (Number_of_nat dataLength) 1%float) in
      colorsLoop k (S i) dataLength (colors ++ [normalizedTime])
  end.

Definition generateTimeBasedColors (sortedData : list BidRecord) : list float :=
  let dataLength := length sortedData in
  colorsLoop dataLength 0 dataLength [].

(** [yValues[i]], NaN in the product when out of range. *)
Definition y_at (yValues : list float) (i : nat) : float :=
  nth i yValues PrimFloat.nan.

(** [calculateLinearTrendLine(data)].  Reading [data[0].bid_date] of an
    empty array throws. *)
Definition calculateLinearTrendLine (data : list BidRecord) : Result TrendLine :=
  let n := Number_of_nat (length data) in
  let xValues := JSArray.mapi (fun _ index => Number_of_nat index) data in
  let yValues := map bid_price data in
  let sumX := JSArray.reduce (fun a b _ => PrimFloat.add a b) xValues 0%float in
  let sumY := JSArray.reduce (fun a b _ => PrimFloat.add a b) yValues 0%float in
  let sumXY :=
    JSArray.reduce (fun sum x i => PrimFloat.add sum (PrimFloat.mul x (y_at yValues i)))
                   xValues 0%float in
  let sumXX :=
    JSArray.reduce (fun sum x _ => PrimFloat.add sum (PrimFloat.mul x x))
                   xValues 0%float in
  let slope :=
    PrimFloat.div
      (PrimFloat.sub (PrimFloat.mul n sumXY) (PrimFloat.mul sumX sumY))
      (PrimFloat.sub (PrimFloat.mul n sumXX) (PrimFloat.mul sumX sumX)) in
  let intercept :=
    PrimFloat.div (PrimFloat.sub sumY (PrimFloat.mul slope sumX)) n in
  let startY := PrimFloat.add (PrimFloat.mul slope 0%float) intercept in
  let endY :=
    PrimFloat.add (PrimFloat.mul slope (PrimFloat.sub n 1%float)) intercept in
  match head data, last data with
  | Some first, Some final =>
      Ok {| trend_x := [bid_date first; bid_date final];
            trend_y := [startY; endY] |}
  | _, _ => Throw TypeError
  end.

End Chart.

(** The trend line as the specification words it: sums over the ordinal
    positions [0 .. n-1], each taken in index order. *)
Module TrendSpec.

Fixpoint Sigma (f : nat -> float) (n : nat) : float :=
  match n with
  | O => 0%float
  | S k => PrimFloat.add (Sigma f k) (f k)
  end.

Section OverData.
Variable data : list BidRecord.

Definition n : nat := length data.
Definition x (i : nat) : float := Number_of_nat i.
Definition y (i : nat) : float :=
  match data !! i with Some r => bid_price r | None => PrimFloat.nan end.

Definition Sx : float := Sigma x n.
Definition Sy : float := Sigma y n.
Definition Sxy : float := Sigma (fun i => PrimFloat.mul (x i) (y i)) n.
Definition Sxx : float := Sigma (fun i => PrimFloat.mul (x i) (x i)) n.

(** slope = (n·Σxy − Σx·Σy) / (n·Σx² − (Σx)²) *)
Definition slope : float :=
  PrimFloat.div
    (PrimFloat.sub (PrimFloat.mul (Number_of_nat n) Sxy) (PrimFloat.mul Sx Sy))
    (PrimFloat.sub (PrimFloat.mul (Number_of_nat n) Sxx) (PrimFloat.mul Sx Sx)).

(** intercept = (Σy − slope·Σx) / n *)
Definition intercept : float :=
  PrimFloat.div (PrimFloat.sub Sy (PrimFloat.mul slope Sx)) (Number_of_nat n).

(** The fitted value at abscissa [t]. *)
Definition predict (t : float) : float :=
  PrimFloat.add (PrimFloat.mul slope t) intercept.

End OverData.
End TrendSpec.

(* ------------------------------------------------------------------ *)
(** ** DataHandler: loading *)

(** [loadData] is an [async] function with two [await]s.  Between them the
    engine may run other code, other calls of [loadData] included, so the
    function is embedded as its three synchronous segments: up to
    [await fetch(...)], from there to [await response.json()], and from
    there to the end.  Each segment takes the state of the handler and
    gives the state it leaves. *)
Module Loader.
Import DataHandler Processing.

(** The fields of [this]. *)
Record Handler : Type := {
  rawData : option nat;
  processedData : option nat;
  dataCache : gmap string nat;
  isLoading : bool;
}.

(** The handler, the store of arrays, and the events reported so far
    (oldest first). *)
Record World : Type := {
  this : Handler;
  heap : list (list BidRecord);
  events : list Event;
}.

Definition new_handler : Handler :=
  {| rawData := None; processedData := None; dataCache := ∅; isLoading := false |}.

Definition set_isLoading (b : bool) (w : World) : World :=
  {| this := {| rawData := rawData (this w); processedData := processedData (this w);
                dataCache := dataCache (this w); isLoading := b |};
     heap := heap w; events := events w |}.

Definition emit (e : Event) (w : World) : World :=
  {| this := this w; heap := heap w; events := events w ++ [e] |}.

(** What a segment ends in: the promise is settled, or the call is
    suspended at one of the two [await]s. *)
Inductive Outcome : Type :=
| Resolved (data : nat)
| Rejected (e : Error)
| AwaitingFetch
| AwaitingJson.

(** What [fetch] settles to. *)
Inductive FetchResult : Type :=
| NetworkError
| Response (ok : bool) (status : Z).

(** The [finally] block. *)
Definition finally (w : World) : World :=
  emit (LoadingStateChanged false) (set_isLoading false w).

(** The [catch] block followed by [finally]: [showError], rethrow. *)
Definition fail (e : Error) (w : World) : Outcome * World :=
  (Rejected e, finally (emit (DataError e) w)).

Section WithHost.
Variable h : Host.

(** First segment: cache, guard, flag, [fetch]. *)
Definition loadData_start (dataUrl : string) (useCache : bool) (w : World)
    : Outcome * World :=
  match (if useCache then dataCache (this w) !! dataUrl else None) with
  | Some cached => (Resolved cached, finally w)
  | None =>
      if isLoading (this w) then fail ConcurrentLoad w
      else (AwaitingFetch, emit (LoadingStateChanged true) (set_isLoading true w))
  end.

(** Second segment: the response has arrived. *)
Definition loadData_fetched (response : FetchResult) (w : World) : Outcome * World :=
  match response with
  | NetworkError => fail TypeError w
  | Response ok status =>
      if negb ok then fail (RetrievalFailed status) w
      else (AwaitingJson, w)
  end.

(** Third segment: the body has been decoded ([None]: it could not be).
    The validated records become a new array, which [processData] then
    works on. *)
Definition loadData_decoded (dataUrl : string) (useCache : bool)
    (body : option JSValue) (w : World) : Outcome * World :=
  match body with
  | None => fail DecodeFailed w
  | Some jsonData =>
      let '(validation, warnings) := validateDataStructure h jsonData in
      let w1 := {| this := this w; heap := heap w;
                   events := events w ++ warnings |} in
      match validation with
      | Throw e => fail e w1
      | Ok records =>
          let '(validatedData, σ1) := alloc (heap w1) records in
          let '(processedData, σ2) := processData h validatedData σ1 in
          let cache := if useCache
                       then <[dataUrl := processedData]> (dataCache (this w1))
                       else dataCache (this w1) in
          let w2 := {| this := {| rawData := Some validatedData;
                                  processedData := Some processedData;
                                  dataCache := cache;
                                  isLoading := isLoading (this w1) |};
                       heap := σ2; events := events w1 |} in
          (Resolved processedData, finally w2)
      end
  end.

End WithHost.

(** The promise of the call is settled. *)
Definition settled (o : Outcome) : Prop :=
  match o with
  | Resolved _ | Rejected _ => True
  | AwaitingFetch | AwaitingJson => False
  end.

(** ** Interleavings *)

(** A call that is suspended, with its arguments. *)
Record Pending : Type := {
  url : string;
  cached : bool;
  decoding : bool;   (* false: at [await fetch], true: at [await response.json()] *)
}.

(** What the environment does next: a new call, or the settling of what
    the [k]-th suspended call awaits. *)
Inductive Action : Type :=
| Call (dataUrl : string) (useCache : bool)
| Fetched (k : nat) (response : FetchResult)
| Decoded (k : nat) (body : option JSValue).

(** The handler together with its suspended calls. *)
Record System : Type := {
  world : World;
  pending : list Pending;
}.

Definition initial : System :=
  {| world := {| this := new_handler; heap := []; events := [] |};
     pending := [] |}.

(** One action; the outcome is that of the segment it runs.  An action on
    a call that is not suspended at that point does nothing. *)
Definition step (h : Host) (a : Action) (s : System) : option Outcome * System :=
  match a with
  | Call dataUrl useCache =>
      let '(o, w) := loadData_start dataUrl useCache (world s) in
      (Some o,
       {| world := w;
          pending := match o with
                     | AwaitingFetch =>
                         pending s ++ [{| url := dataUrl; cached := useCache;
                                          decoding := false |}]
                     | _ => pending s
                     end |})
  | Fetched k response =>
      match pending s !! k with
      | Some p =>
          if decoding p then (None, s)
          else
            let '(o, w) := loadData_fetched response (world s) in
            (Some o,
             {| world := w;
                pending := match o with
                           | AwaitingJson =>
                               <[k := {| url := url p; cached := cached p;
                                         decoding := true |}]> (pending s)
                           | _ => delete k (pending s)
                           end |})
      | None => (None, s)
      end
  | Decoded k body =>
      match pending s !! k with
      | Some p =>
          if decoding p
          then let '(o, w) := loadData_decoded h (url p) (cached p) body (world s) in
               (Some o, {| world := w; pending := delete k (pending s) |})
          else (None, s)
      | None => (None, s)
      end
  end.

(** A run: the actions in order, with the outcome of each. *)
Fixpoint run (h : Host) (actions : list Action) (s : System)
    : list (option Outcome) * System :=
  match actions with
  | [] => ([], s)
  | a :: rest =>
      let '(o, s1) := step h a s in
      let '(os, s2) := run h rest s1 in
      (o :: os, s2)
  end.

End Loader.

(** The median as the specification words it, on prices already sorted:
    the central value of an odd count, the average of the two central
    values of an even count. *)
Module MedianSpec.

Definition centre (sorted : list float) : float :=
  let k := length sorted in
  if Nat.even k
  then PrimFloat.div
         (PrimFloat.add (nth (k / 2 - 1) sorted PrimFloat.nan)
                        (nth (k / 2) sorted PrimFloat.nan))
         2%float
  else nth (k / 2) sorted PrimFloat.nan.

(** [b] is not below [a]: the two may follow each other in an ascending
    sequence.  For numbers this is [a <= b]; NaN is below nothing. *)
Definition ascending (a b : float) : Prop := PrimFloat.ltb b a = false.

(** [a] is at most [b]. *)
Definition le (a b : float) : Prop := PrimFloat.leb a b = true.

(** No price is NaN. *)
Definition all_numbers (data : list BidRecord) : Prop :=
  Forall (fun r => Num.isNaN (bid_price r) = false) data.

End MedianSpec.

(* ------------------------------------------------------------------ *)
(** ** Example data *)

Module Examples.
Import DataHandler Processing Loader ExampleHost.
#[local] Set Warnings "-inexact-float".

Definition sample (price : float) : JSValue :=
  raw "Alice" "GX Power" "2023-01-01" price.

Definition good (day : string) : JSValue :=
  raw "Alice" "GX Power" ("2023-01-" ++ day) 0.5.

(** A record that lacks its price. *)
Definition malformed : JSValue :=
  JObj [("user_name", JStr "Bob"); ("power_company", JStr "GX Power");
        ("bid_date", JStr "2023-02-01")].

Definition ten_with_three_malformed : list JSValue :=
  [good "01"; malformed; good "02"; good "03"; malformed;
   good "04"; good "05"; malformed; good "06"; good "07"].

Definition ten_with_two_malformed : list JSValue :=
  [good "01"; malformed; good "02"; good "03"; good "08";
   good "04"; good "05"; malformed; good "06"; good "07"].

Definition record_of (user date : string) (price : float) : BidRecord :=
  {| user_name := user; power_company := "GX Power"; bid_date := JStr date;
     bid_date_parsed := parse_iso date; bid_price := price; derived := None |}.

Definition june : BidRecord := record_of "Alice" "2023-06-01" 0.5.
Definition january : BidRecord := record_of "Bob" "2023-01-01" 0.4.

(** A store whose only array, at reference 0, is the caller's
    [validatedData]: the June record first, the January record second. *)
Definition caller_store : list (list BidRecord) := [[june; january]].

Definition priced (price : float) : BidRecord :=
  {| user_name := "Alice"; power_company := "GX Power";
     bid_date := JStr "2023-01-01"; bid_date_parsed := Some 1672531200000;
     bid_price := price; derived := None |}.

Definition zero_bounds : Filters :=
  {| startDate := JUndefined; endDate := JUndefined; minPrice := JNum 0;
     maxPrice := JNum 0; userName := JUndefined; powerCompany := JUndefined |}.

Definition min_half : Filters :=
  {| startDate := JUndefined; endDate := JUndefined; minPrice := JNum 0.5;
     maxPrice := JUndefined; userName := JUndefined; powerCompany := JUndefined |}.

Definition dataset : JSValue :=
  JArr [raw "Alice" "GX Power" "2023-06-01" 0.5;
        raw "Bob" "GX Power" "2023-01-01" 0.4].

Definition ok_response : FetchResult := Response true 200.

(** A complete load of [a.json], then a load of [b.json] that is left
    waiting for its response. *)
Definition b_in_flight : System :=
  snd (run host [Call "a.json" true; Fetched 0 ok_response;
                 Decoded 0 (Some dataset); Call "b.json" true] initial).

Definition colinear : list BidRecord :=
  [record_of "a" "2023-01-01" 1; record_of "b" "2023-01-02" 2;
   record_of "c" "2023-01-03" 3; record_of "d" "2023-01-04" 4;
   record_of "e" "2023-01-05" 5].

(** The prices of the example, in input order. *)
Definition four_prices : list BidRecord :=
  [priced 0.40; priced 0.50; priced 0.45; priced 0.60].

End Examples.

(* ------------------------------------------------------------------ *)
(** ** Notions the further properties are stated with *)

(** Text in normal form, as [cleanString] leaves it. *)
Module StrSpec.

(** [s] does not begin with white space. *)
Definition no_lead (s : string) : Prop :=
  match s with
  | c :: _ => Str.is_space c = false
  | [] => True
  end.

(** Every white-space character of [s] is a space that stands alone:
    [after_space] says that the character before [s] was white space. *)
Fixpoint single_spaced (after_space : bool) (s : string) : Prop :=
  match s with
  | [] => True
  | c :: rest =>
      if Str.is_space c
      then c = 32%N /\ after_space = false /\ single_spaced true rest
      else single_spaced false rest
  end.

(** [t] is [s] without the white space at its two ends. *)
Definition trimmed (s t : string) : Prop :=
  (exists pre post, s = pre ++ t ++ post
     /\ Forall (fun c => Str.is_space c = true) pre
     /\ Forall (fun c => Str.is_space c = true) post)
  /\ no_lead t /\ no_lead (rev t).

(** The words of [s]: its maximal runs of characters that are not white
    space, in order. *)
Fixpoint words (s : string) : list string :=
  match s with
  | [] => []
  | c :: rest =>
      if Str.is_space c then words rest
      else
        match rest with
        | [] => [[c]]
        | d :: _ =>
            if Str.is_space d then [c] :: words rest
            else
              match words rest with
              | w :: ws => (c :: w) :: ws
              | [] => [[c]]
              end
        end
  end.

(** Words with one space between each two. *)
Fixpoint unwords (ws : list string) : string :=
  match ws with
  | [] => []
  | [w] => w
  | w :: rest => w ++ 32%N :: unwords rest
  end.
(** The characters of [s] that are not white space, in order. *)
Definition ink (s : string) : string :=
  List.filter (fun c => negb (Str.is_space c)) s.

End StrSpec.

(** Dates of records. *)
Module DateSpec.
Section WithHost.
Variable h : Host.

(** Record [r] is dated [t]. *)
Definition dated (t : Z) (r : BidRecord) : bool :=
  match Date_new h (bid_date r) with
  | Some t' => Z.eqb t' t
  | None => false
  end.

(** The date of [r] can be read. *)
Definition valid_date (r : BidRecord) : Prop :=
  is_Some (Date_new h (bid_date r)).

(** The order the two directions of [sortByDate] aim at. *)
Definition date_ordered (ascending : bool) (a b : BidRecord) : Prop :=
  if ascending then Processing.not_after h a b else Processing.not_after h b a.

End WithHost.
End DateSpec.

(** What [filterData] selects by, as propositions. *)
Module SelectionSpec.
Section WithHost.
Variable h : Host.

(** A filter property counts when its value is truthy. *)
Definition supplied (v : JSValue) : Prop := truthy_value v = true.

(** [sub] occurs in [s] as a contiguous piece. *)
Definition contains (sub s : string) : Prop :=
  exists pre post, s = pre ++ sub ++ post.

(** What the six filters ask of a record, each only when supplied: the
    date bounds compare time values and hold when either date cannot be
    read; the price bounds are the negations of [<] and [>]; the two
    texts must occur in the names. *)
Definition passes (filters : Filters) (item : BidRecord) : Prop :=
  (supplied (startDate filters) ->
   forall t ts, Date_new h (bid_date item) = Some t ->
                Date_new h (startDate filters) = Some ts -> ts <= t)
  /\ (supplied (endDate filters) ->
      forall t te, Date_new h (bid_date item) = Some t ->
                   Date_new h (endDate filters) = Some te -> t <= te)
  /\ (supplied (minPrice filters) ->
      PrimFloat.ltb (bid_price item) (ToNumber h (minPrice filters)) = false)
  /\ (supplied (maxPrice filters) ->
      PrimFloat.ltb (ToNumber h (maxPrice filters)) (bid_price item) = false)
  /\ (supplied (userName filters) ->
      contains (ToString h (userName filters)) (user_name item))
  /\ (supplied (powerCompany filters) ->
      contains (ToString h (powerCompany filters)) (power_company item)).

(** Price bounds only. *)
Definition price_between (lo hi : float) : Filters :=
  {| startDate := JUndefined; endDate := JUndefined; minPrice := JNum lo;
     maxPrice := JNum hi; userName := JUndefined; powerCompany := JUndefined |}.

End WithHost.
End SelectionSpec.

(** The order of binary64 numbers. *)
Module FloatOrder.

(** A number as an integer that orders the same way: a finite number
    [±m·2^e] as [±m·2^(e+1074)], the zeros as [0], the infinities beyond
    every finite number.  NaN has no place in the order. *)
Definition SFkey (x : spec_float) : Z :=
  match x with
  | S754_zero _ => 0
  | S754_infinity s => cond_Zopp s (2 ^ 2100)
  | S754_nan => 0
  | S754_finite s m e => cond_Zopp s (Zpos m * 2 ^ (e + 1074))
  end.

Definition order_key (x : float) : Z := SFkey (Prim2SF x).

(** The order of the keys. *)
Definition key_le (a b : float) : Prop := order_key a <= order_key b.

(** [x] is the integer [n]. *)
Definition is_integer (x : float) (n : Z) : Prop :=
  Num.isFinite x = true /\ order_key x = n * 2 ^ 1074.

(** [n] is the integer nearest to [x], the greater of the two when [x]
    lies halfway: [n - 1/2 <= x < n + 1/2]. *)
Definition nearest_integer (x : float) (n : Z) : Prop :=
  (2 * n - 1) * 2 ^ 1074 <= 2 * order_key x < (2 * n + 1) * 2 ^ 1074.

End FloatOrder.

(* ------------------------------------------------------------------ *)
(** ** DataHandler: the cache *)

Module Cache.
Import Loader.

(** [clearCache()]. *)
Definition clearCache (w : World) : World :=
  {| this := {| rawData := rawData (this w);
                processedData := processedData (this w);
                dataCache := ∅;
                isLoading := isLoading (this w) |};
     heap := heap w; events := events w |}.

(** The object [getCacheInfo()] returns.  [keys] lists the cached URLs in
    the order they were first cached; the order is not recorded in
    [dataCache], so the keys are given as a set. *)
Record CacheInfo : Type := {
  cache_size : nat;
  cache_keys : gset string;
}.

Definition getCacheInfo (w : World) : CacheInfo :=
  {| cache_size := size (dataCache (this w));
     cache_keys := dom (dataCache (this w)) |}.

End Cache.

Module LoaderSpec.
Import Loader.

(** The datasets, the cache and the arrays are those of [w]. *)
Definition same_data (w w' : World) : Prop :=
  rawData (this w') = rawData (this w)
  /\ processedData (this w') = processedData (this w)
  /\ dataCache (this w') = dataCache (this w)
  /\ heap w' = heap w.

(** Reference [r] names an array of [w] that holds records. *)
Definition holds_records (w : World) (r : nat) : Prop :=
  (r < length (heap w))%nat /\ read (heap w) r <> [].

(** What every state the handler can reach satisfies. *)
Definition well_formed (s : System) : Prop :=
  (forall dataUrl r, dataCache (this (world s)) !! dataUrl = Some r ->
     holds_records (world s) r)
  /\ (forall r, processedData (this (world s)) = Some r -> holds_records (world s) r)
  /\ (forall r, rawData (this (world s)) = Some r -> holds_records (world s) r)
  /\ (isLoading (this (world s)) = true -> pending s <> []).

(** A complete load with nothing in between: the call, its response, its
    body. *)
Definition load (k : nat) (dataUrl : string) (useCache : bool) (status : Z)
    (jsonData : JSValue) : list Action :=
  [Call dataUrl useCache; Fetched k (Response true status);
   Decoded k (Some jsonData)].

End LoaderSpec.

(* ------------------------------------------------------------------ *)
(** ** PowerTradeChart: traces, selection, statistics *)

(** The data arrays of the scatter trace [prepareChartData] builds; the
    other properties of the trace are constants of the presentation. *)
Record Scatter : Type := {
  scatter_x : list JSValue;
  scatter_y : list float;
  scatter_text : list string;
  marker_color : list float;
}.

(** The fields of the chart object that the code below reads or writes. *)
Record ChartState : Type := {
  chartData : option nat;
  selectedPoint : option nat;
  isInitialized : bool;
}.

(** What a chart method throws: its own message, or an error from
    below. *)
Inductive ChartFailure : Type :=
| InvalidChartData              (* 无效的数据格式 *)
| Thrown (e : Error).

(** The argument of [Plotly.restyle] in [highlightPoint] and
    [clearSelection]. *)
Record MarkerUpdate : Type := {
  marker_size : list float;
  update_color : list float;
  line_width : list float;
  line_color : list string;
}.

(** What [getChartStats] returns. *)
Record ChartStats : Type := {
  stats_totalRecords : nat;
  stats_minPrice : string;
  stats_maxPrice : string;
  stats_avgPrice : string;
  range_start : JSValue;
  range_end : JSValue;
}.

Module ChartData.
Section WithHost.
Variable h : Host.

(** The hover text of one point. *)
Definition hoverText (item : BidRecord) : string :=
  ("用户: " ++ user_name item ++ "<br>")
  ++ ("售电公司: " ++ power_company item ++ "<br>")
  ++ ("日期: " ++ ToString h (bid_date item) ++ "<br>")
  ++ ("电价: " ++ Number_toString h (bid_price item) ++ " 元/MWh").

(** [prepareChartData(data)]: [data.sort(...)] by date, in place, then
    the two traces.  The comparator is that of [sortByDate] in ascending
    direction. *)
Definition prepareChartData (data : ref) (σ : Heap)
    : Result (Scatter * TrendLine) * Heap :=
  let σ1 := write σ data (Processing.sortedByDate h true (read σ data)) in
  let sortedData := read σ1 data in
  let colors := Chart.generateTimeBasedColors sortedData in
  let scatter := {| scatter_x := map bid_date sortedData;
                    scatter_y := map bid_price sortedData;
                    scatter_text := map hoverText sortedData;
                    marker_color := colors |} in
  (trendLine <- Chart.calculateLinearTrendLine sortedData ;;
   Ok (scatter, trendLine),
   σ1).

Definition set_chartData (data : option ref) (c : ChartState) : ChartState :=
  {| chartData := data; selectedPoint := selectedPoint c;
     isInitialized := isInitialized c |}.

Definition set_selectedPoint (point : option nat) (c : ChartState) : ChartState :=
  {| chartData := chartData c; selectedPoint := point;
     isInitialized := isInitialized c |}.

(** What [prepareChartData] gives, as the result of a chart method. *)
Definition plotted (r : Result (Scatter * TrendLine))
    : ChartFailure + Scatter * TrendLine :=
  match r with
  | Ok plotData => inr plotData
  | Throw e => inl (Thrown e)
  end.

(** [initChart(data)] up to the call of [Plotly.newPlot]: the guard, the
    assignment of [this.chartData], the traces.  [None] is a [data] that
    is [null], [undefined] or no array. *)
Definition initChart (data : option ref) (c : ChartState) (σ : Heap)
    : (ChartFailure + Scatter * TrendLine) * ChartState * Heap :=
  match data with
  | None => (inl InvalidChartData, c, σ)
  | Some d =>
      if (length (read σ d) =? 0)%nat then (inl InvalidChartData, c, σ)
      else
        let '(plotData, σ1) := prepareChartData d σ in
        (plotted plotData, set_chartData (Some d) c, σ1)
  end.

(** [updateChart(newData)] up to the call of [Plotly.react]: the guard
    does not look at the length. *)
Definition updateChart (newData : option ref) (c : ChartState) (σ : Heap)
    : (ChartFailure + Scatter * TrendLine) * ChartState * Heap :=
  match newData with
  | None => (inl InvalidChartData, c, σ)
  | Some d =>
      let '(plotData, σ1) := prepareChartData d σ in
      (plotted plotData, set_chartData (Some d) c, σ1)
  end.

(** [highlightPoint(pointIndex)]: the update handed to [Plotly.restyle];
    [None] when [this.chartData] is [null], where reading its length
    throws and the [catch] clause only logs. *)
Definition highlightPoint (pointIndex : nat) (c : ChartState) (σ : Heap)
    : option MarkerUpdate :=
  match chartData c with
  | None => None
  | Some d =>
      let data := read σ d in
      Some {| marker_size :=
                JSArray.mapi (fun _ index =>
                                if (index =? pointIndex)%nat
                                then 14%float else 10%float) data;
              update_color := Chart.generateTimeBasedColors data;
              line_width :=
                JSArray.mapi (fun _ index =>
                                if (index =? pointIndex)%nat
                                then 3%float else 2%float) data;
              line_color :=
                JSArray.mapi (fun _ index =>
                                if (index =? pointIndex)%nat
                                then "rgba(255, 255, 255, 0.8)"
                                else "rgba(255, 255, 255, 0.3)") data |}
  end.

(** [clearSelection()]: the selection is dropped; a chart that has data
    and is initialised is restyled. *)
Definition clearSelection (c : ChartState) (σ : Heap)
    : ChartState * option MarkerUpdate :=
  (set_selectedPoint None c,
   match chartData c with
   | None => None
   | Some d =>
       if isInitialized c
       then
         let data := read σ d in
         Some {| marker_size := map (fun _ => 10%float) data;
                 update_color := Chart.generateTimeBasedColors data;
                 line_width := map (fun _ => 2%float) data;
                 line_color := map (fun _ => "rgba(255, 255, 255, 0.3)") data |}
       else None
   end).

(** [handlePointClick(eventData)]; [points] holds the [pointIndex] of each
    entry of [eventData.points].  The result is the new state, the update
    of the markers, and the detail of the [pointSelected] event. *)
Definition handlePointClick (points : list nat) (c : ChartState) (σ : Heap)
    : ChartState * option MarkerUpdate * option (BidRecord * nat) :=
  match points with
  | [] => (c, None, None)
  | pointIndex :: _ =>
      match chartData c with
      | None => (c, None, None)
      | Some d =>
          match read σ d !! pointIndex with
          | None => (c, None, None)
          | Some selectedData =>
              let c1 := set_selectedPoint (Some pointIndex) c in
              (c1, highlightPoint pointIndex c1 σ, Some (selectedData, pointIndex))
          end
      end
  end.

(** [getChartStats()]. *)
Definition getChartStats (c : ChartState) (σ : Heap) : option ChartStats :=
  match chartData c with
  | None => None
  | Some d =>
      let data := read σ d in
      if (length data =? 0)%nat then None
      else
        let prices := map bid_price data in
        let minPrice := Analytics.Math_min prices in
        let maxPrice := Analytics.Math_max prices in
        let avgPrice :=
          PrimFloat.div
            (JSArray.reduce (fun sum price _ => PrimFloat.add sum price)
                            prices 0%float)
            (Number_of_nat (length prices)) in
        Some {| stats_totalRecords := length data;
                stats_minPrice := toFixed3 h minPrice;
                stats_maxPrice := toFixed3 h maxPrice;
                stats_avgPrice := toFixed3 h avgPrice;
                range_start :=
                  match head data with
                  | Some r => bid_date r
                  | None => JUndefined
                  end;
                range_end :=
                  match last data with
                  | Some r => bid_date r
                  | None => JUndefined
                  end |}
  end.

End WithHost.
End ChartData.

(** The main module: [truncateText(text, maxLength)]. *)
Module App.

Definition truncateText (text : string) (maxLength : nat) : string :=
  if (length text <=? maxLength)%nat then text
  else take maxLength text ++ "...".

End App.

(** More example data. *)
Module Samples.
Import DataHandler Processing Loader ExampleHost Examples.
#[local] Set Warnings "-inexact-float".

(** The validated record as an export would hold it, with a field more and
    the fields in another order. *)
Definition exported : list (string * JSValue) :=
  [("id", JNum 1); ("bid_price", JNum 0.5); ("bid_date", JStr "2023-01-01");
   ("power_company", JStr "GX Power"); ("user_name", JStr "Alice")].

(** A chart that shows the array at reference [d]. *)
Definition chart_on (d : nat) : ChartState :=
  {| chartData := Some d; selectedPoint := None; isInitialized := true |}.

(** A complete load of [a.json], then a second call for it. *)
Definition load_twice : list Action :=
  LoaderSpec.load 0 "a.json" true 200 dataset ++ [Call "a.json" true].

(** A handler in its first state, with no array yet. *)
Definition fresh : World := world initial.

(** A raw record as the data files have them: white space around the
    user name, an ideographic space at its end, the price as a text. *)
Definition nanning : JSValue :=
  JObj [("user_name", JStr " 南宁制造　"); ("power_company", JStr "广西电网公司");
        ("bid_date", JStr "2023-06-01"); ("bid_price", JStr "0.4568")].

(** Validated records still to be processed: runs of white space inside
    the names, prices with more than three decimals, the later date
    first. *)
Definition zhang : BidRecord :=
  {| user_name := "张  伟"; power_company := "广西　电网";
     bid_date := JStr "2023-06-01"; bid_date_parsed := Some 1685577600000;
     bid_price := 0.45678; derived := None |}.

Definition bob : BidRecord :=
  {| user_name := "Bob"; power_company := "GX Power";
     bid_date := JStr "2023-01-01"; bid_date_parsed := Some 1672531200000;
     bid_price := 1.0005; derived := None |}.

Definition unprocessed : list (list BidRecord) := [[zhang; bob]].

(** Only the company is asked for. *)
Definition grid_only : Filters :=
  {| startDate := JUndefined; endDate := JUndefined; minPrice := JUndefined;
     maxPrice := JUndefined; userName := JUndefined;
     powerCompany := JStr "电网" |}.

End Samples.

(* ================================================================== *)
(** * Properties *)

(* ------------------------------------------------------------------ *)
(** ** Facts about strings *)

Section StringEquality.

Lemma Str_eqb_eq (a b : string) : Str.eqb a b = true <-> a = b.
Proof.
  revert b. induction a as [|c a IH]; intros [|d b]; simpl;
    try (split; [discriminate|discriminate]); [tauto|].
  rewrite andb_true_iff, N.eqb_eq, IH. split.
  - now intros [-> ->].
  - now intros [= -> ->].
Qed.

Lemma Str_eqb_refl (a : string) : Str.eqb a a = true.
Proof. now apply Str_eqb_eq. Qed.

Lemma Str_eqb_spec (a b : string) : reflect (a = b) (Str.eqb a b).
Proof. apply iff_reflect. symmetry. apply Str_eqb_eq. Qed.

Lemma Str_eqb_neq (a b : string) : Str.eqb a b = false <-> a <> b.
Proof.
  destruct (Str_eqb_spec a b) as [E|E]; split; try tauto; try discriminate.
Qed.

End StringEquality.

(* ------------------------------------------------------------------ *)
(** ** Facts about binary64 comparison and division *)

Module FloatFacts.

Lemma SFcompare_antisym (a b : spec_float) :
  SFcompare b a = option_map CompOpp (SFcompare a b).
Proof.
  destruct a as [sa|sa| |sa ma ea], b as [sb|sb| |sb mb eb]; simpl;
    try reflexivity;
    try (destruct sa; reflexivity);
    try (destruct sb; reflexivity);
    try (destruct sa, sb; reflexivity).
  destruct sa, sb; simpl; try reflexivity;
    rewrite (Z.compare_antisym ea eb);
    destruct (Z.compare ea eb) eqn:E; simpl; try reflexivity;
    change (Pos.compare_cont Eq mb ma) with (Pos.compare mb ma);
    change (Pos.compare_cont Eq ma mb) with (Pos.compare ma mb);
    rewrite (Pos.compare_antisym ma mb);
    destruct (Pos.compare ma mb); reflexivity.
Qed.

Lemma is_nan_Prim2SF (x : float) :
  PrimFloat.is_nan x = false -> Prim2SF x <> S754_nan.
Proof.
  unfold PrimFloat.is_nan. rewrite FloatAxioms.eqb_spec. intros H E.
  rewrite E in H. discriminate.
Qed.

Lemma SFcompare_defined (a b : spec_float) :
  a <> S754_nan -> b <> S754_nan -> exists c, SFcompare a b = Some c.
Proof.
  intros Ha Hb.
  destruct a, b; simpl; try congruence; eauto.
Qed.

(** For two numbers, neither NaN, [x < y] fails exactly when [y <= x]. *)
Lemma ltb_false_leb (x y : float) :
  PrimFloat.is_nan x = false -> PrimFloat.is_nan y = false ->
  negb (PrimFloat.ltb x y) = PrimFloat.leb y x.
Proof.
  intros Hx Hy.
  apply is_nan_Prim2SF in Hx. apply is_nan_Prim2SF in Hy.
  rewrite FloatAxioms.ltb_spec, FloatAxioms.leb_spec. unfold SFltb, SFleb.
  rewrite (SFcompare_antisym (Prim2SF x) (Prim2SF y)).
  destruct (SFcompare_defined _ _ Hx Hy) as [c ->].
  destruct c; reflexivity.
Qed.

Lemma is_finite_not_nan (x : float) :
  PrimFloat.is_finite x = true -> PrimFloat.is_nan x = false.
Proof.
  unfold PrimFloat.is_finite. destruct (PrimFloat.is_nan x); simpl; congruence.
Qed.


(** Digits. *)
Lemma digits2_pos_bounds (m : positive) :
  2 ^ (Zpos (digits2_pos m) - 1) <= Zpos m < 2 ^ Zpos (digits2_pos m).
Proof.
  induction m as [m IH|m IH|]; simpl digits2_pos.
  - rewrite Pos2Z.inj_succ.
    replace (Z.succ (Zpos (digits2_pos m)) - 1) with (Z.succ (Zpos (digits2_pos m) - 1)) by lia.
    rewrite !Z.pow_succ_r by lia. lia.
  - rewrite Pos2Z.inj_succ.
    replace (Z.succ (Zpos (digits2_pos m)) - 1) with (Z.succ (Zpos (digits2_pos m) - 1)) by lia.
    rewrite !Z.pow_succ_r by lia. lia.
  - simpl. lia.
Qed.

Lemma pos_iter_xO_value (m k : positive) :
  Zpos (Pos.iter xO m k) = Zpos m * 2 ^ Zpos k.
Proof.
  induction k using Pos.peano_ind.
  - simpl. lia.
  - rewrite Pos.iter_succ, Pos2Z.inj_succ, Z.pow_succ_r by lia.
    rewrite Pos2Z.inj_xO, IHk. lia.
Qed.

(** Shr_1 on nonnegative mantissas halves. *)
Lemma shr_1_m (mrs : shr_record) :
  0 <= shr_m mrs -> shr_m (shr_1 mrs) = shr_m mrs / 2.
Proof.
  destruct mrs as [m r s]. simpl. intros Hm.
  destruct m as [|p|p]; try lia; [reflexivity|].
  destruct p as [p|p|]; simpl shr_m.
  - rewrite Pos2Z.inj_xI. apply Z.div_unique with 1; lia.
  - rewrite Pos2Z.inj_xO. apply Z.div_unique with 0; lia.
  - reflexivity.
Qed.

Lemma iter_pos_shr_1_m (n : positive) (mrs : shr_record) :
  0 <= shr_m mrs ->
  shr_m (SpecFloat.iter_pos shr_1 n mrs) = shr_m mrs / 2 ^ Zpos n.
Proof.
  revert mrs. induction n as [n IH|n IH|]; intros mrs Hm; simpl SpecFloat.iter_pos.
  - assert (H1 : 0 <= shr_m (shr_1 mrs)) by (rewrite shr_1_m by lia; apply Z.div_pos; lia).
    assert (H2 : 0 <= shr_m (SpecFloat.iter_pos shr_1 n (shr_1 mrs)))
      by (rewrite IH by lia; apply Z.div_pos; lia).
    rewrite IH, IH, shr_1_m by lia.
    rewrite !Z.div_div by lia. f_equal.
    change 2 with (2 ^ 1) at 1.
    rewrite <- !Z.pow_add_r by lia. f_equal. lia.
  - assert (H2 : 0 <= shr_m (SpecFloat.iter_pos shr_1 n mrs))
      by (rewrite IH by lia; apply Z.div_pos; lia).
    rewrite IH, IH by lia.
    rewrite !Z.div_div by lia. f_equal.
    rewrite <- Z.pow_add_r by lia. f_equal. lia.
  - rewrite shr_1_m by lia. reflexivity.
Qed.



(** Shifting by fexp keeps a positive mantissa positive when the exponent is not below emin. *)
Lemma shr_fexp_positive (m : positive) (e : Z) (l : location) :
  -1074 <= e ->
  0 < shr_m (fst (shr_fexp prec emax (Zpos m) e l))
  /\ -1074 <= snd (shr_fexp prec emax (Zpos m) e l).
Proof.
  intros He. unfold shr_fexp, shr. simpl Zdigits2.
  set (d := Zpos (digits2_pos m)).
  destruct (fexp prec emax (d + e) - e) as [|n|n] eqn:En; simpl fst; simpl snd.
  - split; [|exact He]. destruct l as [|[]]; simpl; lia.
  - assert (Hn : Zpos n = d - 53).
    { unfold fexp, emin, prec, emax in En. lia. }
    split; [|lia].
    rewrite iter_pos_shr_1_m by (destruct l as [|[]]; simpl; lia).
    replace (shr_m (shr_record_of_loc (Zpos m) l)) with (Zpos m)
      by (destruct l as [|[]]; reflexivity).
    pose proof (digits2_pos_bounds m) as [Hlo _]. fold d in Hlo.
    apply Z.div_str_pos. split; [apply Z.pow_pos_nonneg; lia|].
    etransitivity; [|exact Hlo]. apply Z.pow_le_mono_r; lia.
  - split; [|exact He]. destruct l as [|[]]; simpl; lia.
Qed.

Lemma round_nearest_even_positive (m : Z) (l : location) :
  0 < m -> 0 < round_nearest_even m l.
Proof.
  intros Hm. destruct l as [|[]]; simpl; try lia.
  destruct (Z.even m); lia.
Qed.

(** Rounding a positive mantissa never gives zero or NaN. *)
Lemma binary_round_aux_sign (s : bool) (m : positive) (e : Z) (l : location) :
  -1074 <= e ->
  (exists m' e', binary_round_aux prec emax s (Zpos m) e l = S754_finite s m' e')
  \/ binary_round_aux prec emax s (Zpos m) e l = S754_infinity s.
Proof.
  intros He. unfold binary_round_aux.
  pose proof (shr_fexp_positive m e l He) as [H1 H1e].
  destruct (shr_fexp prec emax (Zpos m) e l) as [mrs' e'].
  simpl fst in H1; simpl snd in H1e.
  pose proof (round_nearest_even_positive (shr_m mrs') (loc_of_shr_record mrs') H1) as HR.
  destruct (round_nearest_even (shr_m mrs') (loc_of_shr_record mrs')) as [|R|R]; try lia.
  pose proof (shr_fexp_positive R e' loc_Exact H1e) as [H2 _].
  destruct (shr_fexp prec emax (Zpos R) e' loc_Exact) as [mrs'' e''].
  simpl fst in H2.
  destruct (shr_m mrs'') as [|m''|m'']; try lia.
  destruct (e'' <=? emax - prec); [left; eauto|right; reflexivity].
Qed.

Lemma shl_align_value (m : positive) (e ez : Z) :
  ez <= e -> Zpos (fst (shl_align m e ez)) = Zpos m * 2 ^ (e - ez).
Proof.
  intros H. unfold shl_align.
  destruct (ez - e) as [|d|d] eqn:E; simpl fst; try lia.
  - replace (e - ez) with 0 by lia. lia.
  - rewrite pos_iter_xO_value. f_equal. f_equal. lia.
Qed.

Lemma shl_align_exponent (m : positive) (e ez : Z) :
  -1074 <= e -> -1074 <= ez -> -1074 <= snd (shl_align m e ez).
Proof.
  intros H1 H2. unfold shl_align. destruct (ez - e); simpl; lia.
Qed.

Lemma bounded_canonical (m : positive) (e : Z) :
  bounded prec emax m e = true ->
  fexp prec emax (Zpos (digits2_pos m) + e) = e /\ e <= 971.
Proof.
  unfold bounded, canonical_mantissa. intros H.
  apply andb_prop in H as [H1 H2].
  apply Z.eqb_eq in H1. apply Z.leb_le in H2. unfold emax, prec in H2. lia.
Qed.

Lemma bounded_emin (m : positive) (e : Z) :
  bounded prec emax m e = true -> -1074 <= e.
Proof.
  intros H. apply bounded_canonical in H as [H _].
  unfold fexp, emin, prec, emax in H. lia.
Qed.

(** Of two canonical mantissas, the one with the smaller exponent is the smaller number.. *)
Lemma canonical_lt (m1 m2 : positive) (e1 e2 : Z) :
  bounded prec emax m1 e1 = true -> bounded prec emax m2 e2 = true ->
  e1 < e2 -> Zpos m1 < Zpos m2 * 2 ^ (e2 - e1).
Proof.
  intros B1 B2 He.
  apply bounded_canonical in B1 as [C1 _]. apply bounded_canonical in B2 as [C2 _].
  pose proof (digits2_pos_bounds m1) as [_ U1].
  pose proof (digits2_pos_bounds m2) as [L2 _].
  set (d1 := Zpos (digits2_pos m1)) in *. set (d2 := Zpos (digits2_pos m2)) in *.
  assert (Hd : d1 <= d2 - 1 + (e2 - e1)).
  { unfold fexp, emin, prec, emax in C1, C2. lia. }
  assert (2 ^ d1 <= 2 ^ (d2 - 1 + (e2 - e1))) by (apply Z.pow_le_mono_r; lia).
  rewrite Z.pow_add_r in H by (subst d2; lia).
  assert (0 < 2 ^ (e2 - e1)) by (apply Z.pow_pos_nonneg; lia).
  nia.
Qed.


Lemma scaled_value (s : bool) (m : positive) (e ez : Z) :
  ez <= e -> scaled s m e ez = cond_Zopp s (Zpos m * 2 ^ (e - ez)).
Proof. intros H. unfold scaled. now rewrite shl_align_value. Qed.

(** SFcompare of two valid finite numbers compares their values. *)
Lemma SFcompare_finite (s1 s2 : bool) (m1 m2 : positive) (e1 e2 : Z) :
  bounded prec emax m1 e1 = true -> bounded prec emax m2 e2 = true ->
  SFcompare (S754_finite s1 m1 e1) (S754_finite s2 m2 e2)
  = Some (scaled s1 m1 e1 (Z.min e1 e2) ?= scaled s2 m2 e2 (Z.min e1 e2)).
Proof.
  intros B1 B2. rewrite !scaled_value by lia.
  assert (P1 : 0 < Zpos m1 * 2 ^ (e1 - Z.min e1 e2))
    by (apply Z.mul_pos_pos; [lia|apply Z.pow_pos_nonneg; lia]).
  assert (P2 : 0 < Zpos m2 * 2 ^ (e2 - Z.min e1 e2))
    by (apply Z.mul_pos_pos; [lia|apply Z.pow_pos_nonneg; lia]).
  simpl SFcompare. f_equal.
  destruct s1, s2; unfold cond_Zopp.
  - (* both negative *)
    destruct (Z.compare_spec e1 e2) as [E|E|E].
    + subst e2. rewrite Z.min_id, Z.sub_diag, Z.pow_0_r, !Z.mul_1_r.
      change (Pos.compare_cont Eq m1 m2) with (Pos.compare m1 m2).
      rewrite Z.compare_opp. symmetry. apply Pos.compare_antisym.
    + pose proof (canonical_lt m1 m2 e1 e2 B1 B2 E).
      rewrite Z.min_l, Z.sub_diag, Z.pow_0_r, Z.mul_1_r by lia.
      symmetry. apply Z.compare_gt_iff. lia.
    + pose proof (canonical_lt m2 m1 e2 e1 B2 B1 ltac:(lia)).
      rewrite Z.min_r, Z.sub_diag, Z.pow_0_r, Z.mul_1_r by lia.
      symmetry. apply Z.compare_lt_iff. lia.
  - symmetry. apply Z.compare_lt_iff. lia.
  - symmetry. apply Z.compare_gt_iff. lia.
  - destruct (Z.compare_spec e1 e2) as [E|E|E].
    + subst e2. rewrite Z.min_id, Z.sub_diag, Z.pow_0_r, !Z.mul_1_r. reflexivity.
    + pose proof (canonical_lt m1 m2 e1 e2 B1 B2 E).
      rewrite Z.min_l, Z.sub_diag, Z.pow_0_r, Z.mul_1_r by lia.
      symmetry. apply Z.compare_lt_iff. lia.
    + pose proof (canonical_lt m2 m1 e2 e1 B2 B1 ltac:(lia)).
      rewrite Z.min_r, Z.sub_diag, Z.pow_0_r, Z.mul_1_r by lia.
      symmetry. apply Z.compare_gt_iff. lia.
Qed.

(** The sign of a normalised nonzero integer. *)
Lemma binary_normalize_sign (z e : Z) :
  -1074 <= e ->
  SFltb (S754_zero false) (binary_normalize prec emax z e false) = (0 <? z).
Proof.
  intros He. unfold binary_normalize.
  destruct z as [|p|p]; [reflexivity| |].
  - unfold binary_round.
    pose proof (shl_align_exponent p e (fexp prec emax (Zpos (digits2_pos p) + e)) He) as Hs.
    destruct (shl_align p e _) as [mz ez]. simpl snd in Hs.
    assert (Hf : -1074 <= fexp prec emax (Zpos (digits2_pos p) + e))
      by (unfold fexp, emin, prec, emax; lia).
    destruct (binary_round_aux_sign false mz ez loc_Exact (Hs Hf)) as [(m' & e' & ->)| ->];
      reflexivity.
  - unfold binary_round.
    pose proof (shl_align_exponent p e (fexp prec emax (Zpos (digits2_pos p) + e)) He) as Hs.
    destruct (shl_align p e _) as [mz ez]. simpl snd in Hs.
    assert (Hf : -1074 <= fexp prec emax (Zpos (digits2_pos p) + e))
      by (unfold fexp, emin, prec, emax; lia).
    destruct (binary_round_aux_sign true mz ez loc_Exact (Hs Hf)) as [(m' & e' & ->)| ->];
      reflexivity.
Qed.

Lemma SFsub_positive (a b : spec_float) :
  valid_binary a = true -> valid_binary b = true ->
  SFltb (S754_zero false) (SFsub prec emax a b) = SFltb b a.
Proof.
  intros Va Vb.
  destruct a as [sa|sa| |sa ma ea], b as [sb|sb| |sb mb eb];
    try (simpl; reflexivity);
    try (destruct sa; simpl; reflexivity);
    try (destruct sb; simpl; reflexivity);
    try (destruct sa, sb; simpl; reflexivity).
  simpl in Va, Vb.
  unfold SFsub. cbv zeta.
  rewrite binary_normalize_sign
    by (pose proof (bounded_emin _ _ Va); pose proof (bounded_emin _ _ Vb); lia).
  unfold SFltb. rewrite (SFcompare_finite sb sa mb ma eb ea Vb Va).
  fold (scaled sa ma ea (Z.min ea eb)). fold (scaled sb mb eb (Z.min ea eb)).
  rewrite (Z.min_comm eb ea).
  set (A := scaled sa ma ea (Z.min ea eb)). set (B := scaled sb mb eb (Z.min ea eb)).
  destruct (Z.compare_spec B A); destruct (Z.ltb_spec 0 (A - B)); try reflexivity; lia.
Qed.

Lemma sub_positive (a b : float) :
  PrimFloat.ltb 0%float (PrimFloat.sub a b) = PrimFloat.ltb b a.
Proof.
  rewrite !FloatAxioms.ltb_spec, FloatAxioms.sub_spec.
  apply SFsub_positive; apply Prim2SF_valid.
Qed.

(** Exact shifts. *)
Lemma shr_1_exact (m : positive) :
  shr_1 {| shr_m := Zpos (xO m); shr_r := false; shr_s := false |}
  = {| shr_m := Zpos m; shr_r := false; shr_s := false |}.
Proof. reflexivity. Qed.

Lemma iter_pos_swap {A : Type} (f : A -> A) (n : positive) (x : A) :
  SpecFloat.iter_pos f n (f x) = f (SpecFloat.iter_pos f n x).
Proof.
  revert x. induction n as [n IH|n IH|]; intros x; simpl; [|now rewrite !IH|reflexivity].
  now rewrite !IH.
Qed.

Lemma iter_pos_succ {A : Type} (f : A -> A) (n : positive) (x : A) :
  SpecFloat.iter_pos f (Pos.succ n) x = SpecFloat.iter_pos f n (f x).
Proof.
  revert x. induction n as [n IH|n IH|]; intros x; simpl.
  - rewrite !IH. now rewrite !iter_pos_swap.
  - reflexivity.
  - reflexivity.
Qed.

Lemma iter_pos_shr_exact (k m : positive) :
  SpecFloat.iter_pos shr_1 k {| shr_m := Zpos (Pos.iter xO m k); shr_r := false; shr_s := false |}
  = {| shr_m := Zpos m; shr_r := false; shr_s := false |}.
Proof.
  induction k using Pos.peano_ind.
  - reflexivity.
  - rewrite iter_pos_succ, Pos.iter_succ, shr_1_exact. exact IHk.
Qed.

Lemma digits2_pos_unique (m : positive) (d : Z) :
  2 ^ (d - 1) <= Zpos m < 2 ^ d -> Zpos (digits2_pos m) = d.
Proof.
  intros [L U]. pose proof (digits2_pos_bounds m) as [L' U'].
  set (d' := Zpos (digits2_pos m)) in *.
  assert (0 < d).
  { destruct (Z.lt_ge_cases 0 d); [assumption|].
    assert (2 ^ d <= 2 ^ 0) by (apply Z.pow_le_mono_r; lia). simpl in *. lia. }
  destruct (Z.lt_trichotomy d d') as [H'|[H'|H']]; [|lia|].
  - assert (2 ^ d <= 2 ^ (d' - 1)) by (apply Z.pow_le_mono_r; lia). lia.
  - assert (2 ^ d' <= 2 ^ (d - 1)) by (apply Z.pow_le_mono_r; subst d'; lia). lia.
Qed.

Lemma digits2_pos_shift (p m : positive) (k : Z) :
  0 <= k -> Zpos p = Zpos m * 2 ^ k ->
  Zpos (digits2_pos p) = Zpos (digits2_pos m) + k.
Proof.
  intros Hk E. apply digits2_pos_unique. rewrite E.
  pose proof (digits2_pos_bounds m) as [L U].
  set (d := Zpos (digits2_pos m)) in *.
  replace (d + k - 1) with (d - 1 + k) by lia.
  rewrite !Z.pow_add_r by (subst d; lia).
  assert (0 < 2 ^ k) by (apply Z.pow_pos_nonneg; lia). nia.
Qed.

Lemma fexp_canonical (e : Z) : -1074 <= e -> fexp prec emax (53 + e) = e.
Proof. unfold fexp, emin, prec, emax. lia. Qed.

Lemma binary_round_aux_canonical (s : bool) (m : positive) (e : Z) :
  Zpos (digits2_pos m) = 53 -> -1074 <= e <= 971 ->
  binary_round_aux prec emax s (Zpos m) e loc_Exact = S754_finite s m e.
Proof.
  intros Hd He.
  unfold binary_round_aux, shr_fexp. simpl Zdigits2. rewrite Hd.
  rewrite fexp_canonical by lia. rewrite Z.sub_diag. simpl.
  rewrite Hd, fexp_canonical by lia. rewrite Z.sub_diag. simpl.
  replace (e <=? emax - prec) with true; [reflexivity|].
  symmetry. apply Z.leb_le. unfold emax, prec. lia.
Qed.

(* Rounding a number that a normal mantissa [m] with exponent [e] represents
   gives exactly that representation. *)
Lemma binary_round_exact (s : bool) (p m : positive) (e0 e : Z) :
  Zpos (digits2_pos m) = 53 -> -1074 <= e <= 971 ->
  (e0 <= e /\ Zpos p = Zpos m * 2 ^ (e - e0))
  \/ (e <= e0 /\ Zpos m = Zpos p * 2 ^ (e0 - e)) ->
  binary_round prec emax s p e0 = S754_finite s m e.
Proof.
  intros Hd He [[Hle E]|[Hle E]]; unfold binary_round.
  - pose proof (digits2_pos_shift p m (e - e0) ltac:(lia) E) as Hp.
    rewrite Hp, Hd.
    replace (53 + (e - e0) + e0) with (53 + e) by lia.
    rewrite fexp_canonical by lia.
    unfold shl_align.
    destruct (e - e0) as [|k|k] eqn:Ek; try lia.
    + assert (p = m) as -> by lia. replace e0 with e by lia.
      now apply binary_round_aux_canonical.
    + unfold binary_round_aux, shr_fexp. simpl Zdigits2. rewrite Hp, Hd.
      replace (53 + Zpos k + e0) with (53 + e) by lia.
      rewrite fexp_canonical by lia. rewrite Ek.
      unfold shr. cbv iota. simpl shr_record_of_loc.
      assert (p = Pos.iter xO m k) as ->.
      { apply Pos2Z.inj. rewrite pos_iter_xO_value. exact E. }
      rewrite iter_pos_shr_exact. simpl shr_m. simpl loc_of_shr_record.
      simpl round_nearest_even. simpl Zdigits2. rewrite Hd.
      replace (e0 + Zpos k) with e by lia.
      rewrite fexp_canonical by lia. rewrite Z.sub_diag. simpl.
      replace (e <=? emax - prec) with true; [reflexivity|].
      symmetry. apply Z.leb_le. unfold emax, prec. lia.
  - assert (Hp : Zpos (digits2_pos p) + e0 = 53 + e).
    { pose proof (digits2_pos_shift m p (e0 - e) ltac:(lia) E). lia. }
    rewrite Hp, fexp_canonical by lia.
    unfold shl_align.
    destruct (e - e0) as [|k|k] eqn:Ek; try lia.
    + replace (e0 - e) with 0 in E by lia.
      assert (p = m) as -> by lia. replace e0 with e by lia.
      now apply binary_round_aux_canonical.
    + assert (Pos.iter xO p k = m) as ->.
      { apply Pos2Z.inj. rewrite pos_iter_xO_value, E. f_equal. f_equal. lia. }
      now apply binary_round_aux_canonical.
Qed.


Lemma pow2_split (x y : Z) : 0 <= x -> 0 <= y -> 2 ^ x * 2 ^ y = 2 ^ (x + y).
Proof. intros. now rewrite Z.pow_add_r. Qed.

Lemma Number_of_Z_repr (z : Z) :
  0 < z < 2 ^ 53 ->
  exists m e, Prim2SF (Number_of_Z z) = S754_finite false m e
              /\ Zpos (digits2_pos m) = 53 /\ -52 <= e <= 0
              /\ Zpos m = z * 2 ^ (- e).
Proof.
  intros Hz. unfold Number_of_Z. rewrite FloatAxioms.of_uint63_spec.
  assert (Uint63.to_Z (Uint63.of_Z z) = z) as ->.
  { rewrite Uint63.of_Z_spec. apply Z.mod_small.
    change Uint63.wB with (2 ^ 63).
    assert (2 ^ 53 < 2 ^ 63) by (apply Z.pow_lt_mono_r; lia). lia. }
  destruct z as [|p|p]; try lia. unfold binary_normalize.
  pose proof (digits2_pos_bounds p) as [L U].
  set (d := Zpos (digits2_pos p)) in *.
  assert (Hd : 1 <= d <= 53).
  { split; [subst d; lia|].
    destruct (Z.le_gt_cases d 53); [assumption|].
    assert (2 ^ 53 <= 2 ^ (d - 1)) by (apply Z.pow_le_mono_r; lia). lia. }
  assert (Hpos : 0 < Zpos p * 2 ^ (53 - d))
    by (apply Z.mul_pos_pos; [lia|apply Z.pow_pos_nonneg; lia]).
  destruct (Zpos p * 2 ^ (53 - d)) as [|m|m] eqn:Em; try lia.
  assert (Dm : Zpos (digits2_pos m) = 53).
  { rewrite (digits2_pos_shift m p (53 - d)) by lia. fold d. lia. }
  exists m, (d - 53). split; [|split; [exact Dm|split; [lia|]]].
  - apply binary_round_exact; [exact Dm|lia|]. right. split; [lia|].
    rewrite <- Em. f_equal. f_equal. lia.
  - rewrite <- Em. f_equal. f_equal. lia.
Qed.

Lemma Number_of_Z_0 : Prim2SF (Number_of_Z 0) = S754_zero false.
Proof. reflexivity. Qed.

(** Subtraction of two integers below 2^53 is exact.. *)
Lemma Number_of_Z_sub (a b : Z) :
  0 <= b <= a -> a < 2 ^ 53 ->
  PrimFloat.sub (Number_of_Z a) (Number_of_Z b) = Number_of_Z (a - b).
Proof.
  intros Hab Ha. apply Prim2SF_inj. rewrite FloatAxioms.sub_spec.
  destruct (Z.eq_dec b 0) as [->|Hb].
  - rewrite Z.sub_0_r, Number_of_Z_0.
    destruct (Z.eq_dec a 0) as [->|Ha0]; [reflexivity|].
    destruct (Number_of_Z_repr a ltac:(lia)) as (m & e & -> & _). reflexivity.
  - destruct (Number_of_Z_repr a ltac:(lia)) as (ma & ea & -> & Da & Ea & Va).
    destruct (Number_of_Z_repr b ltac:(lia)) as (mb & eb & -> & Db & Eb & Vb).
    unfold SF64sub, SFsub. cbv zeta. unfold cond_Zopp.
    set (ez := Z.min ea eb).
    rewrite !shl_align_value by (subst ez; lia).
    assert (A : Zpos ma * 2 ^ (ea - ez) = a * 2 ^ (- ez)).
    { rewrite Va, <- Z.mul_assoc, pow2_split by (subst ez; lia).
      f_equal. f_equal. lia. }
    assert (B : Zpos mb * 2 ^ (eb - ez) = b * 2 ^ (- ez)).
    { rewrite Vb, <- Z.mul_assoc, pow2_split by (subst ez; lia).
      f_equal. f_equal. lia. }
    rewrite A, B, <- Z.mul_sub_distr_r.
    destruct (Z.eq_dec a b) as [->|Hne].
    + rewrite !Z.sub_diag. reflexivity.
    + destruct (Number_of_Z_repr (a - b) ltac:(lia)) as (m & e & -> & Dm & Em & Vm).
      assert (Hpos : 0 < (a - b) * 2 ^ (- ez))
        by (apply Z.mul_pos_pos; [lia|apply Z.pow_pos_nonneg; subst ez; lia]).
      destruct ((a - b) * 2 ^ (- ez)) as [|p|p] eqn:Ep; try lia.
      unfold binary_normalize.
      apply binary_round_exact; [exact Dm|lia|].
      destruct (Z.le_gt_cases ez e) as [Hle|Hgt].
      * left. split; [exact Hle|].
        rewrite Vm, <- Z.mul_assoc, pow2_split by (subst ez; lia).
        rewrite <- Ep. f_equal. f_equal. lia.
      * right. split; [lia|].
        rewrite <- Ep, <- Z.mul_assoc, pow2_split by (subst ez; lia).
        rewrite Vm. f_equal. f_equal. lia.
Qed.

Lemma div_eucl_shiftl (m : positive) :
  Z.div_eucl (Z.shiftl (Zpos m) 53) (Zpos m) = (2 ^ 53, 0).
Proof.
  rewrite Z.shiftl_mul_pow2 by lia.
  pose proof (Z.div_eucl_eq (Zpos m * 2 ^ 53) (Zpos m)) as E.
  assert (Hq : (Zpos m * 2 ^ 53) / Zpos m = 2 ^ 53).
  { rewrite Z.mul_comm. apply Z.div_mul. lia. }
  assert (Hr : (Zpos m * 2 ^ 53) mod Zpos m = 0).
  { rewrite Z.mul_comm. apply Z.mod_mul. lia. }
  unfold Z.div, Z.modulo in Hq, Hr.
  destruct (Z.div_eucl (Zpos m * 2 ^ 53) (Zpos m)) as [q r].
  simpl in Hq, Hr. subst. reflexivity.
Qed.

Lemma SFdiv_self (s : bool) (m : positive) (e : Z) :
  SFdiv prec emax (S754_finite s m e) (S754_finite s m e) = Prim2SF 1%float.
Proof.
  unfold SFdiv, SFdiv_core_binary.
  replace (Zdigits2 (Zpos m) + e - (Zdigits2 (Zpos m) + e)) with 0 by lia.
  rewrite Z.sub_diag.
  change (Z.min (fexp prec emax 0) 0) with (-53).
  change (0 - -53) with 53.
  cbv beta iota zeta.
  rewrite div_eucl_shiftl.
  assert (new_location (Zpos m) 0 = loc_Exact) as ->.
  { unfold new_location, new_location_even, new_location_odd.
    destruct (Z.even (Zpos m)); reflexivity. }
  destruct s; vm_compute; reflexivity.
Qed.

Lemma div_self (x : float) (s : bool) (m : positive) (e : Z) :
  Prim2SF x = S754_finite s m e -> PrimFloat.div x x = 1%float.
Proof.
  intros H. apply Prim2SF_inj.
  rewrite FloatAxioms.div_spec, H. apply SFdiv_self.
Qed.

Lemma of_nat_finite (z : Z) :
  0 < z < 2 ^ 53 ->
  exists m e, Prim2SF (Number_of_Z z) = S754_finite false m e.
Proof.
  intros Hz. destruct (Number_of_Z_repr z Hz) as (m & e & H & _). eauto.
Qed.

Lemma round_nearest_even_bounds (m : Z) (l : location) :
  m <= round_nearest_even m l <= m + 1.
Proof.
  destruct l as [|[]]; simpl; try lia. destruct (Z.even m); lia.
Qed.

Lemma shr_m_of_loc (m : Z) (l : location) : shr_m (shr_record_of_loc m l) = m.
Proof. destruct l as [|[]]; reflexivity. Qed.

(** Rounding a mantissa of [53 + k] digits: the result is the mantissa cut
    to 53 digits, or its successor. *)
Lemma binary_round_aux_bounds (q : positive) (e k : Z) (l : location) :
  Zpos (digits2_pos q) = 53 + k -> 0 <= k -> -1074 <= e -> e + k + 1 <= 971 ->
  exists M E,
    binary_round_aux prec emax false (Zpos q) e l = S754_finite false M E
    /\ ((E = e + k /\ Zpos q / 2 ^ k <= Zpos M <= Zpos q / 2 ^ k + 1)
        \/ (E = e + k + 1 /\ Zpos M = 2 ^ 52 /\ Zpos q / 2 ^ k = 2 ^ 53 - 1)).
Proof.
  intros Hd Hk He Hmax.
  pose proof (digits2_pos_bounds q) as [Lq Uq]. rewrite Hd in Lq, Uq.
  assert (Hcut : 2 ^ 52 <= Zpos q / 2 ^ k < 2 ^ 53).
  { assert (0 < 2 ^ k) by (apply Z.pow_pos_nonneg; lia).
    replace (53 + k - 1) with (52 + k) in Lq by lia.
    rewrite Z.pow_add_r in Lq, Uq by lia.
    split.
    - apply Z.div_le_lower_bound; lia.
    - apply Z.div_lt_upper_bound; lia. }
  unfold binary_round_aux, shr_fexp. simpl Zdigits2. rewrite Hd.
  assert (Hf : fexp prec emax (53 + k + e) - e = k)
    by (unfold fexp, emin, prec, emax; lia).
  rewrite Hf.
  assert (Hm' : shr_m (fst (shr (shr_record_of_loc (Zpos q) l) e k)) = Zpos q / 2 ^ k
                /\ snd (shr (shr_record_of_loc (Zpos q) l) e k) = e + k).
  { unfold shr. destruct k as [|kp|kp]; try lia; simpl fst; simpl snd.
    - rewrite shr_m_of_loc, Z.pow_0_r, Z.div_1_r. split; [reflexivity|lia].
    - rewrite iter_pos_shr_1_m by (rewrite shr_m_of_loc; lia).
      rewrite shr_m_of_loc. split; reflexivity. }
  destruct (shr (shr_record_of_loc (Zpos q) l) e k) as [mrs' e1].
  simpl fst in Hm'; simpl snd in Hm'. destruct Hm' as [Hm' ->].
  pose proof (round_nearest_even_bounds (shr_m mrs') (loc_of_shr_record mrs')) as HR.
  destruct (round_nearest_even (shr_m mrs') (loc_of_shr_record mrs'))
    as [|rd|rd]; rewrite Hm' in HR; try lia.
  simpl Zdigits2.
  destruct (Z.eq_dec (Zpos rd) (2 ^ 53)) as [Htop|Hnot].
  - (* the successor overflows to 54 digits *)
    assert (rd = 9007199254740992%positive) as -> by lia.
    change (Zpos (digits2_pos 9007199254740992)) with 54.
    assert (Hf2 : fexp prec emax (54 + (e + k)) - (e + k) = 1)
      by (unfold fexp, emin, prec, emax; lia).
    rewrite Hf2.
    cbv beta iota zeta delta [shr shr_record_of_loc SpecFloat.iter_pos shr_1 shr_m].
    replace (e + k + 1 <=? emax - prec) with true
      by (symmetry; apply Z.leb_le; unfold emax, prec; lia).
    eexists _, _. split; [reflexivity|]. right.
    split; [reflexivity|]. split; [reflexivity|]. lia.
  - assert (HdR : Zpos (digits2_pos rd) = 53).
    { apply digits2_pos_unique. simpl. lia. }
    rewrite HdR.
    assert (Hf2 : fexp prec emax (53 + (e + k)) - (e + k) = 0)
      by (unfold fexp, emin, prec, emax; lia).
    rewrite Hf2.
    cbv beta iota zeta delta [shr shr_record_of_loc SpecFloat.iter_pos shr_1 shr_m].
    replace (e + k <=? emax - prec) with true
      by (symmetry; apply Z.leb_le; unfold emax, prec; lia).
    eexists _, _. split; [reflexivity|]. left. split; [reflexivity|]. lia.
Qed.

Lemma div_eucl_div_mod (a b : Z) : Z.div_eucl a b = (a / b, a mod b).
Proof. unfold Z.div, Z.modulo. now destruct (Z.div_eucl a b). Qed.

(** The division core on two normal mantissas. *)
Lemma SFdiv_core_normal (m1 m2 : positive) (e1 e2 : Z) :
  Zpos (digits2_pos m1) = 53 -> Zpos (digits2_pos m2) = 53 ->
  -1000 <= e1 - e2 ->
  SFdiv_core_binary prec emax (Zpos m1) e1 (Zpos m2) e2
  = (Zpos m1 * 2 ^ 53 / Zpos m2, e1 - e2 - 53,
     new_location (Zpos m2) ((Zpos m1 * 2 ^ 53) mod Zpos m2)).
Proof.
  intros D1 D2 He. unfold SFdiv_core_binary. simpl Zdigits2. rewrite D1, D2.
  assert (Hmin : Z.min (fexp prec emax (53 + e1 - (53 + e2))) (e1 - e2) = e1 - e2 - 53)
    by (unfold fexp, emin, prec, emax; lia).
  rewrite Hmin.
  replace (e1 - e2 - (e1 - e2 - 53)) with 53 by lia.
  cbv beta iota zeta.
  rewrite Z.shiftl_mul_pow2 by lia.
  now rewrite div_eucl_div_mod.
Qed.

Lemma pow2_pos (x : Z) : 0 <= x -> 0 < 2 ^ x.
Proof. intros. apply Z.pow_pos_nonneg; lia. Qed.

(** The quotient of two integers [0 < e <= n < 2^53], as binary64 computes
    it: a mantissa [M] at the exponent [-53 - (d - j)], where [m] is the
    integer quotient of [e * 2^(d + 53)] by [n], with 53 digits, and [j]
    says whether rounding [m] up carried into a further digit. *)
Lemma div_repr (e n : Z) :
  0 < e -> e <= n -> n < 2 ^ 53 ->
  exists (M : positive) (d j m : Z),
    Prim2SF (PrimFloat.div (Number_of_Z e) (Number_of_Z n))
      = S754_finite false M (- 53 - (d - j))
    /\ -1 <= d <= 52 /\ (j = 0 \/ j = 1)
    /\ m * n <= e * 2 ^ (d + 53) < (m + 1) * n
    /\ 2 ^ 52 <= m < 2 ^ 53
    /\ m <= Zpos M * 2 ^ j <= m + 1
    /\ (j = 1 -> Zpos M = 2 ^ 52).
Proof.
  intros He Hen Hn.
  destruct (Number_of_Z_repr e ltac:(lia)) as (me & ee & Re & De & Ee & Ve).
  destruct (Number_of_Z_repr n ltac:(lia)) as (mn & en & Rn & Dn & En & Vn).
  pose proof (digits2_pos_bounds me) as [Lme Ume]. rewrite De in Lme, Ume.
  pose proof (digits2_pos_bounds mn) as [Lmn Umn]. rewrite Dn in Lmn, Umn.
  simpl in Lme, Ume, Lmn, Umn.
  (* the exponent of [e] is not above that of [n] *)
  assert (Hc : ee <= en).
  { destruct (Z.le_gt_cases ee en) as [|Hgt]; [assumption|exfalso].
    assert (Hp : 2 ^ (- en) = 2 ^ (- ee) * 2 ^ (ee - en))
      by (rewrite <- Z.pow_add_r by lia; f_equal; lia).
    assert (2 <= 2 ^ (ee - en)).
    { change 2 with (2 ^ 1) at 1. apply Z.pow_le_mono_r; lia. }
    pose proof (pow2_pos (- ee) ltac:(lia)).
    rewrite Hp in Vn. nia. }
  set (c := en - ee).
  rewrite FloatAxioms.div_spec, Re, Rn. unfold SF64div, SFdiv.
  rewrite (SFdiv_core_normal me mn ee en De Dn ltac:(lia)).
  set (q := Zpos me * 2 ^ 53 / Zpos mn).
  (* the integer quotient *)
  assert (Hq : Zpos mn * q <= Zpos me * 2 ^ 53 < Zpos mn * (q + 1)).
  { subst q. split.
    - apply Z.mul_div_le. lia.
    - rewrite Z.mul_add_distr_l, Z.mul_1_r.
      pose proof (Z.mod_pos_bound (Zpos me * 2 ^ 53) (Zpos mn) ltac:(lia)).
      pose proof (Z.div_mod (Zpos me * 2 ^ 53) (Zpos mn) ltac:(lia)). lia. }
  assert (Hqr : 2 ^ 52 <= q < 2 ^ 54).
  { simpl. split.
    - destruct (Z.le_gt_cases 4503599627370496 q); [assumption|]. simpl in Hq. nia.
    - destruct (Z.le_gt_cases 18014398509481984 q); [|assumption]. simpl in Hq. nia. }
  destruct q as [|qp|qp] eqn:Eq; try (simpl in Hqr; lia).
  (* the quotient in terms of [e] and [n] *)
  assert (Hen' : Zpos qp * n <= e * 2 ^ (c + 53) < (Zpos qp + 1) * n).
  { assert (Hp : 2 ^ (- ee) = 2 ^ (- en) * 2 ^ c)
      by (rewrite <- Z.pow_add_r by (subst c; lia); f_equal; subst c; lia).
    rewrite Z.pow_add_r by (subst c; lia).
    pose proof (pow2_pos (- en) ltac:(lia)) as Pn.
    pose proof (pow2_pos c ltac:(subst c; lia)) as Pc.
    rewrite Ve, Vn, Hp in Hq. simpl in Hq |- *.
    split.
    - apply (Z.mul_le_mono_pos_l _ _ (2 ^ (- en))); [exact Pn|]. nia.
    - apply (Z.mul_lt_mono_pos_l (2 ^ (- en))); [exact Pn|]. nia. }
  (* its number of digits, and its 53 leading digits *)
  assert (Hk : exists k m, (k = 0 \/ k = 1) /\ Zpos (digits2_pos qp) = 53 + k
                 /\ m = Zpos qp / 2 ^ k /\ 2 ^ 52 <= m < 2 ^ 53
                 /\ m * n <= e * 2 ^ (c - k + 53) < (m + 1) * n).
  { destruct (Z.lt_ge_cases (Zpos qp) (2 ^ 53)) as [Hlt|Hge].
    - exists 0, (Zpos qp). split; [now left|].
      split; [apply digits2_pos_unique; simpl in *; lia|].
      split; [now rewrite Z.pow_0_r, Z.div_1_r|]. split; [simpl in *; lia|].
      now rewrite Z.sub_0_r.
    - exists 1, (Zpos qp / 2). split; [now right|].
      split; [apply digits2_pos_unique; simpl in *; lia|].
      split; [reflexivity|].
      pose proof (Z.div_mod (Zpos qp) 2 ltac:(lia)) as Hdm.
      pose proof (Z.mod_pos_bound (Zpos qp) 2 ltac:(lia)) as Hmb.
      split; [simpl in *; lia|].
      assert (Hp : 2 ^ (c + 53) = 2 * 2 ^ (c - 1 + 53)).
      { change 2 with (2 ^ 1) at 2. rewrite <- Z.pow_add_r by (subst c; lia).
        f_equal. lia. }
      rewrite Hp in Hen'.
      set (m := Zpos qp / 2) in *. set (X := 2 ^ (c - 1 + 53)) in *.
      assert (0 <= (Zpos qp - 2 * m) * n) by (apply Z.mul_nonneg_nonneg; lia).
      assert (0 <= (2 * m + 1 - Zpos qp) * n) by (apply Z.mul_nonneg_nonneg; lia).
      lia. }
  destruct Hk as (k & m & Hk01 & Dq & Em & Bm & Hm).
  destruct (binary_round_aux_bounds qp (ee - en - 53) k
              (new_location (Zpos mn) ((Zpos me * 2 ^ 53) mod Zpos mn))
              Dq ltac:(lia) ltac:(lia) ltac:(lia))
    as (M & E & HR & HE).
  simpl xorb. rewrite HR. rewrite <- Em in HE.
  destruct HE as [(-> & HM)|(-> & HM & Htop)].
  - exists M, (c - k), 0, m.
    split; [f_equal; subst c; lia|].
    split; [subst c; lia|]. split; [now left|].
    split; [exact Hm|]. split; [exact Bm|].
    split; [rewrite Z.pow_0_r, Z.mul_1_r; exact HM|]. intros; discriminate.
  - exists M, (c - k), 1, m.
    split; [f_equal; subst c; lia|].
    split; [subst c; lia|]. split; [now right|].
    split; [exact Hm|]. split; [exact Bm|].
    split; [rewrite HM, Htop; simpl; lia|]. intros _. exact HM.
Qed.

Lemma bounded_lt (M : positive) (E : Z) :
  bounded prec emax M E = true -> Zpos M < 2 ^ 53.
Proof.
  intros B. pose proof (bounded_emin M E B) as Hmin.
  apply bounded_canonical in B as [C _].
  pose proof (digits2_pos_bounds M) as [_ U].
  assert (Zpos (digits2_pos M) <= 53) by (unfold fexp, emin, prec, emax in C; lia).
  assert (2 ^ Zpos (digits2_pos M) <= 2 ^ 53) by (apply Z.pow_le_mono_r; lia). lia.
Qed.

End FloatFacts.

(* ------------------------------------------------------------------ *)
(** ** Record validation *)

Section RecordValidation.
Import DataHandler.
Variable h : Host.

(** The price branch of the loop, for a present field whose value parses
    to a finite number. *)
Lemma validateField_bid_price (record : JSValue) (acc : BidRecord) (x : float) :
  has_property "bid_price" record = true ->
  parseFloat h (get_property "bid_price" record) = x ->
  Num.isFinite x = true ->
  validateField h record "bid_price" acc =
    if PrimFloat.leb lit_0_1 x && PrimFloat.leb x lit_2_0
    then Ok (set_bid_price x acc)
    else Throw (PriceOutOfRange x).
Proof.
  intros Hin Hparse Hfin.
  pose proof (FloatFacts.is_finite_not_nan x Hfin) as Hnan.
  unfold validateField. rewrite Hin. simpl negb. cbv iota.
  change (dataTypes "bid_price") with (Some TNumber). cbv iota zeta.
  rewrite Hparse. unfold Num.isNaN. rewrite Hnan, Hfin. simpl.
  rewrite <- (FloatFacts.ltb_false_leb x lit_0_1 Hnan eq_refl).
  rewrite <- (FloatFacts.ltb_false_leb lit_2_0 x eq_refl Hnan).
  unfold store_number. simpl.
  destruct (PrimFloat.ltb x lit_0_1), (PrimFloat.ltb lit_2_0 x); reflexivity.
Qed.

(** C1.  For a record whose first three fields pass and whose [bid_price]
    parses to a finite number [x], [validateRecord] accepts the record,
    with [x] as its price, exactly when [0.1 <= x <= 2.0]; otherwise it
    throws the out-of-range error for the price. *)
Theorem validateRecord_price_range
    (record : JSValue) (index : nat) (acc : BidRecord) (x : float) :
  truthy_value record = true ->
  typeof_object record = true ->
  validateFields h record ["user_name"; "power_company"; "bid_date"] empty_record
    = Ok acc ->
  has_property "bid_price" record = true ->
  parseFloat h (get_property "bid_price" record) = x ->
  Num.isFinite x = true ->
  validateRecord h record index =
    (if PrimFloat.leb lit_0_1 x && PrimFloat.leb x lit_2_0
     then Ok (set_bid_price x acc)
     else Throw (PriceOutOfRange x))
  /\ (is_ok (validateRecord h record index) = true
      <-> PrimFloat.leb lit_0_1 x = true /\ PrimFloat.leb x lit_2_0 = true).
Proof.
  intros Ht Ho Hpre Hin Hparse Hfin.
  assert (E : validateRecord h record index =
              if PrimFloat.leb lit_0_1 x && PrimFloat.leb x lit_2_0
              then Ok (set_bid_price x acc)
              else Throw (PriceOutOfRange x)).
  { unfold validateRecord. rewrite Ht, Ho. simpl orb. cbv iota.
    unfold requiredFields.
    change (validateFields h record
              ["user_name"; "power_company"; "bid_date"; "bid_price"] empty_record)
      with (r1 <- validateField h record "user_name" empty_record ;;
            r2 <- validateField h record "power_company" r1 ;;
            r3 <- validateField h record "bid_date" r2 ;;
            r4 <- validateField h record "bid_price" r3 ;; Ok r4).
    change (validateFields h record
              ["user_name"; "power_company"; "bid_date"] empty_record)
      with (r1 <- validateField h record "user_name" empty_record ;;
            r2 <- validateField h record "power_company" r1 ;;
            r3 <- validateField h record "bid_date" r2 ;; Ok r3) in Hpre.
    destruct (validateField h record "user_name" empty_record) as [r1|];
      simpl in *; [|discriminate].
    destruct (validateField h record "power_company" r1) as [r2|];
      simpl in *; [|discriminate].
    destruct (validateField h record "bid_date" r2) as [r3|];
      simpl in *; [|discriminate].
    injection Hpre as ->.
    rewrite (validateField_bid_price record acc x Hin Hparse Hfin).
    destruct (PrimFloat.leb lit_0_1 x && PrimFloat.leb x lit_2_0); reflexivity. }
  split; [exact E|].
  rewrite E.
  destruct (PrimFloat.leb lit_0_1 x), (PrimFloat.leb x lit_2_0); simpl;
    split; intros; try tauto; try discriminate; destruct H; discriminate.
Qed.

(** C10.  A raw element that is [null] or not of type object is rejected
    with the invalid-record error, which none of the per-field checks
    throws: the test comes before the loop over the fields. *)
Theorem validateRecord_not_object (record : JSValue) (index : nat) :
  record = JNull \/ typeof_object record = false ->
  validateRecord h record index = Throw InvalidRecord.
Proof.
  intros [-> | Hno]; [reflexivity|].
  unfold validateRecord. rewrite Hno. rewrite orb_true_r. reflexivity.
Qed.

End RecordValidation.

Section RecordValidationExamples.
Import DataHandler ExampleHost Examples.
#[local] Set Warnings "-inexact-float".

(** The per-field checks never throw the invalid-record error. *)
Lemma validateFields_not_InvalidRecord (h : Host) (record : JSValue)
    (fields : list string) (acc : BidRecord) :
  validateFields h record fields acc <> Throw InvalidRecord.
Proof.
  revert acc. induction fields as [|f fs IH]; intros acc; simpl; [discriminate|].
  destruct (validateField h record f acc) as [r|e] eqn:E; simpl; [apply IH|].
  intros [= ->]. unfold validateField in E.
  destruct (has_property f record); simpl in E; [|discriminate].
  destruct (dataTypes f) as [[| |]|]; try discriminate.
  - destruct (get_property f record); try discriminate.
    destruct (Str.eqb (Str.trim s) ""); discriminate.
  - destruct (Date_new h (get_property f record)); [|discriminate].
    match type of E with (if ?c then _ else _) = _ => destruct c end;
      discriminate.
  - match type of E with (if ?c then _ else _) = _ => destruct c end;
      [discriminate|].
    match type of E with (if ?c then _ else _) = _ => destruct c end;
      discriminate.
Qed.

Example price_0_1_accepted :
  is_ok (validateRecord host (sample 0.1) 0) = true.
Proof. vm_compute. reflexivity. Qed.

Example price_2_0_accepted :
  is_ok (validateRecord host (sample 2.0) 0) = true.
Proof. vm_compute. reflexivity. Qed.

Example price_0_0999_rejected :
  validateRecord host (sample 0.0999) 0 = Throw (PriceOutOfRange 0.0999).
Proof. vm_compute. reflexivity. Qed.

Example price_2_001_rejected :
  validateRecord host (sample 2.001) 0 = Throw (PriceOutOfRange 2.001).
Proof. vm_compute. reflexivity. Qed.

Example min_date_is_2020 :
  Date_new host (JStr "2020-01-01") = Some 1577836800000.
Proof. vm_compute. reflexivity. Qed.

Lemma validateRecord_price_range_witness :
  validateRecord host (sample 0.1) 0 =
    Ok {| user_name := "Alice"; power_company := "GX Power";
          bid_date := JStr "2023-01-01"; bid_date_parsed := Some 1672531200000;
          bid_price := 0.1; derived := None |}
  /\ validateRecord host (sample 2.001) 0 = Throw (PriceOutOfRange 2.001).
Proof.
  split.
  - exact (proj1 (validateRecord_price_range host (sample 0.1) 0
             {| user_name := "Alice"; power_company := "GX Power";
                bid_date := JStr "2023-01-01";
                bid_date_parsed := Some 1672531200000;
                bid_price := 0; derived := None |} 0.1
             eq_refl eq_refl eq_refl eq_refl eq_refl eq_refl)).
  - exact (proj1 (validateRecord_price_range host (sample 2.001) 0
             {| user_name := "Alice"; power_company := "GX Power";
                bid_date := JStr "2023-01-01";
                bid_date_parsed := Some 1672531200000;
                bid_price := 0; derived := None |} 2.001
             eq_refl eq_refl eq_refl eq_refl eq_refl eq_refl)).
Defined.

Lemma validateRecord_not_object_witness :
  validateRecord host (JStr "not a record") 3 = Throw InvalidRecord
  /\ validateRecord host (JNum 42) 0 = Throw InvalidRecord
  /\ validateRecord host (JBool true) 0 = Throw InvalidRecord
  /\ validateRecord host JNull 0 = Throw InvalidRecord.
Proof.
  split; [|split; [|split]].
  - apply validateRecord_not_object. right. reflexivity.
  - apply validateRecord_not_object. right. reflexivity.
  - apply validateRecord_not_object. right. reflexivity.
  - apply validateRecord_not_object. left. reflexivity.
Defined.

End RecordValidationExamples.

(* ------------------------------------------------------------------ *)
(** ** Dataset validation *)

Section DatasetValidation.
Import DataHandler DatasetSpec.
Variable h : Host.

Lemma validateEach_spec (items : list JSValue) (index : nat)
    (vs : list BidRecord) (es : list (nat * Error)) :
  validateEach h items index vs es =
    (vs ++ acceptedRecords h items, es ++ rejectionsFrom h index items).
Proof.
  revert index vs es.
  induction items as [|item rest IH]; intros index vs es; simpl.
  - now rewrite !app_nil_r.
  - change (validateRecord h item 0) with (validateRecord h item index).
    destruct (validateRecord h item index) as [v|e].
    + rewrite IH, <- app_assoc. reflexivity.
    + rewrite IH, <- app_assoc. reflexivity.
Qed.

Lemma accepted_rejected_length (items : list JSValue) (index : nat) :
  (length (acceptedRecords h items) + length (rejectionsFrom h index items)
   = length items)%nat.
Proof.
  revert index. induction items as [|item rest IH]; intros index; simpl.
  - reflexivity.
  - change (validateRecord h item 0) with (validateRecord h item index).
    destruct (validateRecord h item index); simpl; rewrite <- (IH (S index)); lia.
Qed.

End DatasetValidation.

Module Threshold.
Import DataHandler.

Lemma Number_of_nat_finite (n : nat) :
  0 < Z.of_nat n < 2 ^ 32 ->
  exists m e, Prim2SF (Number_of_nat n) = S754_finite false m e.
Proof.
  intros Hn. apply FloatFacts.of_nat_finite.
  assert (2 ^ 32 < 2 ^ 53) by (apply Z.pow_lt_mono_r; lia). lia.
Qed.

(** No rejection: [0 / n] is [0], which is not above [0.2]. *)
Lemma overThreshold_none (n : nat) :
  0 < Z.of_nat n < 2 ^ 32 -> overThreshold 0 n = false.
Proof.
  intros Hn. destruct (Number_of_nat_finite n Hn) as (m & e & Hx).
  unfold overThreshold. rewrite FloatAxioms.ltb_spec, FloatAxioms.div_spec, Hx.
  reflexivity.
Qed.

(** Every record rejected: [n / n] is [1], above [0.2]. *)
Lemma overThreshold_all (n : nat) :
  0 < Z.of_nat n < 2 ^ 32 -> overThreshold n n = true.
Proof.
  intros Hn. destruct (Number_of_nat_finite n Hn) as (m & e & Hx).
  unfold overThreshold. rewrite (FloatFacts.div_self _ _ _ _ Hx).
  reflexivity.
Qed.

(** The arithmetic of the comparison with [0.2], which is
    [7205759403792794 * 2^-55]. *)
Lemma threshold_arith (e n m M d j : Z) :
  0 < e -> e <= n -> n < 2 ^ 32 ->
  -1 <= d <= 52 -> (j = 0 \/ j = 1) ->
  m * n <= e * 2 ^ (d + 53) < (m + 1) * n ->
  2 ^ 52 <= m < 2 ^ 53 ->
  m <= M * 2 ^ j <= m + 1 ->
  (j = 1 -> M = 2 ^ 52) ->
  M < 2 ^ 53 ->
  let E := - 53 - (d - j) in
  (7205759403792794 * 2 ^ (-55 - Z.min (-55) E) <? M * 2 ^ (E - Z.min (-55) E))
  = (n <? 5 * e).
Proof.
  intros He Hen Hn Hd Hj [K1 K2] Hm HM Hj1 HM53 E. subst E.
  change (2 ^ 52) with 4503599627370496 in *.
  change (2 ^ 53) with 9007199254740992 in *.
  change (2 ^ 32) with 4294967296 in *.
  assert (Mlow : 4503599627370496 <= M).
  { destruct Hj as [->| ->]; [rewrite Z.pow_0_r in HM; lia|]. now rewrite Hj1. }
  destruct (Z.ltb_spec n (5 * e)) as [Hover|Hunder].
  - (* more than a fifth *)
    assert (Hd2 : d <= 2).
    { destruct (Z.le_gt_cases d 2) as [|Hgt]; [assumption|exfalso].
      assert (Hp : 2 ^ (d + 53) = 2 ^ (d - 3) * 72057594037927936)
        by (change 72057594037927936 with (2 ^ 56);
            rewrite <- Z.pow_add_r by lia; f_equal; lia).
      pose proof (FloatFacts.pow2_pos (d - 3) ltac:(lia)) as Pp.
      rewrite Hp in K2.
      assert (0 <= (9007199254740992 - (m + 1)) * n)
        by (apply Z.mul_nonneg_nonneg; lia).
      assert (0 <= (2 ^ (d - 3) - 1) * e) by (apply Z.mul_nonneg_nonneg; lia).
      lia. }
    apply Z.ltb_lt.
    destruct (Z.eq_dec (d - j) 2) as [Heq|Hne].
    + (* the same exponent as 0.2 *)
      assert (d = 2 /\ j = 0) as [-> ->] by lia.
      change (Z.min (-55) (- 53 - (2 - 0))) with (-55).
      change (-55 - -55) with 0. change (-53 - (2 - 0) - -55) with 0.
      rewrite Z.pow_0_r, !Z.mul_1_r in *.
      change (2 ^ (2 + 53)) with 36028797018963968 in K2.
      assert (7205759403792795 * n < (m + 1) * n) by lia.
      assert (7205759403792795 < m + 1) by (apply (Z.mul_lt_mono_pos_r n); lia).
      lia.
    + replace (Z.min (-55) (- 53 - (d - j))) with (-55) by lia.
      change (-55 - -55) with 0. rewrite Z.pow_0_r, Z.mul_1_r.
      assert (Hp : 2 <= 2 ^ (- 53 - (d - j) - -55)).
      { change 2 with (2 ^ 1) at 1. apply Z.pow_le_mono_r; lia. }
      assert (0 <= (2 ^ (- 53 - (d - j) - -55) - 2) * M)
        by (apply Z.mul_nonneg_nonneg; lia).
      lia.
  - (* at most a fifth *)
    assert (Hd2 : 2 <= d).
    { destruct (Z.le_gt_cases 2 d) as [|Hlt]; [assumption|exfalso].
      assert (Hp : 2 ^ (d + 53) <= 18014398509481984)
        by (change 18014398509481984 with (2 ^ 54); apply Z.pow_le_mono_r; lia).
      assert (e * 2 ^ (d + 53) <= e * 18014398509481984)
        by (apply Z.mul_le_mono_nonneg_l; lia).
      assert (0 <= (m - 4503599627370496) * n) by (apply Z.mul_nonneg_nonneg; lia).
      lia. }
    apply Z.ltb_ge.
    destruct (Z.lt_trichotomy (d - j) 2) as [Hlt|[Heq|Hgt]].
    + (* rounding carried although the quotient is at most a fifth *)
      exfalso. assert (d = 2 /\ j = 1) as [-> ->] by lia.
      specialize (Hj1 eq_refl). subst M.
      change (2 ^ (2 + 53)) with 36028797018963968 in K1.
      change (2 ^ 1) with 2 in HM.
      assert (m = 9007199254740991) as -> by lia.
      lia.
    + replace (- 53 - (d - j)) with (-55) by lia.
      change (Z.min (-55) (-55)) with (-55). change (-55 - -55) with 0.
      rewrite Z.pow_0_r, !Z.mul_1_r.
      destruct Hj as [->| ->].
      * assert (d = 2) as -> by lia.
        change (2 ^ (2 + 53)) with 36028797018963968 in K1.
        rewrite Z.pow_0_r, Z.mul_1_r in HM.
        assert (5 * m * n <= 36028797018963968 * n) by lia.
        assert (5 * m <= 36028797018963968)
          by (apply (Z.mul_le_mono_pos_r _ _ n); lia).
        lia.
      * rewrite (Hj1 eq_refl). lia.
    + replace (Z.min (-55) (- 53 - (d - j))) with (- 53 - (d - j)) by lia.
      rewrite Z.sub_diag, Z.pow_0_r, Z.mul_1_r.
      assert (Hp : 2 <= 2 ^ (-55 - (- 53 - (d - j)))).
      { change 2 with (2 ^ 1) at 1. apply Z.pow_le_mono_r; lia. }
      lia.
Qed.

(** The quality gate compares exactly: on every array a JavaScript engine
    can hold, [rejected / total > 0.2] in binary64 holds exactly when the
    rejected fraction is above one fifth. *)
Lemma overThreshold_iff (rejected total : nat) :
  (0 < total)%nat -> (rejected <= total)%nat -> Z.of_nat total < 2 ^ 32 ->
  overThreshold rejected total = DatasetSpec.aboveOneFifth rejected total.
Proof.
  intros Ht Hle Hlen. unfold DatasetSpec.aboveOneFifth.
  destruct rejected as [|r].
  - rewrite overThreshold_none by lia.
    symmetry. apply Nat.ltb_ge. lia.
  - set (e := S r) in *.
    assert (H53 : 2 ^ 32 < 2 ^ 53) by (apply Z.pow_lt_mono_r; lia).
    destruct (FloatFacts.div_repr (Z.of_nat e) (Z.of_nat total)
                ltac:(subst e; lia) ltac:(lia) ltac:(lia))
      as (M & d & j & m & HR & Hd & Hj & Hm & Bm & HM & Hj1).
    pose proof (Prim2SF_valid
                  (PrimFloat.div (Number_of_Z (Z.of_nat e))
                                 (Number_of_Z (Z.of_nat total)))) as HV.
    rewrite HR in HV. simpl in HV.
    unfold overThreshold, Number_of_nat.
    rewrite FloatAxioms.ltb_spec, HR.
    change (Prim2SF lit_0_2) with (S754_finite false 7205759403792794 (-55)).
    unfold SFltb.
    rewrite (FloatFacts.SFcompare_finite false false 7205759403792794 M (-55)
               (- 53 - (d - j)) eq_refl HV).
    rewrite !FloatFacts.scaled_value by lia. unfold cond_Zopp.
    pose proof (threshold_arith (Z.of_nat e) (Z.of_nat total) m (Zpos M) d j
                  ltac:(subst e; lia) ltac:(lia) Hlen Hd Hj Hm Bm HM Hj1
                  (FloatFacts.bounded_lt M _ HV)) as Harith.
    cbv zeta in Harith. unfold Z.ltb at 1 in Harith. rewrite Harith.
    destruct (Z.ltb_spec (Z.of_nat total) (5 * Z.of_nat e));
      destruct (Nat.ltb_spec total (5 * e)); try reflexivity; lia.
Qed.

End Threshold.

Section QualityGate.
Import DataHandler DatasetSpec.
Variable h : Host.

(** C2.  For a resolved, non-empty input sequence, [rejected] of whose
    [total] records the record validator rejects: the dataset fails with
    the data-quality error exactly when the rejected fraction is strictly
    above 0.2, which is what the test [rejected / total > 0.2] of the
    source decides in binary64; otherwise the accepted records are
    returned, in input order, and the rejections (if there are any) are
    reported in one warning. *)
Theorem validateDataStructure_quality_gate
    (jsonData : JSValue) (dataArray : list JSValue) :
  resolveArray jsonData = Ok dataArray ->
  dataArray <> [] ->
  Z.of_nat (length dataArray) < 2 ^ 32 ->
  let accepted := acceptedRecords h dataArray in
  let errors := rejectionsFrom h 0 dataArray in
  let rejected := length errors in
  let total := length dataArray in
  (length accepted + rejected = total)%nat
  /\ overThreshold rejected total = aboveOneFifth rejected total
  /\ validateDataStructure h jsonData =
       if aboveOneFifth rejected total
       then (Throw (DataQuality rejected total), [ValidationWarning errors])
       else (Ok accepted,
             if (0 <? rejected)%nat then [ValidationWarning errors] else []).
Proof.
  intros Hres Hne Hlen accepted errors rejected total.
  pose proof (accepted_rejected_length h dataArray 0) as Hsum.
  fold accepted errors rejected total in Hsum.
  split; [exact Hsum|].
  assert (Htot : (0 < total)%nat).
  { subst total. destruct dataArray; [congruence|]. simpl. lia. }
  assert (Hgate : overThreshold rejected total = aboveOneFifth rejected total)
    by (apply Threshold.overThreshold_iff; [exact Htot|lia|exact Hlen]).
  split; [exact Hgate|].
  unfold validateDataStructure. rewrite Hres.
  destruct (Nat.eqb_spec (length dataArray) 0) as [E0|_];
    [fold total in E0; lia|].
  rewrite validateEach_spec. simpl app.
  fold accepted errors total. unfold qualityGate. fold rejected.
  rewrite Hgate.
  destruct (Nat.ltb_spec 0 rejected) as [Hpos|Hzero]; cbn [andb].
  - destruct (aboveOneFifth rejected total) eqn:Hover; [reflexivity|].
    unfold aboveOneFifth in Hover. apply Nat.ltb_ge in Hover.
    destruct (Nat.eqb_spec (length accepted) 0) as [Hnone|_];
      [lia|reflexivity].
  - assert (Hunder : aboveOneFifth rejected total = false)
      by (unfold aboveOneFifth; apply Nat.ltb_ge; lia).
    rewrite Hunder.
    destruct (Nat.eqb_spec (length accepted) 0) as [Hnone|_];
      [lia|reflexivity].
Qed.

End QualityGate.

Section QualityGateExamples.
Import DataHandler DatasetSpec ExampleHost Examples.
#[local] Set Warnings "-inexact-float".

Example three_of_ten_fails :
  fst (validateDataStructure host (JArr ten_with_three_malformed))
    = Throw (DataQuality 3 10).
Proof. vm_compute. reflexivity. Qed.

Example two_of_ten_succeeds :
  exists records,
    validateDataStructure host (JArr ten_with_two_malformed)
      = (Ok records,
         [ValidationWarning [(2%nat, MissingField "bid_price");
                             (8%nat, MissingField "bid_price")]])
    /\ length records = 8%nat.
Proof. eexists. split; vm_compute; reflexivity. Qed.

(** The same two datasets inside the [{data: [...]}] envelope. *)
Example envelope_is_resolved :
  fst (validateDataStructure host (JObj [("data", JArr ten_with_three_malformed)]))
    = Throw (DataQuality 3 10).
Proof. vm_compute. reflexivity. Qed.

Lemma validateDataStructure_quality_gate_witness :
  (fst (validateDataStructure host (JArr ten_with_two_malformed))
     = Ok (acceptedRecords host ten_with_two_malformed)
   /\ length (acceptedRecords host ten_with_two_malformed) = 8%nat)
  /\ fst (validateDataStructure host (JArr ten_with_three_malformed))
     = Throw (DataQuality 3 10).
Proof.
  split.
  - destruct (validateDataStructure_quality_gate host
                (JArr ten_with_two_malformed) ten_with_two_malformed
                eq_refl ltac:(discriminate) eq_refl) as (_ & _ & E).
    rewrite E. split; vm_compute; reflexivity.
  - destruct (validateDataStructure_quality_gate host
                (JArr ten_with_three_malformed) ten_with_three_malformed
                eq_refl ltac:(discriminate) eq_refl) as (_ & _ & E).
    rewrite E. vm_compute. reflexivity.
Defined.

End QualityGateExamples.

(* ------------------------------------------------------------------ *)
(** ** The processing pipeline and the caller's array *)

Section StoreFacts.

Lemma read_alloc_old (σ : Heap) (arr : list BidRecord) (r : ref) :
  (r < length σ)%nat -> read (snd (alloc σ arr)) r = read σ r.
Proof.
  intros Hr. unfold read, alloc. cbn [fst snd].
  now rewrite lookup_app_l by exact Hr.
Qed.

Lemma read_alloc_new (σ : Heap) (arr : list BidRecord) :
  read (snd (alloc σ arr)) (fst (alloc σ arr)) = arr.
Proof.
  unfold read, alloc. cbn [fst snd].
  rewrite lookup_app_r by lia. now rewrite Nat.sub_diag.
Qed.

Lemma read_write_same (σ : Heap) (r : ref) (arr : list BidRecord) :
  (r < length σ)%nat -> read (write σ r arr) r = arr.
Proof.
  intros Hr. unfold read, write. now rewrite list_lookup_insert_eq.
Qed.

Lemma read_write_other (σ : Heap) (r r' : ref) (arr : list BidRecord) :
  r <> r' -> read (write σ r arr) r' = read σ r'.
Proof.
  intros Hne. unfold read, write. now rewrite list_lookup_insert_ne.
Qed.

Lemma length_write (σ : Heap) (r : ref) (arr : list BidRecord) :
  length (write σ r arr) = length σ.
Proof. unfold write. apply length_insert. Qed.

End StoreFacts.

Section Pipeline.
Import Processing.
Variable h : Host.

(** [cleanData] and [enrichData] build a new array and leave every array
    of the store as it was. *)
Lemma cleanData_fresh (data : ref) (σ : Heap) :
  fst (cleanData data σ) = length σ
  /\ forall r, (r < length σ)%nat -> read (snd (cleanData data σ)) r = read σ r.
Proof.
  split; [reflexivity|]. intros r Hr. apply read_alloc_old, Hr.
Qed.

Lemma enrichData_fresh (data : ref) (σ : Heap) :
  fst (enrichData h data σ) = length σ
  /\ forall r, (r < length σ)%nat -> read (snd (enrichData h data σ)) r = read σ r.
Proof.
  split; [reflexivity|]. intros r Hr. apply read_alloc_old, Hr.
Qed.

(** [sortByDate] returns the reference it was given, whose array is now
    sorted; the other arrays are as they were. *)
Lemma sortByDate_in_place (data : ref) (ascending : bool) (σ : Heap) :
  (data < length σ)%nat ->
  fst (sortByDate h data ascending σ) = data
  /\ read (snd (sortByDate h data ascending σ)) data
     = sortedByDate h ascending (read σ data)
  /\ forall r, r <> data ->
       read (snd (sortByDate h data ascending σ)) r = read σ r.
Proof.
  intros Hd. unfold sortByDate. simpl. repeat split.
  - apply read_write_same, Hd.
  - intros r Hr. apply read_write_other. congruence.
Qed.

(** What [processData] does to the store: the result is a new array, the
    caller's array is left sorted by date, every other array is as it
    was. *)
Lemma processData_effect (data : ref) (σ : Heap) :
  (data < length σ)%nat ->
  fst (processData h data σ) <> data
  /\ read (snd (processData h data σ)) data = sortedByDate h true (read σ data)
  /\ forall r, (r < length σ)%nat -> r <> data ->
       read (snd (processData h data σ)) r = read σ r.
Proof.
  intros Hd. unfold processData, sortByDate, cleanData, enrichData, alloc.
  simpl. rewrite !length_app, length_write. simpl.
  split; [lia|]. split.
  - unfold read at 1. rewrite !lookup_app_l
      by (rewrite ?length_app, length_write; simpl; lia).
    apply read_write_same, Hd.
  - intros r Hr Hne. unfold read at 1. rewrite !lookup_app_l
      by (rewrite ?length_app, length_write; simpl; lia).
    apply read_write_other. congruence.
Qed.

(** [getLatestRecords] sorts a copy: every array of the store is as it
    was. *)
Lemma getLatestRecords_preserves (count : nat) (data processedData : option ref)
    (σ : Heap) (r : ref) :
  (r < length σ)%nat ->
  read (snd (getLatestRecords h count data processedData σ)) r = read σ r.
Proof.
  intros Hr. unfold getLatestRecords.
  destruct (match data with Some d => Some d | None => processedData end)
    as [src|]; [|apply read_alloc_old, Hr].
  destruct (length (read σ src) =? 0)%nat; [apply read_alloc_old, Hr|].
  destruct (alloc σ (read σ src)) as [copy σ1] eqn:E1.
  destruct (sortByDate h copy false σ1) as [sortedData σ2] eqn:E2.
  unfold alloc in E1. injection E1 as <- <-.
  unfold sortByDate in E2. injection E2 as <- <-.
  rewrite read_alloc_old by (rewrite length_write, length_app; simpl; lia).
  rewrite read_write_other by lia.
  unfold read. now rewrite lookup_app_l by exact Hr.
Qed.

End Pipeline.

Section SortFacts.
Context {A : Type}.
Variable positive : A -> A -> bool.

Lemma insert_perm (x : A) (l : list A) :
  Permutation (JSArray.insert positive x l) (x :: l).
Proof.
  induction l as [|y rest IH]; simpl; [reflexivity|].
  destruct (positive x y); [|reflexivity].
  rewrite IH. apply perm_swap.
Qed.

(** The sorted array holds the elements of the original. *)
Lemma sort_perm (l : list A) : Permutation (JSArray.sort positive l) l.
Proof.
  induction l as [|x rest IH]; simpl; [reflexivity|].
  rewrite insert_perm. now constructor.
Qed.

Lemma sort_length (l : list A) : length (JSArray.sort positive l) = length l.
Proof. apply Permutation_length, sort_perm. Qed.

Hypothesis asym : forall a b, positive a b = true -> positive b a = false.

Lemma insert_sorted (x : A) (l : list A) :
  LocallySorted (JSArray.in_order positive) l ->
  LocallySorted (JSArray.in_order positive) (JSArray.insert positive x l).
Proof.
  induction 1 as [|y|y z rest Hs IH Hyz]; simpl.
  - constructor.
  - destruct (positive x y) eqn:E; repeat constructor; auto.
    now apply asym.
  - destruct (positive x y) eqn:E.
    + simpl in IH. destruct (positive x z) eqn:E'.
      * constructor; assumption.
      * constructor; [assumption|]. now apply asym.
    + constructor; [|exact E]. constructor; assumption.
Qed.

Lemma sort_sorted (l : list A) :
  LocallySorted (JSArray.in_order positive) (JSArray.sort positive l).
Proof.
  induction l as [|x rest IH]; simpl; [constructor|]. now apply insert_sorted.
Qed.

(** An array already in order is left as it is. *)
Lemma sort_id (l : list A) :
  LocallySorted (JSArray.in_order positive) l -> JSArray.sort positive l = l.
Proof.
  induction 1 as [|y|y z rest Hs IH Hyz]; simpl; try reflexivity.
  simpl in IH. rewrite IH. simpl. now rewrite Hyz.
Qed.

End SortFacts.

Section DateOrder.
Import Processing.
Variable h : Host.

Lemma ascending_in_order (a b : BidRecord) :
  JSArray.in_order (fun a b => is_positive (compareByDate h true a b)) a b
  <-> not_after h a b.
Proof.
  unfold JSArray.in_order, not_after, compareByDate, date_diff, is_positive.
  destruct (Date_new h (bid_date a)), (Date_new h (bid_date b)); try tauto.
  rewrite Z.ltb_ge. lia.
Qed.

(** [sortedByDate] is a rearrangement of its argument in ascending date
    order. *)
Lemma sortedByDate_sorted (l : list BidRecord) :
  Permutation (sortedByDate h true l) l
  /\ LocallySorted (not_after h) (sortedByDate h true l).
Proof.
  split; [apply sort_perm|].
  assert (S : LocallySorted
                (JSArray.in_order (fun a b => is_positive (compareByDate h true a b)))
                (sortedByDate h true l)).
  { apply sort_sorted. intros a b.
    unfold compareByDate, date_diff, is_positive.
    destruct (Date_new h (bid_date a)), (Date_new h (bid_date b));
      try discriminate.
    rewrite Z.ltb_lt, Z.ltb_ge. lia. }
  induction S; constructor; auto. now apply ascending_in_order.
Qed.

End DateOrder.

Section PipelineExample.
Import Processing ExampleHost Examples.
#[local] Set Warnings "-inexact-float".

(** C4.  [processData] on the caller's array [[june; january]]: the result
    is a new array, but the caller's own array has been reordered to
    [[january; june]], because [sortByDate] sorts its argument in
    place. *)
Theorem processData_reorders_caller_array :
  read caller_store 0 = [june; january]
  /\ fst (processData host 0 caller_store) = 2%nat
  /\ read (snd (processData host 0 caller_store)) 0 = [january; june]
  /\ read (snd (processData host 0 caller_store)) 0 <> read caller_store 0.
Proof.
  split; [reflexivity|]. split; [reflexivity|].
  assert (E : read (snd (processData host 0 caller_store)) 0 = [january; june])
    by (vm_compute; reflexivity).
  split; [exact E|]. rewrite E. vm_compute. intros [= Hname _]. 
Qed.

(** The sibling path: [getLatestRecords] on the same store leaves the
    caller's array as it was. *)
Example getLatestRecords_keeps_caller_array :
  read (snd (getLatestRecords host 10 (Some 0%nat) None caller_store)) 0
    = [june; january].
Proof. vm_compute. reflexivity. Qed.

End PipelineExample.

(* ------------------------------------------------------------------ *)
(** ** Filtering *)

Section Filtering.
Import Analytics FilterSpec.
Variable h : Host.

Lemma guard_same_bound (v v' : JSValue) (test : JSValue -> bool) :
  same_bound v v' ->
  truthy_value v && test v = truthy_value v' && test v'.
Proof.
  intros [-> | [E E']]; [reflexivity|]. now rewrite E, E'.
Qed.

Lemma keeps_same_filters (f f' : Filters) (item : BidRecord) :
  same_filters f f' -> keeps h f item = keeps h f' item.
Proof.
  intros (Hs & He & Hmin & Hmax & Hu & Hc). unfold keeps.
  rewrite (guard_same_bound _ _
             (fun v => date_lt (Date_new h (bid_date item)) (Date_new h v)) Hs).
  rewrite (guard_same_bound _ _
             (fun v => date_gt (Date_new h (bid_date item)) (Date_new h v)) He).
  rewrite (guard_same_bound _ _
             (fun v => PrimFloat.ltb (bid_price item) (ToNumber h v)) Hmin).
  rewrite (guard_same_bound _ _
             (fun v => PrimFloat.ltb (ToNumber h v) (bid_price item)) Hmax).
  rewrite (guard_same_bound _ _
             (fun v => negb (Str.includes (ToString h v) (user_name item))) Hu).
  rewrite (guard_same_bound _ _
             (fun v => negb (Str.includes (ToString h v) (power_company item))) Hc).
  reflexivity.
Qed.

Lemma keeps_no_filters (item : BidRecord) : keeps h no_filters item = true.
Proof. reflexivity. Qed.

Lemma filter_all (l : list BidRecord) (p : BidRecord -> bool) :
  (forall x, p x = true) -> List.filter p l = l.
Proof.
  intros Hp. induction l as [|x rest IH]; simpl; [reflexivity|].
  now rewrite Hp, IH.
Qed.

Lemma filterData_same_filters
    (f f' : Filters) (data processedData : option (list BidRecord)) :
  same_filters f f' ->
  filterData h f data processedData = filterData h f' data processedData.
Proof.
  intros Hsame. unfold filterData.
  destruct (sourceOf data processedData) as [src|]; [|reflexivity].
  destruct (length src =? 0)%nat; [reflexivity|].
  induction src as [|x rest IH]; simpl; [reflexivity|].
  now rewrite (keeps_same_filters f f' x Hsame), IH.
Qed.

Lemma filterData_no_filters (data processedData : option (list BidRecord)) :
  filterData h no_filters data processedData
    = default [] (sourceOf data processedData).
Proof.
  unfold filterData.
  destruct (sourceOf data processedData) as [src|]; [|reflexivity].
  destruct src as [|x rest]; [reflexivity|].
  simpl Nat.eqb. cbv iota. apply filter_all, keeps_no_filters.
Qed.

(** C8.  A filter property whose value is falsy counts as not supplied:
    two filter sets that differ only in falsy values select the same
    records, and a filter set all of whose values are falsy (a price
    bound of 0, an empty string, nothing) removes no record. *)
Theorem filterData_falsy_not_supplied
    (f f' : Filters) (data processedData : option (list BidRecord)) :
  same_filters f f' ->
  filterData h f data processedData = filterData h f' data processedData
  /\ (same_filters f no_filters ->
      filterData h f data processedData
        = default [] (sourceOf data processedData)).
Proof.
  intros Hsame. split; [apply filterData_same_filters, Hsame|].
  intros Hnone.
  rewrite (filterData_same_filters f no_filters data processedData Hnone).
  apply filterData_no_filters.
Qed.

(** Price bounds of 0, whatever the prices of the records. *)
Lemma filterData_zero_price_bounds (records : list BidRecord) :
  filterData h
    {| startDate := JUndefined; endDate := JStr ""; minPrice := JNum 0%float;
       maxPrice := JNum 0%float; userName := JStr ""; powerCompany := JUndefined |}
    (Some records) None
  = records.
Proof.
  rewrite (filterData_same_filters _ no_filters).
  - apply filterData_no_filters.
  - unfold same_filters, same_bound; simpl.
    repeat split; (left; reflexivity) || (right; split; reflexivity).
Qed.

End Filtering.

Section FilteringExamples.
Import Analytics FilterSpec ExampleHost Examples.
#[local] Set Warnings "-inexact-float".

(** A bound that is supplied does filter: [minPrice: 0.5] removes the
    record below it and keeps the one at it. *)
Example min_half_filters :
  filterData host min_half (Some [priced 0.4; priced 0.5; priced 0.6]) None
    = [priced 0.5; priced 0.6].
Proof. vm_compute. reflexivity. Qed.

Lemma filterData_falsy_not_supplied_witness :
  filterData host zero_bounds (Some [priced 0.4; priced (-1); priced 5]) None
    = [priced 0.4; priced (-1); priced 5].
Proof.
  assert (S : same_filters zero_bounds no_filters).
  { unfold same_filters, same_bound; simpl.
    repeat split; (left; reflexivity) || (right; split; reflexivity). }
  exact (proj2 (filterData_falsy_not_supplied host zero_bounds no_filters
                  (Some [priced 0.4; priced (-1); priced 5]) None S) S).
Defined.

End FilteringExamples.

(* ------------------------------------------------------------------ *)
(** ** Export *)

Section Exporting.
Import Analytics Exporter.
Variable h : Host.

(** C9.  Whatever the format argument (a supported format, an unsupported
    one, or no string at all), export of a dataset that is [null] or empty
    throws the no-data error: the emptiness test comes before the dispatch
    on the format, and nothing is serialised. *)
Theorem exportData_empty (format : JSValue)
    (data processedData : option (list BidRecord)) :
  sourceOf data processedData = None \/ sourceOf data processedData = Some [] ->
  exportData h format data processedData = Throw NoExportData.
Proof.
  intros [E | E]; unfold exportData; rewrite E; reflexivity.
Qed.

(** On a dataset with records the format decides. *)
Lemma exportData_nonempty (format : string) (r : BidRecord) (rest : list BidRecord) :
  exportData h (JStr format) (Some (r :: rest)) None =
    if Str.eqb (Str.toLowerCase format) "json"
    then Ok (JSON_stringify h (map (entries) (r :: rest)))
    else if Str.eqb (Str.toLowerCase format) "csv"
    then Ok (convertToCSV h (r :: rest))
    else Throw (UnsupportedFormat format).
Proof. reflexivity. Qed.

End Exporting.

Section ExportingExamples.
Import Analytics Exporter ExampleHost Examples.
#[local] Set Warnings "-inexact-float".

Lemma exportData_empty_witness :
  exportData host (JStr "xml") (Some []) None = Throw NoExportData
  /\ exportData host (JStr "xml") None None = Throw NoExportData
  /\ exportData host (JStr "csv") None (Some []) = Throw NoExportData.
Proof.
  split; [|split].
  - apply exportData_empty. right. reflexivity.
  - apply exportData_empty. left. reflexivity.
  - apply exportData_empty. right. reflexivity.
Defined.

Example export_unsupported_format :
  exportData host (JStr "xml") (Some [priced 0.5]) None
    = Throw (UnsupportedFormat "xml").
Proof. vm_compute. reflexivity. Qed.

Example export_csv_header :
  exists body,
    exportData host (JStr "CSV") (Some [priced 0.5]) None
      = Ok ("user_name,power_company,bid_date,bid_date_parsed,bid_price" ++ body).
Proof. eexists. vm_compute. reflexivity. Qed.

End ExportingExamples.

(* ------------------------------------------------------------------ *)
(** ** Trend line *)

Section Reduce.
Context {A B : Type}.

Lemma reduce_from_app (f : B -> A -> nat -> B) (i : nat) (l l' : list A) (acc : B) :
  JSArray.reduce_from f i (l ++ l') acc
  = JSArray.reduce_from f (i + length l) l' (JSArray.reduce_from f i l acc).
Proof.
  revert i acc. induction l as [|a rest IH]; intros i acc; simpl.
  - now rewrite Nat.add_0_r.
  - rewrite IH. f_equal. lia.
Qed.

Lemma map_from_app (g : A -> nat -> B) (i : nat) (l l' : list A) :
  JSArray.map_from g i (l ++ l')
  = JSArray.map_from g i l ++ JSArray.map_from g (i + length l) l'.
Proof.
  revert i. induction l as [|a rest IH]; intros i; simpl.
  - now rewrite Nat.add_0_r.
  - rewrite IH. do 3 f_equal. lia.
Qed.

Lemma map_from_length (g : A -> nat -> B) (i : nat) (l : list A) :
  length (JSArray.map_from g i l) = length l.
Proof.
  revert i. induction l as [|a rest IH]; intros i; simpl; [reflexivity|].
  now rewrite IH.
Qed.

End Reduce.

Section ReduceSigma.
Import TrendSpec.

(** A [reduce] that adds one term per element is the sum of the terms in
    index order. *)
Lemma reduce_Sigma {A : Type} (term : A -> nat -> float) (l : list A)
    (g : nat -> float) :
  (forall i a, l !! i = Some a -> term a i = g i) ->
  JSArray.reduce (fun acc a i => PrimFloat.add acc (term a i)) l 0%float
  = Sigma g (length l).
Proof.
  unfold JSArray.reduce.
  induction l as [|a l IH] using rev_ind; intros Hg; [reflexivity|].
  rewrite reduce_from_app, length_app. simpl.
  replace (length l + 1)%nat with (S (length l)) by lia. simpl.
  rewrite IH.
  - f_equal. apply Hg. rewrite lookup_app_r by lia.
    now rewrite Nat.sub_diag.
  - intros i b Hi. apply Hg. rewrite lookup_app_l; [exact Hi|].
    now apply lookup_lt_Some in Hi.
Qed.

Lemma mapi_index_lookup (data : list BidRecord) (i : nat) (v : float) :
  JSArray.mapi (fun _ index => Number_of_nat index) data !! i = Some v ->
  v = Number_of_nat i /\ (i < length data)%nat.
Proof.
  unfold JSArray.mapi.
  induction data as [|r data IH] using rev_ind; simpl; [discriminate|].
  rewrite map_from_app. simpl. intros H.
  destruct (Nat.lt_ge_cases i (length data)) as [Hlt|Hge].
  - rewrite lookup_app_l in H by now rewrite map_from_length.
    destruct (IH H) as [-> _]. rewrite length_app. simpl. split; [reflexivity|lia].
  - rewrite lookup_app_r in H by now rewrite map_from_length.
    rewrite map_from_length in H.
    destruct (i - length data)%nat as [|k] eqn:E; simpl in H; [|discriminate].
    injection H as <-. rewrite length_app. simpl.
    split; [f_equal|]; lia.
Qed.

Lemma mapi_index_length (data : list BidRecord) :
  length (JSArray.mapi (fun _ index => Number_of_nat index) data) = length data.
Proof. apply map_from_length. Qed.

Lemma y_at_prices (data : list BidRecord) (i : nat) :
  Chart.y_at (map bid_price data) i = y data i.
Proof.
  unfold Chart.y_at, y. revert i.
  induction data as [|r rest IH]; intros [|i]; simpl; try reflexivity. apply IH.
Qed.

(** The four sums of the source are the four sums of the formula. *)
Lemma sums_agree (data : list BidRecord) :
  let xValues := JSArray.mapi (fun _ index => Number_of_nat index) data in
  let yValues := map bid_price data in
  JSArray.reduce (fun a b _ => PrimFloat.add a b) xValues 0%float = Sx data
  /\ JSArray.reduce (fun a b _ => PrimFloat.add a b) yValues 0%float = Sy data
  /\ JSArray.reduce
       (fun sum x i => PrimFloat.add sum (PrimFloat.mul x (Chart.y_at yValues i)))
       xValues 0%float = Sxy data
  /\ JSArray.reduce (fun sum x _ => PrimFloat.add sum (PrimFloat.mul x x))
       xValues 0%float = Sxx data.
Proof.
  intros xValues yValues. unfold Sx, Sy, Sxy, Sxx, n.
  assert (Lx : length data = length xValues)
    by (symmetry; apply mapi_index_length).
  assert (Ly : length data = length yValues)
    by (symmetry; apply length_map).
  split; [|split; [|split]].
  - rewrite Lx. apply (reduce_Sigma (fun b _ => b)). intros i v Hv.
    now destruct (mapi_index_lookup data i v Hv) as [-> _].
  - rewrite Ly. apply (reduce_Sigma (fun b _ => b)). intros i v Hv. unfold y.
    subst yValues. rewrite list_lookup_fmap in Hv.
    destruct (data !! i); simpl in Hv; congruence.
  - rewrite Lx.
    apply (reduce_Sigma (fun v i => PrimFloat.mul v (Chart.y_at yValues i))).
    intros i v Hv. destruct (mapi_index_lookup data i v Hv) as [-> _].
    subst yValues. now rewrite y_at_prices.
  - rewrite Lx. apply (reduce_Sigma (fun v _ => PrimFloat.mul v v)).
    intros i v Hv. now destruct (mapi_index_lookup data i v Hv) as [-> _].
Qed.

(** The trend line of a dataset with at least one record. *)
Lemma calculateLinearTrendLine_nonempty (data : list BidRecord)
    (first final : BidRecord) :
  head data = Some first -> last data = Some final ->
  Chart.calculateLinearTrendLine data =
    Ok {| trend_x := [bid_date first; bid_date final];
          trend_y := [predict data 0%float;
                      predict data
                        (PrimFloat.sub (Number_of_nat (length data)) 1%float)] |}.
Proof.
  intros Hfirst Hlast. unfold Chart.calculateLinearTrendLine.
  destruct (sums_agree data) as (-> & -> & -> & ->).
  rewrite Hfirst, Hlast. reflexivity.
Qed.

End ReduceSigma.

(* ------------------------------------------------------------------ *)
(** ** Loading *)

Section Loading.
Import DataHandler Loader.
Variable h : Host.

Lemma finally_resets (w : World) : isLoading (this (finally w)) = false.
Proof. reflexivity. Qed.

Lemma fail_resets (e : Error) (w : World) :
  isLoading (this (snd (fail e w))) = false.
Proof. reflexivity. Qed.

Lemma loadData_start_exit (dataUrl : string) (useCache : bool) (w : World) :
  settled (fst (loadData_start dataUrl useCache w)) ->
  isLoading (this (snd (loadData_start dataUrl useCache w))) = false.
Proof.
  unfold loadData_start.
  destruct (if useCache then dataCache (this w) !! dataUrl else None);
    [reflexivity|].
  destruct (isLoading (this w)); [reflexivity|]. simpl. tauto.
Qed.

Lemma loadData_fetched_exit (response : FetchResult) (w : World) :
  settled (fst (loadData_fetched response w)) ->
  isLoading (this (snd (loadData_fetched response w))) = false.
Proof.
  unfold loadData_fetched. destruct response as [|ok status]; [reflexivity|].
  destruct ok; simpl; [tauto|reflexivity].
Qed.

Lemma loadData_decoded_exit (dataUrl : string) (useCache : bool)
    (body : option JSValue) (w : World) :
  settled (fst (loadData_decoded h dataUrl useCache body w))
  /\ isLoading (this (snd (loadData_decoded h dataUrl useCache body w))) = false.
Proof.
  unfold loadData_decoded. destruct body as [jsonData|]; [|split; [exact I|reflexivity]].
  destruct (validateDataStructure h jsonData) as [[records|e] warnings];
    [|split; [exact I|reflexivity]].
  destruct (alloc _ records) as [validatedData σ1].
  destruct (Processing.processData h validatedData σ1) as [processed σ2].
  split; [exact I|reflexivity].
Qed.

(** A call that is rejected is not kept among the suspended calls. *)
Lemma rejected_call_not_queued (dataUrl : string) (useCache : bool) (s : System)
    (e : Error) :
  fst (step h (Call dataUrl useCache) s) = Some (Rejected e) ->
  pending (snd (step h (Call dataUrl useCache) s)) = pending s.
Proof.
  unfold step.
  destruct (loadData_start dataUrl useCache (world s)) as [o w].
  simpl. intros [= ->]. reflexivity.
Qed.

(** What the guard and the [finally] block do.  A call made while the
    in-flight flag is set and not answered from the cache is rejected with
    the concurrent-load error, without touching the datasets, the cache or
    the arrays; a call for a cached source returns the cached dataset,
    flag or no flag; and every segment of [loadData] that settles the
    promise, by returning or by throwing, leaves the flag reset, whether
    or not it was this call that set it. *)
Lemma loadData_guard_and_reset
    (dataUrl : string) (useCache : bool) (w : World) :
  (isLoading (this w) = true ->
   (if useCache then dataCache (this w) !! dataUrl else None) = None ->
   fst (loadData_start dataUrl useCache w) = Rejected ConcurrentLoad
   /\ rawData (this (snd (loadData_start dataUrl useCache w))) = rawData (this w)
   /\ processedData (this (snd (loadData_start dataUrl useCache w)))
      = processedData (this w)
   /\ dataCache (this (snd (loadData_start dataUrl useCache w))) = dataCache (this w)
   /\ heap (snd (loadData_start dataUrl useCache w)) = heap w)
  /\ (forall d, useCache = true -> dataCache (this w) !! dataUrl = Some d ->
      fst (loadData_start dataUrl useCache w) = Resolved d)
  /\ (settled (fst (loadData_start dataUrl useCache w)) ->
      isLoading (this (snd (loadData_start dataUrl useCache w))) = false)
  /\ (forall response,
      settled (fst (loadData_fetched response w)) ->
      isLoading (this (snd (loadData_fetched response w))) = false)
  /\ (forall body,
      settled (fst (loadData_decoded h dataUrl useCache body w))
      /\ isLoading (this (snd (loadData_decoded h dataUrl useCache body w))) = false).
Proof.
  split; [|split; [|split; [|split]]].
  - intros Hflag Hmiss. unfold loadData_start. rewrite Hmiss, Hflag.
    repeat split.
  - intros d -> Hhit. unfold loadData_start. now rewrite Hhit.
  - apply loadData_start_exit.
  - intros response. apply loadData_fetched_exit.
  - intros body. apply loadData_decoded_exit.
Qed.

End Loading.

Section LoadingExamples.
Import DataHandler Loader ExampleHost Examples.
#[local] Set Warnings "-inexact-float".

Example b_in_flight_state :
  pending b_in_flight = [{| url := "b.json"; cached := true; decoding := false |}]
  /\ isLoading (this (world b_in_flight)) = true
  /\ dataCache (this (world b_in_flight)) !! "a.json" = Some 2%nat.
Proof. vm_compute. repeat split. Qed.

(** The cache is consulted before the guard: while the load of [b.json]
    is in flight, a further call for the cached [a.json] does not fail
    with the concurrent-load error; it returns the cached dataset. *)
Lemma load_in_flight_served_from_cache :
  pending b_in_flight <> []
  /\ fst (step host (Call "a.json" true) b_in_flight) = Some (Resolved 2)
  /\ fst (step host (Call "a.json" true) b_in_flight)
     <> Some (Rejected ConcurrentLoad).
Proof.
  assert (E : fst (step host (Call "a.json" true) b_in_flight) = Some (Resolved 2))
    by (vm_compute; reflexivity).
  split; [vm_compute; discriminate|]. split; [exact E|].
  rewrite E. discriminate.
Qed.

(** C5.  Three calls of [loadData] on a new handler, before any response
    arrives: the first starts a load and sets the flag; the second is
    rejected with the concurrent-load error, and its [finally] block
    resets the flag of the load that is still in flight; so the third is
    not rejected: it starts a second load next to the first, and two loads
    are in progress on the one instance, which the claim excludes. *)
Theorem rejected_call_unlocks_second_load :
  let calls := [Call "a.json" true; Call "a.json" true; Call "a.json" true] in
  fst (run host calls initial)
    = [Some AwaitingFetch; Some (Rejected ConcurrentLoad); Some AwaitingFetch]
  /\ isLoading (this (world (snd (run host (take 1 calls) initial)))) = true
  /\ pending (snd (run host (take 2 calls) initial))
     = [{| url := "a.json"; cached := true; decoding := false |}]
  /\ isLoading (this (world (snd (run host (take 2 calls) initial)))) = false
  /\ pending (snd (run host calls initial))
     = [{| url := "a.json"; cached := true; decoding := false |};
        {| url := "a.json"; cached := true; decoding := false |}]
  /\ events (world (snd (run host calls initial)))
     = [LoadingStateChanged true; DataError ConcurrentLoad;
        LoadingStateChanged false; LoadingStateChanged true].
Proof. vm_compute. repeat split. Qed.

Lemma loadData_guard_and_reset_witness :
  fst (loadData_start "c.json" true (world b_in_flight)) = Rejected ConcurrentLoad
  /\ fst (loadData_start "a.json" true (world b_in_flight)) = Resolved 2
  /\ isLoading (this (snd (loadData_start "c.json" true (world b_in_flight)))) = false.
Proof.
  destruct (loadData_guard_and_reset host "c.json" true (world b_in_flight))
    as (Hguard & _ & Hexit & _).
  destruct (loadData_guard_and_reset host "a.json" true (world b_in_flight))
    as (_ & Hhit & _).
  destruct (Hguard ltac:(vm_compute; reflexivity) ltac:(vm_compute; reflexivity))
    as (Hrej & _).
  split; [exact Hrej|]. split.
  - apply Hhit; vm_compute; reflexivity.
  - apply Hexit. rewrite Hrej. exact I.
Defined.

End LoadingExamples.

Section TrendLineTheorem.
Import TrendSpec.

Lemma Number_of_nat_pred (k : nat) :
  (1 <= k)%nat -> Z.of_nat k < 2 ^ 53 ->
  PrimFloat.sub (Number_of_nat k) 1%float = Number_of_nat (k - 1).
Proof.
  intros Hk Hlt. unfold Number_of_nat.
  change 1%float with (Number_of_Z 1).
  rewrite FloatFacts.Number_of_Z_sub by lia.
  f_equal. lia.
Qed.

(** C3.  For a dataset of [n >= 2] records, with the 0-based position as
    abscissa and [bid_price] as ordinate, [calculateLinearTrendLine] fits
    slope = (n·Σxy − Σx·Σy) / (n·Σx² − (Σx)²) and
    intercept = (Σy − slope·Σx) / n, and returns exactly two points: the
    fitted values at the positions [0] and [n − 1], paired with the
    [bid_date] of the first and of the last record. *)
Theorem calculateLinearTrendLine_least_squares
    (data : list BidRecord) (first final : BidRecord) :
  (2 <= length data)%nat ->
  Z.of_nat (length data) < 2 ^ 32 ->
  head data = Some first ->
  last data = Some final ->
  Chart.calculateLinearTrendLine data =
    Ok {| trend_x := [bid_date first; bid_date final];
          trend_y := [predict data (x 0); predict data (x (n data - 1))] |}.
Proof.
  intros Hn Hlen Hfirst Hlast.
  rewrite (calculateLinearTrendLine_nonempty data first final Hfirst Hlast).
  unfold x, n. rewrite Number_of_nat_pred; [reflexivity|lia|].
  assert (2 ^ 32 < 2 ^ 53) by (apply Z.pow_lt_mono_r; lia). lia.
Qed.

End TrendLineTheorem.

Section TrendLineExamples.
Import TrendSpec ExampleHost Examples.
#[local] Set Warnings "-inexact-float".

(** Five colinear points: the segment runs from the first point to the
    last. *)
Example trend_of_colinear :
  Chart.calculateLinearTrendLine colinear =
    Ok {| trend_x := [JStr "2023-01-01"; JStr "2023-01-05"];
          trend_y := [1%float; 5%float] |}.
Proof. vm_compute. reflexivity. Qed.

(** A single record: the denominator is [0], both ends are NaN. *)
Example trend_of_single :
  Chart.calculateLinearTrendLine [january] =
    Ok {| trend_x := [JStr "2023-01-01"; JStr "2023-01-01"];
          trend_y := [PrimFloat.nan; PrimFloat.nan] |}.
Proof. vm_compute. reflexivity. Qed.

Example trend_of_none : Chart.calculateLinearTrendLine [] = Throw TypeError.
Proof. reflexivity. Qed.

Lemma calculateLinearTrendLine_least_squares_witness :
  Chart.calculateLinearTrendLine colinear =
    Ok {| trend_x := [JStr "2023-01-01"; JStr "2023-01-05"];
          trend_y := [predict colinear (x 0); predict colinear (x 4)] |}.
Proof.
  exact (calculateLinearTrendLine_least_squares colinear
           (record_of "a" "2023-01-01" 1) (record_of "e" "2023-01-05" 5)
           ltac:(simpl; lia) eq_refl eq_refl eq_refl).
Defined.

End TrendLineExamples.

(* ------------------------------------------------------------------ *)
(** ** Colour ordinals *)

Section Colours.
Import Chart.

Lemma colorsLoop_spec (remaining i dataLength : nat) (colors : list float) :
  colorsLoop remaining i dataLength colors =
    colors ++ map (fun j => PrimFloat.div (Number_of_nat j)
                              (PrimFloat.sub (Number_of_nat dataLength) 1%float))
                  (seq i remaining).
Proof.
  revert i colors. induction remaining as [|k IH]; intros i colors; simpl.
  - now rewrite app_nil_r.
  - rewrite IH, <- app_assoc. reflexivity.
Qed.

(** Position [i] of a dataset of length [L] gets [i / (L - 1)]. *)
Lemma generateTimeBasedColors_formula (sortedData : list BidRecord) :
  (1 <= length sortedData)%nat -> Z.of_nat (length sortedData) < 2 ^ 32 ->
  generateTimeBasedColors sortedData =
    map (fun i => PrimFloat.div (Number_of_nat i)
                    (Number_of_nat (length sortedData - 1)))
        (seq 0 (length sortedData)).
Proof.
  intros H1 H2. unfold generateTimeBasedColors. rewrite colorsLoop_spec. simpl app.
  rewrite Number_of_nat_pred; [reflexivity|exact H1|].
  assert (2 ^ 32 < 2 ^ 53) by (apply Z.pow_lt_mono_r; lia). lia.
Qed.

Lemma zero_div (x : float) (m : positive) (e : Z) :
  Prim2SF x = S754_finite false m e -> PrimFloat.div 0%float x = 0%float.
Proof.
  intros H. apply Prim2SF_inj. rewrite FloatAxioms.div_spec, H. reflexivity.
Qed.

(** With two records or more the ordinals run from [0] to [1]. *)
Lemma generateTimeBasedColors_span (sortedData : list BidRecord) :
  (2 <= length sortedData)%nat -> Z.of_nat (length sortedData) < 2 ^ 32 ->
  head (generateTimeBasedColors sortedData) = Some 0%float
  /\ last (generateTimeBasedColors sortedData) = Some 1%float.
Proof.
  intros H1 H2.
  rewrite generateTimeBasedColors_formula by lia.
  destruct (Threshold.Number_of_nat_finite (length sortedData - 1) ltac:(lia))
    as (m & e & Hx).
  destruct (length sortedData) as [|[|k]] eqn:EL; try lia.
  replace (S (S k) - 1)%nat with (S k) in * by lia.
  split.
  - simpl. f_equal. change (Number_of_nat 0) with 0%float.
    exact (zero_div _ _ _ Hx).
  - rewrite seq_S, map_app, last_app. simpl. f_equal.
    exact (FloatFacts.div_self _ _ _ _ Hx).
Qed.

(** C7.  A dataset of one record: the only ordinal is [0 / (1 - 1)], which
    is NaN, not [0] and not finite. *)
Theorem generateTimeBasedColors_single (r : BidRecord) :
  generateTimeBasedColors [r] = [PrimFloat.nan]
  /\ Num.isFinite PrimFloat.nan = false
  /\ Num.isNaN (PrimFloat.div 0%float (PrimFloat.sub 1%float 1%float)) = true.
Proof. repeat split. Qed.

End Colours.

Section ColoursExamples.
Import Chart ExampleHost Examples.
#[local] Set Warnings "-inexact-float".

Example colours_of_three :
  generateTimeBasedColors [january; january; june] = [0; 0.5; 1]%float.
Proof. vm_compute. reflexivity. Qed.

Example colours_of_none : generateTimeBasedColors [] = [].
Proof. reflexivity. Qed.

End ColoursExamples.

(* ------------------------------------------------------------------ *)
(** ** Summary statistics *)

Section Median.
Import Analytics MedianSpec.

(** The comparator [(a, b) => a - b] is positive exactly when [b < a]. *)
Lemma minus_positive_ltb (a b : float) :
  minus_positive a b = PrimFloat.ltb b a.
Proof. apply FloatFacts.sub_positive. Qed.

Lemma ltb_asym (a b : float) :
  PrimFloat.ltb a b = true -> PrimFloat.ltb b a = false.
Proof.
  rewrite !FloatAxioms.ltb_spec. unfold SFltb.
  rewrite (FloatFacts.SFcompare_antisym (Prim2SF a) (Prim2SF b)).
  destruct (SFcompare (Prim2SF a) (Prim2SF b)) as [[]|]; simpl; congruence.
Qed.

Lemma minus_positive_asym (a b : float) :
  minus_positive a b = true -> minus_positive b a = false.
Proof. rewrite !minus_positive_ltb. apply ltb_asym. Qed.

(** The sorted copy is in ascending order. *)
Lemma sort_prices_ascending (prices : list float) :
  LocallySorted ascending (JSArray.sort minus_positive prices).
Proof.
  pose proof (sort_sorted minus_positive minus_positive_asym prices) as S.
  induction S as [|a|a b rest S IH Hab]; constructor; [exact IH|].
  unfold JSArray.in_order in Hab. rewrite minus_positive_ltb in Hab. exact Hab.
Qed.

(** Among numbers, ascending order is the order [<=]. *)
Lemma ascending_numbers (l : list float) :
  Forall (fun p => Num.isNaN p = false) l ->
  LocallySorted ascending l -> LocallySorted le l.
Proof.
  intros Hnum S.
  induction S as [|a|a b rest S IH Hab]; constructor.
  - apply IH. now inversion Hnum.
  - inversion Hnum as [|? ? Ha Hrest]; subst.
    inversion Hrest as [|? ? Hb _]; subst.
    unfold le. unfold ascending in Hab.
    rewrite <- (FloatFacts.ltb_false_leb b a Hb Ha), Hab. reflexivity.
Qed.

Lemma sort_prices_le (prices : list float) :
  Forall (fun p => Num.isNaN p = false) prices ->
  LocallySorted le (JSArray.sort minus_positive prices).
Proof.
  intros Hnum. apply ascending_numbers; [|apply sort_prices_ascending].
  eapply Permutation_Forall; [|exact Hnum]. symmetry. apply sort_perm.
Qed.

Lemma at_index_nth (l : list float) (j : nat) :
  at_index l (Z.of_nat j) = nth j l PrimFloat.nan.
Proof.
  unfold at_index. destruct (Z.ltb_spec (Z.of_nat j) 0); [lia|].
  now rewrite Nat2Z.id.
Qed.

(** [calculateMedian] takes the centre of the sorted copy. *)
Lemma calculateMedian_centre (numbers : list float) :
  numbers <> [] ->
  calculateMedian numbers = centre (JSArray.sort minus_positive numbers).
Proof.
  intros Hne. unfold calculateMedian, centre.
  set (sorted := JSArray.sort minus_positive numbers).
  assert (Hk : (0 < length sorted)%nat).
  { subst sorted. rewrite sort_length. destruct numbers; [congruence|simpl; lia]. }
  set (k := length sorted) in *.
  assert (Hdiv : Z.of_nat k / 2 = Z.of_nat (k / 2)).
  { now rewrite Nat2Z.inj_div. }
  rewrite Hdiv.
  destruct (Nat.even k) eqn:Ev.
  - apply Nat.even_spec in Ev. destruct Ev as [j Hj].
    assert (Hmod : Z.of_nat k mod 2 = 0).
    { rewrite Hj, Nat2Z.inj_mul, Z.mul_comm. apply Z.mod_mul. lia. }
    rewrite Hmod. simpl Z.eqb. cbv iota.
    assert (Hhalf : (k / 2 = j)%nat).
    { rewrite Hj, Nat.mul_comm. apply Nat.div_mul. lia. }
    rewrite Hhalf.
    replace (Z.of_nat j - 1) with (Z.of_nat (j - 1)) by lia.
    now rewrite !at_index_nth.
  - assert (Hodd : Nat.odd k = true) by (rewrite <- Nat.negb_even, Ev; reflexivity).
    apply Nat.odd_spec in Hodd. destruct Hodd as [j Hj].
    assert (Hmod : Z.of_nat k mod 2 = 1).
    { rewrite Hj, Nat2Z.inj_add, Nat2Z.inj_mul, Z.add_comm, Z.mul_comm.
      rewrite Z.mod_add by lia. reflexivity. }
    rewrite Hmod. simpl Z.eqb. cbv iota.
    now rewrite at_index_nth.
Qed.

End Median.

Section Statistics.
Import Analytics MedianSpec ExampleHost Examples.
#[local] Set Warnings "-inexact-float".

(** C6, as the code has it.  For a non-empty dataset, the median of the
    summary is the centre of the prices sorted in ascending order (the
    central value of an odd count, the average of the two central values of
    an even count), and the mean is their sum, taken from left to right,
    divided by their count.  For the prices [0.40, 0.50, 0.45, 0.60] the
    median is 0.475 and the mean is 0.48750000000000004. *)
Theorem getDataStatistics_median (h : Host) (data : list BidRecord) :
  data <> [] ->
  (exists st,
     getDataStatistics h (Some data) None = Some st
     /\ let prices := map bid_price data in
        let sorted := JSArray.sort minus_positive prices in
        Permutation sorted prices
        /\ LocallySorted ascending sorted
        /\ (all_numbers data -> LocallySorted le sorted)
        /\ median (priceStats st) = centre sorted
        /\ average (priceStats st)
           = PrimFloat.div (sum prices) (Number_of_nat (length prices)))
  /\ option_map (fun st => (median (priceStats st), average (priceStats st)))
       (getDataStatistics h (Some four_prices) None)
     = Some (0.475, 0.48750000000000004)%float.
Proof.
  intros Hne. split; [|reflexivity].
  unfold getDataStatistics, sourceOf.
  destruct data as [|r rest]; [congruence|].
  simpl Nat.eqb. cbv iota. eexists. split; [reflexivity|].
  cbv zeta. simpl priceStats. simpl median. simpl average.
  split; [apply sort_perm|]. split; [apply sort_prices_ascending|]. split.
  - intros Hnum. apply sort_prices_le, List.Forall_map. exact Hnum.
  - split; [|reflexivity]. apply calculateMedian_centre. discriminate.
Qed.

(** C6, as stated, fails on the mean of its example: the sum
    [0 + 0.40 + 0.50 + 0.45 + 0.60] rounds to [1.9500000000000002], and a
    quarter of it is not the number [0.4875]. *)
Lemma mean_of_four_prices_is_not_0_4875 :
  option_map (fun st => average (priceStats st))
    (getDataStatistics host (Some four_prices) None)
  = Some 0.48750000000000004%float
  /\ PrimFloat.eqb 0.48750000000000004 0.4875 = false
  /\ option_map (fun st => average (priceStats st))
       (getDataStatistics host (Some four_prices) None)
     <> Some 0.4875%float.
Proof.
  split; [vm_compute; reflexivity|]. split; [vm_compute; reflexivity|].
  intros E.
  apply (f_equal (fun o => match o with
                           | Some x => PrimFloat.eqb x 0.4875
                           | None => true
                           end)) in E.
  vm_compute in E. discriminate.
Qed.

Lemma getDataStatistics_median_witness :
  option_map (fun st => (median (priceStats st), average (priceStats st)))
    (getDataStatistics host (Some four_prices) None)
  = Some (0.475, 0.48750000000000004)%float
  /\ LocallySorted le (JSArray.sort minus_positive (map bid_price four_prices)).
Proof.
  destruct (getDataStatistics_median host four_prices ltac:(discriminate))
    as [(st & _ & _ & _ & Hsorted & _) Hvalues].
  split; [exact Hvalues|]. apply Hsorted. repeat constructor.
Defined.

Example sorted_four_prices :
  JSArray.sort minus_positive (map bid_price four_prices)
    = [0.40; 0.45; 0.50; 0.60]%float.
Proof. vm_compute. reflexivity. Qed.

Example median_of_three :
  calculateMedian [0.6; 0.4; 0.5]%float = 0.5%float.
Proof. vm_compute. reflexivity. Qed.

End Statistics.

(* ------------------------------------------------------------------ *)
(** * Further properties *)

(** ** Text *)

Section StringFacts.
Import StrSpec.

(** [trimStart] removes the white space at the front and nothing else. *)
Lemma trimStart_no_lead (s : string) : no_lead (Str.trimStart s).
Proof.
  induction s as [|c rest IH]; simpl; [exact I|].
  destruct (Str.is_space c) eqn:E; [exact IH|]. simpl. exact E.
Qed.

Lemma trimStart_fixed (s : string) : no_lead s -> Str.trimStart s = s.
Proof. destruct s as [|c rest]; simpl; [reflexivity|]. now intros ->. Qed.

Lemma trimStart_split (s : string) :
  exists pre, s = pre ++ Str.trimStart s
              /\ Forall (fun c => Str.is_space c = true) pre.
Proof.
  induction s as [|c rest (pre & IH & Hpre)]; simpl.
  - now exists [].
  - destruct (Str.is_space c) eqn:E.
    + exists (c :: pre). split; [simpl; now f_equal|now constructor].
    + now exists [].
Qed.

(** [trimEnd] returns a prefix of its argument; what it drops is white
    space. *)
Lemma trimEnd_split (s : string) :
  exists post, s = Str.trimEnd s ++ post
               /\ Forall (fun c => Str.is_space c = true) post.
Proof.
  unfold Str.trimEnd. destruct (trimStart_split (rev s)) as (pre & E & Hpre).
  exists (rev pre). split.
  - rewrite <- rev_app_distr, <- E. symmetry. apply rev_involutive.
  - now apply List.Forall_rev.
Qed.

Lemma trimEnd_no_lead (s : string) : no_lead s -> no_lead (Str.trimEnd s).
Proof.
  intros H. destruct (trimEnd_split s) as (post & E & _).
  destruct (Str.trimEnd s) as [|c t]; [exact I|].
  rewrite E in H. exact H.
Qed.

Lemma trimEnd_fixed (s : string) : no_lead (rev s) -> Str.trimEnd s = s.
Proof.
  intros H. unfold Str.trimEnd. rewrite (trimStart_fixed _ H). apply rev_involutive.
Qed.

Lemma trimEnd_no_trail (s : string) : no_lead (rev (Str.trimEnd s)).
Proof. unfold Str.trimEnd. rewrite rev_involutive. apply trimStart_no_lead. Qed.

Lemma trim_no_lead (s : string) : no_lead (Str.trim s).
Proof. apply trimEnd_no_lead, trimStart_no_lead. Qed.

Lemma trim_no_trail (s : string) : no_lead (rev (Str.trim s)).
Proof. apply trimEnd_no_trail. Qed.

(** A text without white space at either end is left as it is. *)
Lemma trim_fixed (s : string) :
  no_lead s -> no_lead (rev s) -> Str.trim s = s.
Proof.
  intros H1 H2. unfold Str.trim. rewrite (trimStart_fixed _ H1).
  now apply trimEnd_fixed.
Qed.

Lemma trim_idempotent (s : string) : Str.trim (Str.trim s) = Str.trim s.
Proof. apply trim_fixed; [apply trim_no_lead|apply trim_no_trail]. Qed.

(** [trim] cuts white space off the two ends and nothing else. *)
Lemma trim_split (s : string) :
  exists pre post, s = pre ++ Str.trim s ++ post
                   /\ Forall (fun c => Str.is_space c = true) pre
                   /\ Forall (fun c => Str.is_space c = true) post.
Proof.
  destruct (trimStart_split s) as (pre & E1 & H1).
  destruct (trimEnd_split (Str.trimStart s)) as (post & E2 & H2).
  exists pre, post. split; [|split; assumption].
  unfold Str.trim. now rewrite <- E2.
Qed.

Lemma trim_trimmed (s : string) : trimmed s (Str.trim s).
Proof.
  split; [apply trim_split|]. split; [apply trim_no_lead|apply trim_no_trail].
Qed.

(** No white space at all: nothing to cut. *)
Lemma no_space_no_lead (s : string) :
  Forall (fun c => Str.is_space c = false) s -> no_lead s /\ no_lead (rev s).
Proof.
  intros H. split.
  - destruct H; [exact I|assumption].
  - destruct (List.Forall_rev H); [exact I|assumption].
Qed.

End StringFacts.

Section CleanFacts.
Import StrSpec.

(** After [replace(/\s+/g, ' ')] every white-space character is a space
    that stands alone, and a text of that form is left as it is. *)
Lemma collapse_single_spaced (b : bool) (s : string) :
  single_spaced b (Str.collapse b s).
Proof.
  revert b. induction s as [|c rest IH]; intros b; simpl; [exact I|].
  destruct (Str.is_space c) eqn:E.
  - destruct b; [apply IH|]. simpl. repeat split. apply IH.
  - simpl. rewrite E. apply IH.
Qed.

Lemma collapse_fixed (b : bool) (s : string) :
  single_spaced b s -> Str.collapse b s = s.
Proof.
  revert b. induction s as [|c rest IH]; intros b; simpl; [reflexivity|].
  destruct (Str.is_space c) eqn:E.
  - intros (-> & -> & H). now rewrite (IH true H).
  - intros H. now rewrite (IH false H).
Qed.

Lemma single_spaced_weaken (b : bool) (s : string) :
  single_spaced b s -> single_spaced false s.
Proof.
  destruct s as [|c rest]; simpl; [tauto|].
  destruct (Str.is_space c); tauto.
Qed.

Lemma no_space_single_spaced (b : bool) (s : string) :
  Forall (fun c => Str.is_space c = false) s -> single_spaced b s.
Proof.
  intros H. revert b. induction H as [|c rest Hc _ IH]; intros b; simpl; [exact I|].
  rewrite Hc. apply IH.
Qed.

(** Trimming keeps the form. *)
Lemma trimStart_single_spaced (b : bool) (s : string) :
  single_spaced b s -> single_spaced false (Str.trimStart s).
Proof.
  revert b. induction s as [|c rest IH]; intros b; simpl; [tauto|].
  destruct (Str.is_space c) eqn:E.
  - intros (_ & _ & H). exact (IH true H).
  - intros H. simpl. now rewrite E.
Qed.

Lemma prefix_single_spaced (b : bool) (u post : string) :
  single_spaced b (u ++ post) -> single_spaced b u.
Proof.
  revert b. induction u as [|c u IH]; intros b; [intros _; exact I|].
  simpl. destruct (Str.is_space c).
  - intros (H1 & H2 & H). repeat split; try assumption. exact (IH true H).
  - apply IH.
Qed.

Lemma trimEnd_single_spaced (b : bool) (s : string) :
  single_spaced b s -> single_spaced b (Str.trimEnd s).
Proof.
  intros H. destruct (trimEnd_split s) as (post & E & _). rewrite E in H.
  exact (prefix_single_spaced b _ post H).
Qed.

Lemma cleanString_single_spaced (s : string) :
  single_spaced false (Processing.cleanString s).
Proof.
  unfold Processing.cleanString, Str.trim.
  apply trimEnd_single_spaced.
  apply (trimStart_single_spaced false), collapse_single_spaced.
Qed.

(** Cleaning touches white space only. *)
Lemma ink_spaces (s : string) :
  Forall (fun c => Str.is_space c = true) s -> ink s = [].
Proof.
  induction 1 as [|c rest Hc _ IH]; [reflexivity|].
  unfold ink in *. simpl. now rewrite Hc.
Qed.

Lemma ink_app (a b : string) : ink (a ++ b) = ink a ++ ink b.
Proof. apply List.filter_app. Qed.

Lemma collapse_ink (b : bool) (s : string) : ink (Str.collapse b s) = ink s.
Proof.
  revert b. induction s as [|c rest IH]; intros b; [reflexivity|].
  unfold ink in *. simpl. destruct (Str.is_space c) eqn:E.
  - destruct b; simpl; apply IH.
  - simpl. rewrite E. simpl. f_equal. apply IH.
Qed.

Lemma trim_ink (s : string) : ink (Str.trim s) = ink s.
Proof.
  destruct (trim_split s) as (pre & post & E & Hpre & Hpost).
  rewrite E at 2.
  now rewrite !ink_app, (ink_spaces pre Hpre), (ink_spaces post Hpost), app_nil_r.
Qed.

(** The words of a text. *)
Lemma words_cons (c : N) (s : string) :
  words (c :: s)
  = if Str.is_space c then words s
    else match s with
         | [] => [[c]]
         | d :: _ =>
             if Str.is_space d then [c] :: words s
             else match words s with
                  | w :: ws => (c :: w) :: ws
                  | [] => [[c]]
                  end
         end.
Proof. reflexivity. Qed.

Lemma words_space (c : N) (s : string) :
  Str.is_space c = true -> words (c :: s) = words s.
Proof. intros H. rewrite words_cons. now rewrite H. Qed.

Lemma words_all_spaces (s : string) :
  Forall (fun c => Str.is_space c = true) s -> words s = [].
Proof.
  induction 1 as [|c s Hc _ IH]; [reflexivity|]. now rewrite words_space.
Qed.

(** A text that starts with a character that is no white space starts
    with a word. *)
Lemma words_ink (c : N) (s : string) :
  Str.is_space c = false ->
  exists w ws, words (c :: s) = (c :: w) :: ws.
Proof.
  revert c. induction s as [|d rest IH]; intros c Hc; rewrite words_cons, Hc.
  - now exists [], [].
  - destruct (Str.is_space d) eqn:Hd.
    + now exists [], (words (d :: rest)).
    + destruct (IH d Hd) as (w & ws & ->). now exists (d :: w), ws.
Qed.

Lemma words_spaces (s post : string) :
  Forall (fun c => Str.is_space c = true) post -> words (s ++ post) = words s.
Proof.
  intros Hp. induction s as [|c rest IH].
  - simpl. now apply words_all_spaces.
  - simpl app. rewrite (words_cons c (rest ++ post)), (words_cons c rest).
    destruct (Str.is_space c); [exact IH|].
    destruct rest as [|d rest'].
    + simpl app in *. destruct Hp as [|e post He Hp]; [reflexivity|].
      rewrite He, words_space by exact He. now rewrite (words_all_spaces post Hp).
    + cbn [app] in *. destruct (Str.is_space d); now rewrite IH.
Qed.

Lemma trimStart_words (s : string) : words (Str.trimStart s) = words s.
Proof.
  induction s as [|c rest IH]; [reflexivity|]. simpl Str.trimStart.
  destruct (Str.is_space c) eqn:E; [now rewrite words_space|reflexivity].
Qed.

Lemma head_collapse (s : string) :
  match Str.collapse false s, s with
  | d' :: _, d :: _ => Str.is_space d' = Str.is_space d
  | [], [] => True
  | _, _ => False
  end.
Proof.
  destruct s as [|d rest]; simpl; [exact I|].
  destruct (Str.is_space d) eqn:E; [reflexivity|exact E].
Qed.

Lemma collapse_words (b : bool) (s : string) :
  words (Str.collapse b s) = words s.
Proof.
  revert b. induction s as [|c rest IH]; intros b; [reflexivity|].
  simpl Str.collapse. destruct (Str.is_space c) eqn:E.
  - rewrite (words_space c) by exact E.
    destruct b; [apply IH|]. rewrite words_space by reflexivity. apply IH.
  - rewrite (words_cons c (Str.collapse false rest)), (words_cons c rest), E.
    pose proof (head_collapse rest) as Hh.
    specialize (IH false).
    destruct (Str.collapse false rest) as [|d' rest'], rest as [|d rest''];
      try contradiction; [reflexivity|].
    rewrite Hh. now rewrite IH.
Qed.

Lemma trim_words (s : string) : words (Str.trim s) = words s.
Proof.
  unfold Str.trim.
  destruct (trimEnd_split (Str.trimStart s)) as (post & E & Hp).
  transitivity (words (Str.trimStart s)); [|apply trimStart_words].
  rewrite <- (words_spaces (Str.trimEnd (Str.trimStart s)) post Hp).
  now rewrite <- E.
Qed.

(** A text in normal form is its words with a space between each two. *)
Lemma unwords_cons (c : N) (w : string) (ws : list string) :
  unwords ((c :: w) :: ws) = c :: unwords (w :: ws).
Proof. destruct ws; reflexivity. Qed.

Lemma no_trail_tail (c : N) (rest : string) :
  rest <> [] -> no_lead (rev (c :: rest)) -> no_lead (rev rest).
Proof.
  intros Hne Ht. simpl in Ht. destruct (rev rest) as [|x l] eqn:Er; [|exact Ht].
  apply (f_equal (@rev N)) in Er. rewrite rev_involutive in Er. contradiction.
Qed.

Lemma unwords_words_from (b : bool) (t : string) :
  single_spaced b t -> no_lead (rev t) ->
  unwords (words t) = Str.trimStart t.
Proof.
  revert b. induction t as [|c rest IH]; intros b Hs Ht; [reflexivity|].
  rewrite words_cons. simpl Str.trimStart. simpl in Hs.
  destruct (Str.is_space c) eqn:Hc.
  - destruct Hs as (_ & _ & Hs).
    destruct rest as [|d rest'].
    { simpl in Ht. rewrite Hc in Ht. discriminate. }
    apply (IH true Hs). now apply (no_trail_tail c).
  - destruct rest as [|d rest']; [reflexivity|].
    pose proof (no_trail_tail c (d :: rest') ltac:(discriminate) Ht) as Tail.
    pose proof (IH false Hs Tail) as IH'.
    destruct (Str.is_space d) eqn:Hd.
    + simpl in Hs. rewrite Hd in Hs. destruct Hs as (-> & _ & Hs).
      destruct rest' as [|e rest''].
      { simpl in Tail. rewrite Hd in Tail. discriminate. }
      assert (He : Str.is_space e = false).
      { simpl in Hs. destruct (Str.is_space e); [|reflexivity].
        destruct Hs as (_ & F & _). discriminate. }
      rewrite (words_space 32%N) in * by exact Hd.
      simpl Str.trimStart in IH'. rewrite ?Hd, He in IH'.
      destruct (words_ink e rest'' He) as (w & ws & Ew). rewrite Ew in *.
      change (unwords ([c] :: (e :: w) :: ws))
        with ([c] ++ 32%N :: unwords ((e :: w) :: ws)).
      now rewrite IH'.
    + destruct (words_ink d rest' Hd) as (w & ws & Ew). rewrite Ew in *.
      rewrite unwords_cons, IH'. simpl. now rewrite Hd.
Qed.

Lemma unwords_words (t : string) :
  no_lead t -> no_lead (rev t) -> single_spaced false t ->
  unwords (words t) = t.
Proof.
  intros Hl Ht Hs. rewrite (unwords_words_from false t Hs Ht).
  now apply trimStart_fixed.
Qed.

(** X1.  [cleanString] returns the words of its argument, its maximal
    runs of characters that are not white space, with one space between
    each two.  So the result has no white space at either end, every
    white-space character in it is a single space between two other
    characters, and its other characters are those of the argument, in
    order; cleaning twice is cleaning once; a text already of that form,
    and so every text without white space, is returned as it is. *)
Theorem cleanString_normal_form (s : string) :
  Processing.cleanString s = unwords (words s)
  /\ no_lead (Processing.cleanString s)
  /\ no_lead (rev (Processing.cleanString s))
  /\ single_spaced false (Processing.cleanString s)
  /\ ink (Processing.cleanString s) = ink s
  /\ Processing.cleanString (Processing.cleanString s) = Processing.cleanString s
  /\ (no_lead s -> no_lead (rev s) -> single_spaced false s ->
      Processing.cleanString s = s)
  /\ (Forall (fun c => Str.is_space c = false) s -> Processing.cleanString s = s).
Proof.
  assert (F : forall t, no_lead t -> no_lead (rev t) -> single_spaced false t ->
              Processing.cleanString t = t).
  { intros t H1 H2 H3. unfold Processing.cleanString.
    rewrite (collapse_fixed false t H3). now apply trim_fixed. }
  assert (H1 : no_lead (Processing.cleanString s)) by apply trim_no_lead.
  assert (H2 : no_lead (rev (Processing.cleanString s))) by apply trim_no_trail.
  assert (H3 : single_spaced false (Processing.cleanString s))
    by apply cleanString_single_spaced.
  split.
  { rewrite <- (collapse_words false s), <- (trim_words (Str.collapse false s)).
    symmetry. now apply unwords_words. }
  split; [exact H1|]. split; [exact H2|]. split; [exact H3|].
  split; [unfold Processing.cleanString; now rewrite trim_ink, collapse_ink|].
  split; [now apply F|]. split; [exact (F s)|].
  intros Hs. destruct (no_space_no_lead s Hs) as [L T].
  apply F; [exact L|exact T|now apply no_space_single_spaced].
Qed.

(** Names of the kind the data has: nothing to clean in the first two;
    in the third an ideographic space and the spaces around it become one
    space, and the white space at the ends goes. *)
Example cleanString_names :
  Processing.cleanString "张伟" = "张伟"
  /\ Processing.cleanString "广西造纸厂" = "广西造纸厂"
  /\ Processing.cleanString " 南宁 　制造  " = "南宁 制造".
Proof. vm_compute. repeat split. Qed.

End CleanFacts.

Section RecordSound.
Import DataHandler.
Variable h : Host.

(** What a check that succeeds says about the field, for each of the
    three types. *)
Lemma validateField_string_ok (record : JSValue) (field : string)
    (acc r : BidRecord) :
  dataTypes field = Some TString ->
  validateField h record field acc = Ok r ->
  exists s, get_property field record = JStr s
            /\ Str.trim s <> ""
            /\ r = store_string field (Str.trim s) acc.
Proof.
  intros Hty. unfold validateField. rewrite Hty.
  destruct (has_property field record); simpl; [|discriminate].
  destruct (get_property field record) as [| | | |s| |]; try discriminate.
  destruct (Str_eqb_spec (Str.trim s) ""); [discriminate|].
  intros [= <-]. now exists s.
Qed.

Lemma validateField_date_ok (record : JSValue) (acc r : BidRecord) :
  validateField h record "bid_date" acc = Ok r ->
  exists t, Date_new h (get_property "bid_date" record) = Some t
            /\ t <= Date_now h
            /\ (forall m, Date_new h (JStr "2020-01-01") = Some m -> m <= t)
            /\ r = set_bid_date (get_property "bid_date" record) (Some t) acc.
Proof.
  unfold validateField.
  destruct (has_property "bid_date" record); simpl; [|discriminate].
  destruct (Date_new h (get_property "bid_date" record)) as [t|];
    [|discriminate].
  unfold date_gt. simpl.
  destruct (Z.ltb_spec (Date_now h) t); simpl; [discriminate|].
  destruct (Date_new h (JStr "2020-01-01")) as [m|].
  - destruct (Z.ltb_spec t m); [discriminate|].
    intros [= <-]. exists t. repeat split; try assumption.
    intros m' [= <-]. assumption.
  - intros [= <-]. exists t. repeat split; try assumption. discriminate.
Qed.

Lemma validateField_price_ok (record : JSValue) (acc r : BidRecord) :
  validateField h record "bid_price" acc = Ok r ->
  let x := parseFloat h (get_property "bid_price" record) in
  Num.isFinite x = true
  /\ PrimFloat.leb lit_0_1 x = true /\ PrimFloat.leb x lit_2_0 = true
  /\ r = set_bid_price x acc.
Proof.
  unfold validateField.
  destruct (has_property "bid_price" record); simpl; [|discriminate].
  set (x := parseFloat h (get_property "bid_price" record)).
  destruct (Num.isNaN x) eqn:En; simpl; [discriminate|].
  destruct (Num.isFinite x) eqn:Ef; simpl; [|discriminate].
  destruct (PrimFloat.ltb x lit_0_1) eqn:E1; simpl; [discriminate|].
  destruct (PrimFloat.ltb lit_2_0 x) eqn:E2; simpl; [discriminate|].
  intros [= <-]. repeat split.
  - rewrite <- (FloatFacts.ltb_false_leb x lit_0_1 En eq_refl), E1. reflexivity.
  - rewrite <- (FloatFacts.ltb_false_leb lit_2_0 x eq_refl En), E2. reflexivity.
Qed.

(** A record is accepted when the four checks succeed one after the
    other. *)
Lemma validateRecord_fields (record : JSValue) (index : nat) (v : BidRecord) :
  validateRecord h record index = Ok v ->
  exists r1 r2 r3,
    validateField h record "user_name" empty_record = Ok r1
    /\ validateField h record "power_company" r1 = Ok r2
    /\ validateField h record "bid_date" r2 = Ok r3
    /\ validateField h record "bid_price" r3 = Ok v.
Proof.
  unfold validateRecord.
  destruct (negb (truthy_value record) || negb (typeof_object record));
    [discriminate|].
  unfold requiredFields.
  change (validateFields h record
            ["user_name"; "power_company"; "bid_date"; "bid_price"] empty_record)
    with (r1 <- validateField h record "user_name" empty_record ;;
          r2 <- validateField h record "power_company" r1 ;;
          r3 <- validateField h record "bid_date" r2 ;;
          r4 <- validateField h record "bid_price" r3 ;; Ok r4).
  destruct (validateField h record "user_name" empty_record) as [r1|] eqn:E1;
    simpl; [|discriminate].
  destruct (validateField h record "power_company" r1) as [r2|] eqn:E2;
    simpl; [|discriminate].
  destruct (validateField h record "bid_date" r2) as [r3|] eqn:E3;
    simpl; [|discriminate].
  destruct (validateField h record "bid_price" r3) as [r4|] eqn:E4;
    simpl; [|discriminate].
  intros [= <-]. now exists r1, r2, r3.
Qed.

(** X2.  What [validateRecord] returns is well formed: the two names are
    the input texts without the white space at their ends (as [trim]
    gives them) and not empty, [bid_date] is the input value as it came
    and reads as a time not after the clock and not before 2020-01-01, the
    price is the parsed input, finite and within [0.1, 2.0], and no
    derived field is set. *)
Theorem validateRecord_sound (record : JSValue) (index : nat) (v : BidRecord) :
  validateRecord h record index = Ok v ->
  exists (u c : string) (t : Z),
    (get_property "user_name" record = JStr u
     /\ user_name v = Str.trim u /\ StrSpec.trimmed u (user_name v)
     /\ user_name v <> "")
    /\ (get_property "power_company" record = JStr c
        /\ power_company v = Str.trim c /\ StrSpec.trimmed c (power_company v)
        /\ power_company v <> "")
    /\ (bid_date v = get_property "bid_date" record
        /\ Date_new h (bid_date v) = Some t /\ bid_date_parsed v = Some t
        /\ t <= Date_now h
        /\ forall m, Date_new h (JStr "2020-01-01") = Some m -> m <= t)
    /\ (bid_price v = parseFloat h (get_property "bid_price" record)
        /\ Num.isFinite (bid_price v) = true
        /\ PrimFloat.leb lit_0_1 (bid_price v) = true
        /\ PrimFloat.leb (bid_price v) lit_2_0 = true)
    /\ derived v = None.
Proof.
  intros Hv.
  destruct (validateRecord_fields record index v Hv)
    as (r1 & r2 & r3 & E1 & E2 & E3 & E4).
  destruct (validateField_string_ok record "user_name" _ _ eq_refl E1)
    as (u & Hu & Une & ->).
  destruct (validateField_string_ok record "power_company" _ _ eq_refl E2)
    as (c & Hc & Cne & ->).
  destruct (validateField_date_ok _ _ _ E3) as (t & Ht & Hnow & Hmin & ->).
  destruct (validateField_price_ok _ _ _ E4) as (Hfin & Hlo & Hhi & ->).
  exists u, c, t. simpl.
  repeat split; try assumption; apply trim_split || apply trim_no_lead
    || apply trim_no_trail.
Qed.

End RecordSound.

Section RecordSoundExamples.
Import DataHandler ExampleHost.
#[local] Set Warnings "-inexact-float".

(** A user name that is nothing but white space, an ideographic space
    included, is rejected; a price given as a text is read as a number. *)
Example validateRecord_blank_name :
  validateRecord host (raw "　 " "广西电网公司" "2023-06-01" 0.5) 0
  = Throw (InvalidString "user_name").
Proof. vm_compute. reflexivity. Qed.

(** The record the documentation of the repository shows is accepted as
    it is. *)
Example validateRecord_documented_record :
  validateRecord host (raw "华东钢铁集团" "华能售电公司" "2023-01-15" 0.485) 0
  = Ok {| user_name := "华东钢铁集团"; power_company := "华能售电公司";
          bid_date := JStr "2023-01-15"; bid_date_parsed := Some 1673740800000;
          bid_price := 0.485; derived := None |}.
Proof. vm_compute. reflexivity. Qed.

Example validateRecord_price_as_text :
  exists v,
    validateRecord host
      (JObj [("user_name", JStr "张伟"); ("power_company", JStr "广西电网公司");
             ("bid_date", JStr "2023-06-01"); ("bid_price", JStr "0.4875")]) 0
    = Ok v
    /\ user_name v = "张伟" /\ bid_price v = 0.4875%float.
Proof. eexists. vm_compute. repeat split. Qed.

End RecordSoundExamples.

(** ** Record validation, continued *)

Section RecordErrors.
Import DataHandler.
Variable h : Host.

(** Whether a check succeeds, and with which error it fails, does not
    depend on the record built so far. *)
Lemma validateField_accumulator (record : JSValue) (field : string)
    (acc acc' : BidRecord) :
  match validateField h record field acc, validateField h record field acc' with
  | Ok _, Ok _ => True
  | Throw e, Throw e' => e = e'
  | _, _ => False
  end.
Proof.
  unfold validateField.
  destruct (negb (has_property field record)); [reflexivity|].
  destruct (dataTypes field) as [[| |]|]; [| | |exact I].
  - destruct (get_property field record); try reflexivity.
    destruct (Str.eqb (Str.trim s) ""); [reflexivity|exact I].
  - destruct (Date_new h (get_property field record)); [|reflexivity].
    match goal with |- context [if ?c then _ else _] => destruct c end;
      [reflexivity|exact I].
  - cbv zeta.
    match goal with |- context [if ?c then _ else _] => destruct c end;
      [reflexivity|].
    match goal with |- context [if ?c then _ else _] => destruct c end;
      [reflexivity|exact I].
Qed.

Lemma validateField_throw_any (record : JSValue) (field : string)
    (acc acc' : BidRecord) (e : Error) :
  validateField h record field acc = Throw e ->
  validateField h record field acc' = Throw e.
Proof.
  intros E. pose proof (validateField_accumulator record field acc acc') as H.
  rewrite E in H. destruct (validateField h record field acc'); [easy|now subst].
Qed.

Lemma validateField_ok_any (record : JSValue) (field : string)
    (acc acc' : BidRecord) :
  is_ok (validateField h record field acc)
  = is_ok (validateField h record field acc').
Proof.
  pose proof (validateField_accumulator record field acc acc') as H.
  destruct (validateField h record field acc),
    (validateField h record field acc'); simpl; tauto.
Qed.

(** The loop throws the error of the first check that fails. *)
Lemma validateFields_first_error (record : JSValue) (fields : list string)
    (acc : BidRecord) (e : Error) :
  validateFields h record fields acc = Throw e <->
  exists passed field rest,
    fields = passed ++ field :: rest
    /\ Forall (fun f => is_ok (validateField h record f empty_record) = true) passed
    /\ validateField h record field empty_record = Throw e.
Proof.
  revert acc. induction fields as [|f fs IH]; intros acc; simpl.
  - split; [discriminate|]. intros (passed & field & rest & E & _).
    destruct passed; discriminate.
  - destruct (validateField h record f acc) as [r|e'] eqn:Ef; simpl.
    + rewrite IH. split.
      * intros (passed & field & rest & -> & Hp & He).
        exists (f :: passed), field, rest. split; [reflexivity|].
        split; [|exact He]. constructor; [|exact Hp].
        rewrite (validateField_ok_any record f empty_record acc), Ef. reflexivity.
      * intros (passed & field & rest & E & Hp & He).
        destruct passed as [|p passed]; simpl in E; injection E as <- ->.
        -- apply (validateField_throw_any _ _ _ acc) in He. congruence.
        -- inversion Hp; subst. now exists passed, field, rest.
    + split.
      * intros [= ->]. exists [], f, fs. split; [reflexivity|].
        split; [constructor|]. exact (validateField_throw_any _ _ _ _ _ Ef).
      * intros (passed & field & rest & E & Hp & He).
        destruct passed as [|p passed]; simpl in E; injection E as <- ->.
        -- apply (validateField_throw_any _ _ _ acc) in He. congruence.
        -- inversion Hp as [|? ? Hok _]; subst.
           rewrite (validateField_ok_any record f empty_record acc), Ef in Hok.
           discriminate.
Qed.

(** X3.  The error of [validateRecord] is that of the first required
    field, in the order user_name, power_company, bid_date, bid_price, whose
    check fails: the fields before it pass, the fields after it are not
    looked at, and no check depends on what was validated before it.  The
    invalid-record error is thrown exactly for a value that is falsy or not
    of type object. *)
Theorem validateRecord_first_error (record : JSValue) (index : nat) (e : Error) :
  validateRecord h record index = Throw e <->
  ((truthy_value record = false \/ typeof_object record = false)
   /\ e = InvalidRecord)
  \/ (truthy_value record = true /\ typeof_object record = true
      /\ exists passed field rest,
           requiredFields = passed ++ field :: rest
           /\ Forall (fun f => is_ok (validateField h record f empty_record) = true)
                     passed
           /\ validateField h record field empty_record = Throw e).
Proof.
  unfold validateRecord.
  destruct (truthy_value record), (typeof_object record); cbn [negb orb];
    try (split; [intros [= <-]; left; split; [tauto|reflexivity]
                |intros [[_ ->]|(? & ? & _)]; [reflexivity|discriminate]]).
  rewrite validateFields_first_error. split.
  - intros H. right. split; [reflexivity|]. split; [reflexivity|exact H].
  - intros [[[?|?] _]|(_ & _ & H)]; [discriminate|discriminate|exact H].
Qed.

(** The three checks on an object that has the field. *)
Lemma validateField_string_present (props : list (string * JSValue))
    (field s : string) (acc : BidRecord) :
  dataTypes field = Some TString ->
  assoc_get field props = Some (JStr s) ->
  Str.trim s <> "" ->
  validateField h (JObj props) field acc
    = Ok (store_string field (Str.trim s) acc).
Proof.
  intros Hty Hget Hne. unfold validateField, has_property, get_property.
  rewrite Hget, Hty. simpl.
  destruct (Str_eqb_spec (Str.trim s) ""); [contradiction|reflexivity].
Qed.

Lemma validateField_date_present (props : list (string * JSValue))
    (value : JSValue) (t : Z) (acc : BidRecord) :
  assoc_get "bid_date" props = Some value ->
  Date_new h value = Some t ->
  t <= Date_now h ->
  (forall m, Date_new h (JStr "2020-01-01") = Some m -> m <= t) ->
  validateField h (JObj props) "bid_date" acc
    = Ok (set_bid_date value (Some t) acc).
Proof.
  intros Hget Et Hnow Hmin. unfold validateField, has_property, get_property.
  rewrite Hget. simpl. rewrite Et. unfold date_gt, date_lt.
  destruct (Z.ltb_spec (Date_now h) t); [lia|]. simpl.
  destruct (Date_new h (JStr "2020-01-01")) as [m|] eqn:Em; [|reflexivity].
  specialize (Hmin m eq_refl).
  destruct (Z.ltb_spec t m); [lia|reflexivity].
Qed.

Lemma validateField_price_present (props : list (string * JSValue))
    (value : JSValue) (acc : BidRecord) :
  assoc_get "bid_price" props = Some value ->
  Num.isFinite (parseFloat h value) = true ->
  PrimFloat.leb lit_0_1 (parseFloat h value) = true ->
  PrimFloat.leb (parseFloat h value) lit_2_0 = true ->
  validateField h (JObj props) "bid_price" acc
    = Ok (set_bid_price (parseFloat h value) acc).
Proof.
  intros Hget Hfin Hlo Hhi.
  pose proof (FloatFacts.is_finite_not_nan _ Hfin) as Hnan.
  pose proof (FloatFacts.ltb_false_leb (parseFloat h value) lit_0_1 Hnan eq_refl)
    as L1.
  pose proof (FloatFacts.ltb_false_leb lit_2_0 (parseFloat h value) eq_refl Hnan)
    as L2.
  rewrite Hlo in L1. rewrite Hhi in L2. apply negb_true_iff in L1, L2.
  unfold validateField, has_property, get_property.
  rewrite Hget. simpl. unfold Num.isNaN. unfold Num.isFinite in Hfin.
  rewrite Hnan. unfold Num.isFinite. rewrite Hfin, L1, L2. reflexivity.
Qed.

(** X4.  Validation is idempotent on its own output: an object that
    carries the four fields of a validated record (in any order, among
    other fields, as an export has them) validates to that same record,
    provided [parseFloat] reads the price back. *)
Theorem validateRecord_revalidates
    (record : JSValue) (index index' : nat) (v : BidRecord)
    (props : list (string * JSValue)) :
  validateRecord h record index = Ok v ->
  parseFloat h (JNum (bid_price v)) = bid_price v ->
  assoc_get "user_name" props = Some (JStr (user_name v)) ->
  assoc_get "power_company" props = Some (JStr (power_company v)) ->
  assoc_get "bid_date" props = Some (bid_date v) ->
  assoc_get "bid_price" props = Some (JNum (bid_price v)) ->
  validateRecord h (JObj props) index' = Ok v.
Proof.
  intros Hv Hparse Hu Hc Hd Hp.
  destruct (validateRecord_fields h record index v Hv)
    as (r1 & r2 & r3 & E1 & E2 & E3 & E4).
  destruct (validateField_string_ok h record "user_name" _ _ eq_refl E1)
    as (u & _ & Une & ->).
  destruct (validateField_string_ok h record "power_company" _ _ eq_refl E2)
    as (c & _ & Cne & ->).
  destruct (validateField_date_ok h _ _ _ E3) as (t & Et & Hnow & Hmin & ->).
  destruct (validateField_price_ok h _ _ _ E4) as (Hfin & Hlo & Hhi & Ev).
  assert (Eu : user_name v = Str.trim u) by (subst v; reflexivity).
  assert (Ec : power_company v = Str.trim c) by (subst v; reflexivity).
  assert (Ed : bid_date v = get_property "bid_date" record)
    by (subst v; reflexivity).
  assert (Ept : bid_date_parsed v = Some t) by (subst v; reflexivity).
  assert (Ex : bid_price v = parseFloat h (get_property "bid_price" record))
    by (subst v; reflexivity).
  assert (Hder : derived v = None) by (subst v; reflexivity).
  rewrite <- Eu in Une. rewrite <- Ec in Cne. rewrite <- Ed in Et.
  rewrite <- Ex in Hfin, Hlo, Hhi. clear Ev.
  assert (Tu : Str.trim (user_name v) = user_name v)
    by (rewrite Eu; apply trim_idempotent).
  assert (Tc : Str.trim (power_company v) = power_company v)
    by (rewrite Ec; apply trim_idempotent).
  unfold validateRecord. simpl negb. simpl orb. cbv iota.
  unfold requiredFields.
  change (validateFields h (JObj props)
            ["user_name"; "power_company"; "bid_date"; "bid_price"] empty_record)
    with (r1 <- validateField h (JObj props) "user_name" empty_record ;;
          r2 <- validateField h (JObj props) "power_company" r1 ;;
          r3 <- validateField h (JObj props) "bid_date" r2 ;;
          r4 <- validateField h (JObj props) "bid_price" r3 ;; Ok r4).
  rewrite (validateField_string_present props "user_name" (user_name v) _
             eq_refl Hu) by (rewrite Tu; exact Une).
  unfold bind at 1.
  rewrite (validateField_string_present props "power_company" (power_company v) _
             eq_refl Hc) by (rewrite Tc; exact Cne).
  unfold bind at 1.
  rewrite (validateField_date_present props (bid_date v) t _ Hd Et Hnow Hmin).
  unfold bind at 1.
  rewrite (validateField_price_present props (JNum (bid_price v)) _ Hp)
    by (rewrite Hparse; assumption).
  unfold bind. rewrite Tu, Tc, Hparse.
  destruct v as [vu vc vd vp vx vder]. simpl in *.
  subst vder. rewrite Ept. reflexivity.
Qed.

End RecordErrors.

(** ** Dataset validation, continued *)

Section DatasetShape.
Import DataHandler DatasetSpec.
Variable h : Host.

(** The checks after the loop end in one of three ways. *)
Lemma qualityGate_outcome (total : nat) (vs : list BidRecord)
    (es : list (nat * Error)) :
  (exists r t, fst (qualityGate total vs es) = Throw (DataQuality r t))
  \/ fst (qualityGate total vs es) = Throw NoValidRecords
  \/ (fst (qualityGate total vs es) = Ok vs /\ vs <> []).
Proof.
  unfold qualityGate.
  destruct ((0 <? length es)%nat && overThreshold (length es) total).
  - left. now eexists _, _.
  - destruct vs as [|v vs]; simpl; [right; left; reflexivity|].
    right. right. split; [reflexivity|discriminate].
Qed.

(** On an array with elements the result is that of the quality gate on
    the accepted records and the rejections. *)
Lemma validateDataStructure_resolved (jsonData : JSValue) (items : list JSValue) :
  resolveArray jsonData = Ok items -> items <> [] ->
  validateDataStructure h jsonData =
    qualityGate (length items) (acceptedRecords h items) (rejectionsFrom h 0 items).
Proof.
  intros Hres Hne. unfold validateDataStructure. rewrite Hres.
  destruct items as [|item rest]; [congruence|].
  cbn [length Nat.eqb]. rewrite validateEach_spec. reflexivity.
Qed.

(** The three outcomes of the shape test. *)
Lemma resolveArray_cases (jsonData : JSValue) :
  (truthy_value jsonData = false /\ resolveArray jsonData = Throw EmptyData)
  \/ (truthy_value jsonData = true /\ isArray jsonData = false
      /\ isArray (get_property "data" jsonData) = false
      /\ resolveArray jsonData = Throw MalformedData)
  \/ (truthy_value jsonData = true
      /\ exists items, resolveArray jsonData = Ok items
           /\ (jsonData = JArr items
               \/ (isArray jsonData = false
                   /\ get_property "data" jsonData = JArr items))).
Proof.
  unfold resolveArray.
  destruct (truthy_value jsonData) eqn:Ht; [|left; split; reflexivity].
  right. simpl negb. cbv iota.
  destruct jsonData as [| | | | |items|props]; try discriminate;
    try (left; repeat split; reflexivity).
  - right. split; [reflexivity|]. exists items. split; [reflexivity|now left].
  - destruct (get_property "data" (JObj props)) as [| | | | |items|] eqn:Hd;
      try (left; repeat split; reflexivity).
    right. split; [reflexivity|]. exists items. split; [reflexivity|].
    right. split; reflexivity.
Qed.

Lemma validateDataStructure_not_shape_error (jsonData : JSValue)
    (items : list JSValue) :
  resolveArray jsonData = Ok items -> items <> [] ->
  fst (validateDataStructure h jsonData) <> Throw MalformedData
  /\ fst (validateDataStructure h jsonData) <> Throw EmptyData.
Proof.
  intros Hres Hne.
  rewrite (validateDataStructure_resolved jsonData items Hres Hne).
  destruct (qualityGate_outcome (length items) (acceptedRecords h items)
              (rejectionsFrom h 0 items)) as [(r & t & ->)|[->|[-> _]]];
    split; discriminate.
Qed.

Lemma validateDataStructure_shape_cases (jsonData : JSValue) :
  (fst (validateDataStructure h jsonData) = Throw MalformedData
   <-> truthy_value jsonData = true /\ isArray jsonData = false
       /\ isArray (get_property "data" jsonData) = false)
  /\ (fst (validateDataStructure h jsonData) = Throw EmptyData
      <-> truthy_value jsonData = false \/ resolveArray jsonData = Ok [])
  /\ (forall items, truthy_value jsonData = true -> isArray jsonData = false ->
      get_property "data" jsonData = JArr items ->
      validateDataStructure h jsonData = validateDataStructure h (JArr items)).
Proof.
  destruct (resolveArray_cases jsonData)
    as [(Ht & Hres)|[(Ht & Ha & Hd & Hres)|(Ht & items & Hres & Hshape)]].
  - (* falsy *)
    assert (E : validateDataStructure h jsonData = (Throw EmptyData, []))
      by (unfold validateDataStructure; now rewrite Hres).
    rewrite E. simpl. split; [|split].
    + split; [discriminate|]. intros (? & _). congruence.
    + split; [now left|reflexivity].
    + intros; congruence.
  - (* no array *)
    assert (E : validateDataStructure h jsonData = (Throw MalformedData, []))
      by (unfold validateDataStructure; now rewrite Hres).
    rewrite E. simpl. split; [|split].
    + split; [now repeat split|reflexivity].
    + split; [discriminate|]. intros [?|?]; congruence.
    + intros items _ _ Hitems. rewrite Hitems in Hd. discriminate.
  - (* an array *)
    assert (Esame : validateDataStructure h jsonData
                    = validateDataStructure h (JArr items)).
    { unfold validateDataStructure. rewrite Hres. reflexivity. }
    split; [|split].
    + split.
      * intros H. destruct items as [|i items].
        -- unfold validateDataStructure in H. rewrite Hres in H. discriminate.
        -- now apply (validateDataStructure_not_shape_error jsonData (i :: items))
             in H.
      * intros (_ & Ha & Hd).
        destruct Hshape as [->|(_ & Hitems)]; [discriminate|].
        rewrite Hitems in Hd. discriminate.
    + split.
      * intros H. right. destruct items as [|i items]; [exact Hres|].
        now apply (validateDataStructure_not_shape_error jsonData (i :: items))
          in H.
      * intros [?|Hnil]; [congruence|].
        unfold validateDataStructure. rewrite Hnil. reflexivity.
    + intros items' _ Ha Hd.
      destruct Hshape as [->|(_ & Hitems)]; [discriminate|].
      rewrite Hitems in Hd. injection Hd as <-. exact Esame.
Qed.

End DatasetShape.

Section DatasetReports.
Import DataHandler DatasetSpec.
Variable h : Host.

(** The rejections are those of the rejected records, each under its
    1-based position, in increasing position. *)
Lemma rejectionsFrom_In (k : nat) (items : list JSValue) (p : nat) (e : Error) :
  In (p, e) (rejectionsFrom h k items) <->
  exists i item, p = (k + i + 1)%nat /\ items !! i = Some item
                 /\ validateRecord h item (k + i) = Throw e.
Proof.
  revert k. induction items as [|x rest IH]; intros k; simpl.
  - split; [tauto|]. intros (i & item & _ & H & _). discriminate.
  - destruct (validateRecord h x k) as [v|e'] eqn:Ex.
    + rewrite IH. split.
      * intros (i & item & -> & Hi & He). exists (S i), item.
        split; [lia|]. split; [exact Hi|]. exact He.
      * intros (i & item & -> & Hi & He). destruct i as [|i].
        -- simpl in Hi. injection Hi as <-.
           change (validateRecord h x (k + 0)) with (validateRecord h x k) in He.
           congruence.
        -- exists i, item. split; [lia|]. split; [exact Hi|exact He].
    + simpl. rewrite IH. split.
      * intros [[= <- <-]|(i & item & -> & Hi & He)].
        -- exists 0%nat, x. split; [lia|]. split; [reflexivity|exact Ex].
        -- exists (S i), item. split; [lia|]. split; [exact Hi|exact He].
      * intros (i & item & -> & Hi & He). destruct i as [|i].
        -- simpl in Hi. injection Hi as <-. left.
           change (validateRecord h x (k + 0)) with (validateRecord h x k) in He.
           f_equal; [lia|congruence].
        -- right. exists i, item. split; [lia|]. split; [exact Hi|exact He].
Qed.

Lemma rejectionsFrom_sorted (k : nat) (items : list JSValue) :
  Forall (fun p => (k < p)%nat) (map fst (rejectionsFrom h k items))
  /\ StronglySorted lt (map fst (rejectionsFrom h k items)).
Proof.
  revert k. induction items as [|x rest IH]; intros k; simpl.
  - split; constructor.
  - destruct (IH (S k)) as [Hall Hs].
    assert (Hall' : Forall (fun p => (k < p)%nat)
                      (map fst (rejectionsFrom h (S k) rest))).
    { eapply List.Forall_impl; [|exact Hall]. simpl. intros; lia. }
    destruct (validateRecord h x k); [split; assumption|].
    simpl. split.
    + constructor; [lia|exact Hall'].
    + constructor; [exact Hs|].
      eapply List.Forall_impl; [|exact Hall]. simpl. intros; lia.
Qed.

Lemma qualityGate_events (total : nat) (vs : list BidRecord)
    (es : list (nat * Error)) :
  snd (qualityGate total vs es)
  = if (0 <? length es)%nat then [ValidationWarning es] else [].
Proof.
  unfold qualityGate.
  destruct ((0 <? length es)%nat && overThreshold (length es) total);
    [reflexivity|].
  destruct (length vs =? 0)%nat; reflexivity.
Qed.

(** X6.  The warning of [validateDataStructure] lists exactly the
    rejected records, each with its 1-based position and the error of its
    validation, in increasing position. *)
Theorem validateDataStructure_reports_rejections
    (jsonData : JSValue) (items : list JSValue)
    (result : Result (list BidRecord)) (errors : list (nat * Error)) :
  resolveArray jsonData = Ok items ->
  validateDataStructure h jsonData = (result, [ValidationWarning errors]) ->
  (forall p e,
     In (p, e) errors <->
     exists i item, p = (i + 1)%nat /\ items !! i = Some item
                    /\ validateRecord h item i = Throw e)
  /\ StronglySorted lt (map fst errors).
Proof.
  intros Hres Hv.
  destruct items as [|x rest].
  { unfold validateDataStructure in Hv. rewrite Hres in Hv. discriminate. }
  rewrite (validateDataStructure_resolved h jsonData (x :: rest) Hres
             ltac:(discriminate)) in Hv.
  set (items := x :: rest) in *.
  apply (f_equal snd) in Hv. rewrite qualityGate_events in Hv. cbn [snd] in Hv.
  destruct (0 <? length (rejectionsFrom h 0 items))%nat; [|discriminate].
  injection Hv as <-. split.
  - intros p e. exact (rejectionsFrom_In 0 items p e).
  - exact (proj2 (rejectionsFrom_sorted 0 items)).
Qed.

(** A dataset that is returned has records. *)
Lemma validateDataStructure_ok_nonempty (jsonData : JSValue)
    (records : list BidRecord) :
  fst (validateDataStructure h jsonData) = Ok records -> records <> [].
Proof.
  intros Hv.
  destruct (resolveArray_cases jsonData)
    as [(_ & Hres)|[(_ & _ & _ & Hres)|(_ & items & Hres & _)]];
    try (unfold validateDataStructure in Hv; rewrite Hres in Hv; discriminate).
  destruct items as [|x rest];
    [unfold validateDataStructure in Hv; rewrite Hres in Hv; discriminate|].
  rewrite (validateDataStructure_resolved h jsonData (x :: rest) Hres
             ltac:(discriminate)) in Hv.
  destruct (qualityGate_outcome (length (x :: rest))
              (DatasetSpec.acceptedRecords h (x :: rest))
              (DatasetSpec.rejectionsFrom h 0 (x :: rest)))
    as [(r & t & E)|[E|[E Hne]]]; rewrite E in Hv; try discriminate.
  now injection Hv as <-.
Qed.

(** When every record is rejected the rejected fraction is [1], above the
    threshold, so the data-quality error is thrown before the
    no-valid-records test is reached. *)
Lemma validateDataStructure_never_empty
    (jsonData : JSValue) (items : list JSValue) :
  resolveArray jsonData = Ok items ->
  Z.of_nat (length items) < 2 ^ 32 ->
  fst (validateDataStructure h jsonData) <> Ok []
  /\ fst (validateDataStructure h jsonData) <> Throw NoValidRecords.
Proof.
  intros Hres Hlen.
  destruct items as [|x rest].
  { unfold validateDataStructure. rewrite Hres. split; discriminate. }
  rewrite (validateDataStructure_resolved h jsonData (x :: rest) Hres
             ltac:(discriminate)).
  set (items := x :: rest) in *.
  pose proof (accepted_rejected_length h items 0) as Hsum.
  split.
  - destruct (qualityGate_outcome (length items) (acceptedRecords h items)
                (rejectionsFrom h 0 items)) as [(r & t & E)|[E|[E Hne]]];
      rewrite E; try discriminate. congruence.
  - unfold qualityGate.
    destruct (Nat.ltb_spec 0 (length (rejectionsFrom h 0 items))) as [Hpos|Hzero];
      cbn [andb].
    + destruct (overThreshold _ _) eqn:Hover; [discriminate|].
      destruct (Nat.eqb_spec (length (acceptedRecords h items)) 0) as [Hnone|_];
        [|discriminate].
      exfalso. rewrite Hnone, Nat.add_0_l in Hsum. rewrite Hsum in Hover.
      rewrite Threshold.overThreshold_all in Hover; [discriminate|].
      subst items. cbn [length] in *. lia.
    + destruct (Nat.eqb_spec (length (acceptedRecords h items)) 0) as [Hnone|_];
        [|discriminate].
      exfalso. rewrite Hnone in Hsum. subst items. cbn [length] in *. lia.
Qed.

Lemma acceptedRecords_all (items : list JSValue) :
  Forall (fun item => is_ok (validateRecord h item 0) = true) items ->
  Forall2 (fun item r => validateRecord h item 0 = Ok r) items
          (acceptedRecords h items)
  /\ forall k, rejectionsFrom h k items = [].
Proof.
  induction 1 as [|x rest Hx _ [IH1 IH2]]; simpl; [split; [constructor|reflexivity]|].
  destruct (validateRecord h x 0) as [v|] eqn:Ex; [|discriminate].
  split; [constructor; [exact Ex|exact IH1]|].
  intros k. change (validateRecord h x k) with (validateRecord h x 0).
  rewrite Ex. apply IH2.
Qed.

(** X7.  A dataset with records all of which validate is returned
    whole, record by record in input order, without a warning. *)
Theorem validateDataStructure_all_valid
    (jsonData : JSValue) (items : list JSValue) :
  resolveArray jsonData = Ok items ->
  items <> [] ->
  Forall (fun item => is_ok (validateRecord h item 0) = true) items ->
  exists records,
    validateDataStructure h jsonData = (Ok records, [])
    /\ Forall2 (fun item r => validateRecord h item 0 = Ok r) items records.
Proof.
  intros Hres Hne Hall.
  destruct (acceptedRecords_all items Hall) as [Hacc Hrej].
  exists (acceptedRecords h items). split; [|exact Hacc].
  rewrite (validateDataStructure_resolved h jsonData items Hres Hne).
  rewrite Hrej. unfold qualityGate. simpl.
  destruct (Nat.eqb_spec (length (acceptedRecords h items)) 0) as [Hnone|_];
    [|reflexivity].
  exfalso. apply Forall2_length in Hacc. rewrite Hnone in Hacc.
  destruct items; [congruence|discriminate].
Qed.

(** X5.  The early exits of [validateDataStructure]: the malformed-data
    error exactly for a truthy value that is no array and has no array
    under [data]; the empty-data error exactly for a falsy value or an
    empty array; the [{data: [...]}] envelope has the result of the bare
    array.  The result is never an empty dataset, and the no-valid-records
    error is never thrown: when every record is rejected the data-quality
    error comes first. *)
Theorem validateDataStructure_shape (jsonData : JSValue) :
  (fst (validateDataStructure h jsonData) = Throw MalformedData
   <-> truthy_value jsonData = true /\ isArray jsonData = false
       /\ isArray (get_property "data" jsonData) = false)
  /\ (fst (validateDataStructure h jsonData) = Throw EmptyData
      <-> truthy_value jsonData = false \/ resolveArray jsonData = Ok [])
  /\ (forall items, truthy_value jsonData = true -> isArray jsonData = false ->
      get_property "data" jsonData = JArr items ->
      validateDataStructure h jsonData = validateDataStructure h (JArr items))
  /\ fst (validateDataStructure h jsonData) <> Ok []
  /\ (forall items, resolveArray jsonData = Ok items ->
      Z.of_nat (length items) < 2 ^ 32 ->
      fst (validateDataStructure h jsonData) <> Throw NoValidRecords).
Proof.
  destruct (validateDataStructure_shape_cases h jsonData) as (H1 & H2 & H3).
  split; [exact H1|]. split; [exact H2|]. split; [exact H3|]. split.
  - intros E. apply (validateDataStructure_ok_nonempty _ _ E). reflexivity.
  - intros items Hres Hlen.
    exact (proj2 (validateDataStructure_never_empty jsonData items Hres Hlen)).
Qed.

End DatasetReports.

(** ** Sorting and processing, continued *)


Section SortStable.
Context {A : Type}.
Variable positive : A -> A -> bool.
Variable p : A -> bool.
Hypothesis ties : forall x y, p x = true -> p y = true -> positive x y = false.

(** The sort never moves an element past one it ties with: the elements
    that satisfy [p], any two of which tie, keep their order. *)
Lemma insert_filter (x : A) (l : list A) :
  List.filter p (JSArray.insert positive x l)
  = if p x then x :: List.filter p l else List.filter p l.
Proof.
  induction l as [|y rest IH]; simpl; [reflexivity|].
  destruct (positive x y) eqn:E; simpl.
  - rewrite IH. destruct (p x) eqn:Px, (p y) eqn:Py; try reflexivity.
    rewrite (ties x y Px Py) in E. discriminate.
  - reflexivity.
Qed.

Lemma sort_filter (l : list A) :
  List.filter p (JSArray.sort positive l) = List.filter p l.
Proof.
  induction l as [|x rest IH]; simpl; [reflexivity|].
  rewrite insert_filter, IH. reflexivity.
Qed.

End SortStable.

Section DateSorting.
Import Processing DateSpec.
Variable h : Host.

(** The comparator of [sortByDate] is consistent, in both directions. *)
Lemma compareByDate_asym (ascending : bool) (a b : BidRecord) :
  is_positive (compareByDate h ascending a b) = true ->
  is_positive (compareByDate h ascending b a) = false.
Proof.
  unfold compareByDate, date_diff, is_positive.
  destruct ascending, (Date_new h (bid_date a)), (Date_new h (bid_date b));
    try discriminate; rewrite Z.ltb_lt, Z.ltb_ge; lia.
Qed.

Lemma in_order_date_ordered (ascending : bool) (a b : BidRecord) :
  JSArray.in_order (fun a b => is_positive (compareByDate h ascending a b)) a b
  <-> date_ordered h ascending a b.
Proof.
  unfold JSArray.in_order, date_ordered, not_after, compareByDate, date_diff,
    is_positive.
  destruct ascending, (Date_new h (bid_date a)), (Date_new h (bid_date b));
    try tauto; rewrite Z.ltb_ge; lia.
Qed.

Lemma sortedByDate_in_order (ascending : bool) (l : list BidRecord) :
  LocallySorted
    (JSArray.in_order (fun a b => is_positive (compareByDate h ascending a b)))
    (sortedByDate h ascending l).
Proof. apply sort_sorted. intros a b. apply compareByDate_asym. Qed.

Lemma sortedByDate_ordered (ascending : bool) (l : list BidRecord) :
  LocallySorted (date_ordered h ascending) (sortedByDate h ascending l).
Proof.
  pose proof (sortedByDate_in_order ascending l) as S.
  induction S; constructor; auto. now apply in_order_date_ordered.
Qed.

(** Records of one date tie. *)
Lemma sortedByDate_stable (ascending : bool) (t : Z) (l : list BidRecord) :
  List.filter (dated h t) (sortedByDate h ascending l) = List.filter (dated h t) l.
Proof.
  apply sort_filter. intros x y. unfold dated, compareByDate, date_diff, is_positive.
  destruct (Date_new h (bid_date x)) as [tx|]; [|discriminate].
  destruct (Date_new h (bid_date y)) as [ty|]; [|discriminate].
  intros ->%Z.eqb_eq ->%Z.eqb_eq. destruct ascending; apply Z.ltb_ge; lia.
Qed.

(** Among records with readable dates the order is transitive, so the
    first record of a sorted array is in order with all that follow. *)
Lemma sorted_first (ascending : bool) (x : BidRecord) (l : list BidRecord) :
  Forall (valid_date h) (x :: l) ->
  LocallySorted (date_ordered h ascending) (x :: l) ->
  forall y, In y l -> date_ordered h ascending x y.
Proof.
  revert x. induction l as [|z l IH]; intros x Hv Hs y Hy; [destruct Hy|].
  inversion Hs as [| |? ? ? Hs1 Hxz]; subst.
  inversion Hv as [|? ? Vx Hv1]; subst.
  destruct Hy as [<-|Hy]; [exact Hxz|].
  pose proof (IH z Hv1 Hs1 y Hy) as Hzy.
  inversion Hv1 as [|? ? Vz Hv2]; subst.
  assert (Vy : valid_date h y)
    by (rewrite List.Forall_forall in Hv2; now apply Hv2).
  unfold date_ordered, not_after in *.
  destruct Vx as [tx Ex], Vz as [tz Ez], Vy as [ty Ey].
  rewrite Ex, Ez, Ey in *. destruct ascending; lia.
Qed.

Lemma sorted_split (ascending : bool) (l1 l2 : list BidRecord) :
  Forall (valid_date h) (l1 ++ l2) ->
  LocallySorted (date_ordered h ascending) (l1 ++ l2) ->
  forall a b, In a l1 -> In b l2 -> date_ordered h ascending a b.
Proof.
  induction l1 as [|x l1 IH]; intros Hv Hs a b Ha Hb; [destruct Ha|].
  simpl in Hv, Hs.
  assert (Hs' : LocallySorted (date_ordered h ascending) (l1 ++ l2))
    by (inversion Hs; [destruct l1; simpl in *; [subst; constructor|discriminate]
                      |congruence]).
  assert (Hv' : Forall (valid_date h) (l1 ++ l2)) by now inversion Hv.
  destruct Ha as [Ha|Ha]; [subst a|exact (IH Hv' Hs' a b Ha Hb)].
  apply (sorted_first ascending x (l1 ++ l2) Hv Hs).
  apply in_or_app. now right.
Qed.

(** With readable dates, an array has one rearrangement that is in date
    order and keeps the records of each date in their order: two arrays
    with the same records, both in date order, with the records of every
    date in the same order, are equal. *)
Lemma stable_order_unique (ascending : bool) (l1 l2 : list BidRecord) :
  Forall (valid_date h) l1 ->
  Permutation l1 l2 ->
  LocallySorted (date_ordered h ascending) l1 ->
  LocallySorted (date_ordered h ascending) l2 ->
  (forall t, List.filter (dated h t) l1 = List.filter (dated h t) l2) ->
  l1 = l2.
Proof.
  revert l2. induction l1 as [|x l1 IH]; intros l2 Hv P S1 S2 F.
  - symmetry. now apply Permutation_nil.
  - destruct l2 as [|y l2];
      [apply Permutation_sym, Permutation_nil in P; discriminate|].
    assert (Hv2 : Forall (valid_date h) (y :: l2))
      by (eapply Permutation_Forall; eassumption).
    assert (Vx : valid_date h x) by now inversion Hv.
    assert (Vy : valid_date h y) by now inversion Hv2.
    destruct Vx as [tx Ex], Vy as [ty Ey].
    assert (Ixy : date_ordered h ascending x y \/ x = y).
    { assert (I : In y (x :: l1))
        by (eapply Permutation_in; [apply Permutation_sym, P|now left]).
      destruct I as [->|I]; [now right|left].
      exact (sorted_first ascending x l1 Hv S1 y I). }
    assert (Iyx : date_ordered h ascending y x \/ x = y).
    { assert (I : In x (y :: l2))
        by (eapply Permutation_in; [apply P|now left]).
      destruct I as [->|I]; [now right|left].
      exact (sorted_first ascending y l2 Hv2 S2 x I). }
    assert (T : tx = ty).
    { destruct Ixy as [Oxy| ->]; [|congruence].
      destruct Iyx as [Oyx| ->]; [|congruence].
      unfold date_ordered, not_after in Oxy, Oyx.
      rewrite Ex, Ey in Oxy, Oyx. destruct ascending; lia. }
    subst ty.
    assert (Dx : dated h tx x = true) by (unfold dated; rewrite Ex; apply Z.eqb_refl).
    assert (Dy : dated h tx y = true) by (unfold dated; rewrite Ey; apply Z.eqb_refl).
    assert (Exy : x = y).
    { pose proof (F tx) as Ft. simpl in Ft. rewrite Dx, Dy in Ft.
      now injection Ft. }
    subst y. f_equal. apply IH.
    + now inversion Hv.
    + exact (Permutation_cons_inv P).
    + inversion S1; [constructor|assumption].
    + inversion S2; [constructor|assumption].
    + intros t. pose proof (F t) as Ft. simpl in Ft.
      destruct (dated h t x); [now injection Ft|exact Ft].
Qed.

(** X8.  On an array whose dates can all be read, [sortByDate] returns
    the reference it was given; the array is rearranged in place into date
    order, ascending or descending; records of one date keep their
    relative order in both directions; it is the only rearrangement that
    does both; no other array changes. *)
Theorem sortByDate_orders (data : ref) (ascending : bool) (σ : Heap) :
  (data < length σ)%nat ->
  Forall (valid_date h) (read σ data) ->
  let sorted := read (snd (sortByDate h data ascending σ)) data in
  fst (sortByDate h data ascending σ) = data
  /\ Permutation sorted (read σ data)
  /\ LocallySorted (date_ordered h ascending) sorted
  /\ (forall t, List.filter (dated h t) sorted
                = List.filter (dated h t) (read σ data))
  /\ (forall l, Permutation l (read σ data) ->
        LocallySorted (date_ordered h ascending) l ->
        (forall t, List.filter (dated h t) l
                   = List.filter (dated h t) (read σ data)) ->
        l = sorted)
  /\ forall r, r <> data ->
       read (snd (sortByDate h data ascending σ)) r = read σ r.
Proof.
  intros Hd Hv sorted.
  destruct (sortByDate_in_place h data ascending σ Hd) as (E1 & E2 & E3).
  subst sorted. split; [exact E1|]. rewrite E2.
  assert (P : Permutation (sortedByDate h ascending (read σ data)) (read σ data))
    by apply sort_perm.
  split; [exact P|]. split; [apply sortedByDate_ordered|].
  split; [intros t; apply sortedByDate_stable|]. split; [|exact E3].
  intros l Pl Sl Fl. symmetry. apply (stable_order_unique ascending).
  - eapply Permutation_Forall; [apply Permutation_sym, P|exact Hv].
  - now rewrite P, Pl.
  - apply sortedByDate_ordered.
  - exact Sl.
  - intros t. now rewrite sortedByDate_stable, Fl.
Qed.

End DateSorting.

(** ** Rounding *)

Section Rounding.
Import FloatOrder.

(** A finite number is a zero or has a mantissa and an exponent. *)
Lemma is_finite_Prim2SF (x : float) :
  Num.isFinite x = true <->
  (exists s, Prim2SF x = S754_zero s)
  \/ (exists s m e, Prim2SF x = S754_finite s m e).
Proof.
  unfold Num.isFinite, PrimFloat.is_finite, PrimFloat.is_nan, PrimFloat.is_infinity.
  rewrite !FloatAxioms.eqb_spec, FloatAxioms.abs_spec.
  pose proof (FloatAxioms.Prim2SF_valid x) as V.
  destruct (Prim2SF x) as [s|s| |s m e] eqn:E.
  - split; [intros _; left; now exists s|reflexivity].
  - split; [destruct s; discriminate|intros [[? H]|(? & ? & ? & H)]; discriminate].
  - split; [discriminate|intros [[? H]|(? & ? & ? & H)]; discriminate].
  - split; [intros _; right; now exists s, m, e|intros _].
    assert (R : SFeqb (S754_finite s m e) (S754_finite s m e) = true).
    { unfold SFeqb, SFcompare. rewrite Z.compare_refl, Pos.compare_refl.
      destruct s; reflexivity. }
    rewrite R. reflexivity.
Qed.


Lemma cond_Zopp_mul (s : bool) (a b : Z) : cond_Zopp s (a * b) = cond_Zopp s a * b.
Proof. destruct s; simpl; lia. Qed.

(** An integer below [2^53] in magnitude is a number, exactly. *)
Lemma Number_of_Z_key (z : Z) :
  0 < z < 2 ^ 53 ->
  exists m e, Prim2SF (Number_of_Z z) = S754_finite false m e
              /\ Zpos m * 2 ^ (e + 1074) = z * 2 ^ 1074.
Proof.
  intros Hz.
  destruct (FloatFacts.Number_of_Z_repr z Hz) as (m & e & R & _ & He & V).
  exists m, e. split; [exact R|]. rewrite V, <- Z.mul_assoc. f_equal.
  rewrite <- Z.pow_add_r by lia. f_equal. lia.
Qed.

Lemma Number_of_int_integer (n : Z) :
  n <> 0 -> - 2 ^ 53 < n < 2 ^ 53 -> is_integer (Number_of_int n) n.
Proof.
  intros Hn Hb. unfold is_integer, Number_of_int, order_key.
  destruct (Z.ltb_spec n 0) as [Hneg|Hpos].
  - destruct (Number_of_Z_key (- n) ltac:(lia)) as (m & e & R & K).
    rewrite (proj2 (is_finite_Prim2SF _)), FloatAxioms.opp_spec, R.
    + split; [reflexivity|]. cbn [SFopp SFkey negb cond_Zopp]. lia.
    + right. exists true, m, e. now rewrite FloatAxioms.opp_spec, R.
  - destruct (Number_of_Z_key n ltac:(lia)) as (m & e & R & K).
    rewrite (proj2 (is_finite_Prim2SF _)), R.
    + split; [reflexivity|]. cbn [SFkey cond_Zopp]. exact K.
    + right. exists false, m, e. exact R.
Qed.

(** [Math.round] returns the nearest integer. *)
Lemma Math_round_nearest (x : float) :
  Num.isFinite x = true ->
  exists n, is_integer (Math_round x) n /\ nearest_integer x n.
Proof.
  intros Hf. pose proof (FloatAxioms.Prim2SF_valid x) as V.
  pose proof (FloatFacts.pow2_pos 1074 ltac:(lia)) as P.
  apply is_finite_Prim2SF in Hf as Hx.
  destruct Hx as [[s E]|(s & m & e & E)].
  - exists 0. unfold Math_round, nearest_integer, is_integer, order_key.
    rewrite E, Hf, E. cbn [SFkey]. lia.
  - rewrite E in V. cbn [valid_binary] in V.
    pose proof (FloatFacts.bounded_lt m e V) as Hm.
    pose proof (FloatFacts.bounded_emin m e V) as He.
    set (a := cond_Zopp s (Zpos m)).
    assert (Ha : - 2 ^ 53 < a < 2 ^ 53) by (subst a; destruct s; simpl; lia).
    assert (K : order_key x = a * 2 ^ (e + 1074))
      by (unfold order_key; rewrite E; cbn [SFkey]; apply cond_Zopp_mul).
    unfold Math_round. rewrite E. fold a.
    destruct (Z.leb_spec 0 e) as [He0|He0].
    + exists (a * 2 ^ e). unfold is_integer, nearest_integer.
      rewrite Hf, K, Z.pow_add_r, Z.mul_assoc by lia.
      split; [split; reflexivity|]. 
      set (N := a * 2 ^ e * 2 ^ 1074).
      replace ((2 * (a * 2 ^ e) - 1) * 2 ^ 1074) with (2 * N - 2 ^ 1074)
        by (subst N; ring).
      replace ((2 * (a * 2 ^ e) + 1) * 2 ^ 1074) with (2 * N + 2 ^ 1074)
        by (subst N; ring).
      lia.
    + set (q := 2 ^ (- e)).
      assert (Hq : 2 <= q).
      { subst q. change 2 with (2 ^ 1) at 1. apply Z.pow_le_mono_r; lia. }
      replace (2 ^ (1 - e)) with (2 * q)
        by (subst q; rewrite <- Z.pow_succ_r by lia; f_equal; lia).
      set (n := (2 * a + q) / (2 * q)).
      assert (Lo : 2 * q * n <= 2 * a + q) by (apply Z.mul_div_le; lia).
      assert (Hi : 2 * a + q < 2 * q * (n + 1)).
      { replace (n + 1) with (Z.succ n) by lia. apply Z.mul_succ_div_gt. lia. }
      assert (Hn : - 2 ^ 53 < n < 2 ^ 53).
      { split.
        - destruct (Z.lt_ge_cases (- 2 ^ 53) n) as [|Hc]; [assumption|exfalso].
          assert (q * (n + 1) <= q * (- 2 ^ 53 + 1))
            by (apply Z.mul_le_mono_nonneg_l; lia).
          assert (q * 2 <= q * 2 ^ 53)
            by (apply Z.mul_le_mono_nonneg_l; lia).
          lia.
        - destruct (Z.lt_ge_cases n (2 ^ 53)) as [|Hc]; [assumption|exfalso].
          assert (q * 2 ^ 53 <= q * n)
            by (apply Z.mul_le_mono_nonneg_l; lia).
          assert (q * 2 <= q * 2 ^ 53)
            by (apply Z.mul_le_mono_nonneg_l; lia).
          lia. }
      exists n. split.
      * destruct (Z.eqb_spec n 0) as [E0|E0].
        -- rewrite E0. unfold is_integer, order_key.
           destruct s; split; reflexivity.
        -- now apply Number_of_int_integer.
      * unfold nearest_integer. rewrite K.
        set (p := 2 ^ (e + 1074)).
        assert (Hp : 0 < p) by (subst p; apply FloatFacts.pow2_pos; lia).
        assert (Pq : 2 ^ 1074 = q * p).
        { subst q p. rewrite <- Z.pow_add_r by lia. f_equal. lia. }
        rewrite Pq.
        replace ((2 * n - 1) * (q * p)) with ((2 * q * n - q) * p) by ring.
        replace ((2 * n + 1) * (q * p)) with ((2 * q * (n + 1) - q) * p) by ring.
        replace (2 * (a * p)) with (2 * a * p) by ring.
        split.
        -- apply Z.mul_le_mono_nonneg_r; lia.
        -- apply Z.mul_lt_mono_pos_r; lia.
Qed.

End Rounding.

Section ProcessingResult.
Import Processing DateSpec.
Variable h : Host.

(** [l.map((x, i) => f(x, i))] at position [i]. *)
Lemma map_from_lookup {A B : Type} (f : A -> nat -> B) (k i : nat) (l : list A) :
  JSArray.map_from f k l !! i = (fun x => f x (k + i)%nat) <$> l !! i.
Proof.
  revert k i. induction l as [|x rest IH]; intros k i; [reflexivity|].
  destruct i as [|i]; simpl.
  - now rewrite Nat.add_0_r.
  - rewrite IH. now replace (S k + i)%nat with (k + S i)%nat by lia.
Qed.

(** The array [processData] returns. *)
Lemma processData_value (data : ref) (σ : Heap) :
  (data < length σ)%nat ->
  fst (processData h data σ) = S (length σ)
  /\ read (snd (processData h data σ)) (fst (processData h data σ))
     = JSArray.mapi (enrichItem h)
         (map (cleanItem) (sortedByDate h true (read σ data))).
Proof.
  intros Hd. unfold processData, sortByDate, cleanData, enrichData, alloc.
  cbn [fst snd]. rewrite !length_app, length_write. cbn [length].
  split; [lia|].
  set (σ1 := write σ data (sortedByDate h true (read σ data))).
  assert (R1 : read σ1 data = sortedByDate h true (read σ data))
    by (apply read_write_same, Hd).
  assert (L1 : length σ1 = length σ) by apply length_write.
  assert (R2 : read (σ1 ++ [map (cleanItem) (read σ1 data)]) (length σ1)
               = map (cleanItem) (read σ1 data)).
  { unfold read. rewrite lookup_app_r by lia. now rewrite Nat.sub_diag. }
  rewrite <- L1. rewrite R2, R1.
  unfold read at 1. rewrite lookup_app_r by (rewrite length_app; simpl; lia).
  rewrite length_app. cbn [length].
  replace (length σ1 + 1 - (length σ1 + 1))%nat with 0%nat by lia.
  reflexivity.
Qed.

(** An order that looks at the dates only holds on every array with the
    same dates. *)
Lemma LocallySorted_map_eq {A B : Type} (f : A -> B) (R : A -> A -> Prop)
    (l l' : list A) :
  (forall a a' b b', f a = f a' -> f b = f b' -> R a b -> R a' b') ->
  map f l = map f l' -> LocallySorted R l -> LocallySorted R l'.
Proof.
  intros HR E S. revert l' E.
  induction S as [|a|a b rest S IH Hab]; intros l' E.
  - destruct l'; [constructor|discriminate].
  - destruct l' as [|a' [|? ?]]; try discriminate. constructor.
  - destruct l' as [|a' [|b' rest']]; try discriminate.
    simpl in E. injection E as Ea Eb Erest.
    constructor.
    + apply IH. simpl. now rewrite Eb, Erest.
    + exact (HR a a' b b' Ea Eb Hab).
Qed.

Lemma mapi_enrich_dates (l : list BidRecord) (k : nat) :
  map bid_date (JSArray.map_from (enrichItem h) k l) = map bid_date l.
Proof.
  revert k. induction l as [|x rest IH]; intros k; simpl; [reflexivity|].
  now rewrite IH.
Qed.

(** X9.  On an array whose dates can all be read, [processData] returns
    an array with one record per input record, made from the input in
    ascending date order, the records of one date in input order: the
    record at position [i] has the id [i + 1], the dates of its original
    untouched, the two names cleaned by [cleanString], and as its price
    the original's rounded to thousandths, that is the quotient by 1000 of
    the integer nearest to 1000 times the price (the greater one of two
    that are equally near).  The returned array is itself in date
    order. *)
Theorem processData_result (data : ref) (σ : Heap) :
  (data < length σ)%nat ->
  Forall (valid_date h) (read σ data) ->
  let out := read (snd (processData h data σ)) (fst (processData h data σ)) in
  exists sorted,
    Permutation sorted (read σ data)
    /\ LocallySorted (not_after h) sorted
    /\ (forall t, List.filter (dated h t) sorted
                  = List.filter (dated h t) (read σ data))
    /\ length out = length (read σ data)
    /\ LocallySorted (not_after h) out
    /\ forall i r, out !! i = Some r ->
       exists a d, sorted !! i = Some a
         /\ derived r = Some d /\ id d = (i + 1)%nat
         /\ bid_date r = bid_date a /\ bid_date_parsed r = bid_date_parsed a
         /\ user_name r = cleanString (user_name a)
         /\ power_company r = cleanString (power_company a)
         /\ (Num.isFinite (PrimFloat.mul (bid_price a) 1000%float) = true ->
             exists (n : Z) (thousandths : float),
               FloatOrder.nearest_integer (PrimFloat.mul (bid_price a) 1000%float) n
               /\ FloatOrder.is_integer thousandths n
               /\ bid_price r = PrimFloat.div thousandths 1000%float).
Proof.
  intros Hd Hv out.
  destruct (processData_value data σ Hd) as [_ E].
  fold out in E.
  exists (sortedByDate h true (read σ data)).
  split; [apply sort_perm|].
  split; [exact (sortedByDate_ordered h true (read σ data))|].
  split; [intros t; apply sortedByDate_stable|].
  split; [|split].
  - rewrite E. unfold JSArray.mapi.
    rewrite map_from_length, length_map. apply sort_length.
  - apply (LocallySorted_map_eq bid_date (not_after h)
             (sortedByDate h true (read σ data))).
    + unfold not_after. intros a a' b b' -> ->. tauto.
    + rewrite E. unfold JSArray.mapi. rewrite mapi_enrich_dates.
      rewrite map_map. reflexivity.
    + exact (sortedByDate_ordered h true (read σ data)).
  - intros i r Hi. rewrite E in Hi. unfold JSArray.mapi in Hi.
    rewrite map_from_lookup, list_lookup_fmap in Hi.
    destruct (sortedByDate h true (read σ data) !! i) as [a|]; [|discriminate].
    simpl in Hi. injection Hi as <-.
    exists a. eexists. split; [reflexivity|].
    split; [reflexivity|]. do 5 (split; [reflexivity|]).
    intros Hfin.
    destruct (Math_round_nearest _ Hfin) as (n & Hint & Hnear).
    exists n, (Math_round (PrimFloat.mul (bid_price a) 1000%float)).
    split; [exact Hnear|]. split; [exact Hint|reflexivity].
Qed.

End ProcessingResult.

Section Latest.
Import Processing DateSpec.
Variable h : Host.

(** The array [getLatestRecords] returns. *)
Lemma getLatestRecords_value (count : nat) (data processedData : option ref)
    (σ : Heap) (src : ref) :
  match data with Some d => Some d | None => processedData end = Some src ->
  (src < length σ)%nat ->
  (length σ <= fst (getLatestRecords h count data processedData σ))%nat
  /\ read (snd (getLatestRecords h count data processedData σ))
          (fst (getLatestRecords h count data processedData σ))
     = take count (sortedByDate h false (read σ src)).
Proof.
  intros Hsrc Hlt. unfold getLatestRecords. rewrite Hsrc.
  destruct (Nat.eqb_spec (length (read σ src)) 0) as [E0|Hne].
  - rewrite read_alloc_new. split; [simpl; lia|].
    destruct (read σ src); [|discriminate]. now destruct count.
  - unfold alloc, sortByDate. cbn [fst snd].
    rewrite length_write, length_app. cbn [length]. split; [lia|].
    set (σ1 := σ ++ [read σ src]).
    assert (L1 : length σ1 = (length σ + 1)%nat)
      by (subst σ1; rewrite length_app; reflexivity).
    assert (L : (length σ < length σ1)%nat) by lia.
    assert (R1 : read σ1 (length σ) = read σ src).
    { unfold read at 1. subst σ1. rewrite lookup_app_r by lia.
      now rewrite Nat.sub_diag. }
    rewrite read_write_same by exact L. rewrite R1.
    unfold read at 1. rewrite lookup_app_r by (rewrite length_write; lia).
    rewrite length_write.
    replace (length σ + 1 - length σ1)%nat with 0%nat by lia.
    reflexivity.
Qed.

Lemma LocallySorted_take {A : Type} (R : A -> A -> Prop) (k : nat) (l : list A) :
  LocallySorted R l -> LocallySorted R (take k l).
Proof.
  intros HS. revert k.
  induction HS as [|a|a b rest HS IH Hab]; intros k.
  - destruct k; constructor.
  - destruct k as [|[|k]]; constructor.
  - destruct k as [|[|k]]; try constructor.
    + exact (IH (S k)).
    + exact Hab.
Qed.

(** X10.  [getLatestRecords(count)] returns a new array and changes no
    existing one; the array holds min(count, n) records of the source,
    newest first; when every date can be read, no record left out is dated
    after a record returned. *)
Theorem getLatestRecords_result (count : nat) (data processedData : option ref)
    (σ : Heap) (src : ref) :
  match data with Some d => Some d | None => processedData end = Some src ->
  (src < length σ)%nat ->
  let out := read (snd (getLatestRecords h count data processedData σ))
                  (fst (getLatestRecords h count data processedData σ)) in
  (length σ <= fst (getLatestRecords h count data processedData σ))%nat
  /\ (forall r, (r < length σ)%nat ->
      read (snd (getLatestRecords h count data processedData σ)) r = read σ r)
  /\ length out = Nat.min count (length (read σ src))
  /\ LocallySorted (date_ordered h false) out
  /\ exists rest,
       Permutation (out ++ rest) (read σ src)
       /\ (Forall (valid_date h) (read σ src) ->
           forall a b, In a out -> In b rest -> not_after h b a).
Proof.
  intros Hsrc Hlt out.
  destruct (getLatestRecords_value count data processedData σ src Hsrc Hlt)
    as [Hfresh E].
  fold out in E. split; [exact Hfresh|].
  split; [intros r Hr; apply getLatestRecords_preserves, Hr|]. rewrite E.
  split; [rewrite length_take; unfold sortedByDate; now rewrite sort_length|].
  split; [apply LocallySorted_take, sortedByDate_ordered|].
  exists (drop count (sortedByDate h false (read σ src))).
  rewrite take_drop. split; [apply sort_perm|].
  intros Hv. apply (sorted_split h false).
  - rewrite take_drop. eapply Permutation_Forall; [|exact Hv].
    symmetry. apply sort_perm.
  - rewrite take_drop. apply sortedByDate_ordered.
Qed.

End Latest.

(** ** Filtering, continued *)


Section Includes.
Import SelectionSpec.

(** [includes] finds a contiguous piece. *)
Lemma Str_prefix_spec (sub s : string) :
  Str.prefix sub s = true <-> exists post, s = sub ++ post.
Proof.
  revert s. induction sub as [|a sub IH]; intros s.
  - split; [intros _; now exists s|reflexivity].
  - destruct s as [|b s]; simpl.
    + split; [discriminate|]. intros [post E]. discriminate.
    + rewrite andb_true_iff, N.eqb_eq, IH. split.
      * intros [-> [post ->]]. now exists post.
      * intros [post [= -> ->]]. split; [reflexivity|now exists post].
Qed.

Lemma includes_spec (sub s : string) :
  Str.includes sub s = true <-> contains sub s.
Proof.
  unfold contains. induction s as [|c s IH].
  - change (Str.includes sub []) with (Str.prefix sub [] || false).
    rewrite orb_false_r, Str_prefix_spec. split.
    + intros [post E]. now exists [], post.
    + intros (pre & post & E). destruct pre as [|? ?]; [|discriminate].
      now exists post.
  - change (Str.includes sub (c :: s))
      with (Str.prefix sub (c :: s) || Str.includes sub s).
    rewrite orb_true_iff, IH, Str_prefix_spec. split.
    + intros [[post E]|(pre & post & E)].
      * now exists [], post.
      * exists (c :: pre), post. simpl. now rewrite E.
    + intros (pre & post & E). destruct pre as [|c' pre].
      * left. now exists post.
      * right. exists pre, post. simpl in E. now injection E.
Qed.

End Includes.

Section Selection.
Import Analytics SelectionSpec.
Variable h : Host.

Lemma guard_iff (v : JSValue) (test : bool) (P : Prop) :
  (test = false <-> P) ->
  (truthy_value v && test = false <-> (supplied v -> P)).
Proof.
  unfold supplied. intros HP. destruct (truthy_value v); simpl.
  - rewrite HP. tauto.
  - split; [discriminate|reflexivity].
Qed.

(** The callback of [filter] decides [passes]. *)
Lemma keeps_passes (filters : Filters) (item : BidRecord) :
  keeps h filters item = true <-> passes h filters item.
Proof.
  unfold keeps, passes.
  rewrite <- (guard_iff (startDate filters)
                (date_lt (Date_new h (bid_date item))
                         (Date_new h (startDate filters)))).
  2:{ unfold date_lt.
      destruct (Date_new h (bid_date item)) as [t|],
        (Date_new h (startDate filters)) as [ts|];
        try (split; [discriminate|reflexivity]).
      rewrite Z.ltb_ge. split.
      - intros H ? ? [= <-] [= <-]. exact H.
      - intros H. now apply H. }
  rewrite <- (guard_iff (endDate filters)
                (date_gt (Date_new h (bid_date item))
                         (Date_new h (endDate filters)))).
  2:{ unfold date_gt, date_lt.
      destruct (Date_new h (bid_date item)) as [t|],
        (Date_new h (endDate filters)) as [te|];
        try (split; [discriminate|reflexivity]).
      rewrite Z.ltb_ge. split.
      - intros H ? ? [= <-] [= <-]. exact H.
      - intros H. now apply H. }
  rewrite <- (guard_iff (minPrice filters)
                (PrimFloat.ltb (bid_price item) (ToNumber h (minPrice filters))))
    by reflexivity.
  rewrite <- (guard_iff (maxPrice filters)
                (PrimFloat.ltb (ToNumber h (maxPrice filters)) (bid_price item)))
    by reflexivity.
  rewrite <- (guard_iff (userName filters)
                (negb (Str.includes (ToString h (userName filters))
                                    (user_name item))))
    by (rewrite negb_false_iff; apply includes_spec).
  rewrite <- (guard_iff (powerCompany filters)
                (negb (Str.includes (ToString h (powerCompany filters))
                                    (power_company item))))
    by (rewrite negb_false_iff; apply includes_spec).
  repeat match goal with
         | |- context [if ?c then false else _] => destruct c
         end; intuition congruence.
Qed.

(** The emptiness test changes nothing: an empty source filters to an
    empty array. *)
Lemma filterData_filter (filters : Filters)
    (data processedData : option (list BidRecord)) :
  filterData h filters data processedData
  = List.filter (keeps h filters) (default [] (sourceOf data processedData)).
Proof.
  unfold filterData.
  destruct (sourceOf data processedData) as [[|x rest]|]; reflexivity.
Qed.

(** X11.  [filterData] returns exactly the records of the source that
    pass every supplied filter, each as often as the source has it and in
    source order: the source with the records that do not pass taken
    out.  The date bounds are inclusive and exclude nothing when a date
    cannot be read, the price bounds exclude what is below or above them,
    the two names must contain the given texts. *)
Theorem filterData_selects (filters : Filters)
    (data processedData : option (list BidRecord)) (sourceData : list BidRecord) :
  sourceOf data processedData = Some sourceData ->
  exists selected : BidRecord -> bool,
    (forall item, selected item = true <-> passes h filters item)
    /\ filterData h filters data processedData = List.filter selected sourceData.
Proof.
  intros Hsrc. exists (keeps h filters).
  split; [intros item; apply keeps_passes|].
  unfold filterData. rewrite Hsrc.
  destruct sourceData as [|first rest]; reflexivity.
Qed.

Lemma filter_and {A : Type} (p q : A -> bool) (l : list A) :
  List.filter p (List.filter q l) = List.filter (fun x => p x && q x) l.
Proof.
  induction l as [|x rest IH]; simpl; [reflexivity|].
  destruct (q x); simpl; rewrite ?andb_true_r, ?andb_false_r.
  - destruct (p x); now rewrite IH.
  - exact IH.
Qed.

(** X12.  Filtering a filtered dataset selects by both filter sets; the
    order of two filterings does not matter, and filtering twice by the same
    filters is filtering once. *)
Theorem filterData_composes (f g : Filters) (records : list BidRecord)
    (processedData : option (list BidRecord)) :
  filterData h f (Some (filterData h g (Some records) processedData)) processedData
  = List.filter (fun item => keeps h f item && keeps h g item) records
  /\ filterData h f (Some (filterData h g (Some records) processedData))
       processedData
     = filterData h g (Some (filterData h f (Some records) processedData))
         processedData
  /\ filterData h f (Some (filterData h f (Some records) processedData))
       processedData
     = filterData h f (Some records) processedData.
Proof.
  rewrite !filterData_filter. simpl default. rewrite !filter_and.
  split; [reflexivity|]. split.
  - apply List.filter_ext. intros item. apply andb_comm.
  - apply List.filter_ext. intros item. now destruct (keeps h f item).
Qed.

Lemma truthy_not_nan (x : float) : Num.truthy x = true -> Num.isNaN x = false.
Proof.
  unfold Num.truthy, Num.isNaN. rewrite negb_true_iff, orb_false_iff. tauto.
Qed.

(** X13.  The price bounds are inclusive: with [minPrice = lo] and
    [maxPrice = hi], two numbers that are not zero, and no other filter, the
    records kept are those with [lo <= bid_price <= hi]. *)
Theorem filterData_price_range (lo hi : float) (records : list BidRecord)
    (processedData : option (list BidRecord)) :
  Num.truthy lo = true -> Num.truthy hi = true ->
  MedianSpec.all_numbers records ->
  filterData h (price_between lo hi) (Some records) processedData
  = List.filter (fun item => PrimFloat.leb lo (bid_price item)
                             && PrimFloat.leb (bid_price item) hi) records.
Proof.
  intros Hlo Hhi Hnum. rewrite filterData_filter. simpl default.
  pose proof (truthy_not_nan lo Hlo) as Nlo.
  pose proof (truthy_not_nan hi Hhi) as Nhi.
  induction Hnum as [|item rest Hitem _ IH]; [reflexivity|].
  simpl. rewrite IH. clear IH.
  assert (E : keeps h (price_between lo hi) item
              = PrimFloat.leb lo (bid_price item)
                && PrimFloat.leb (bid_price item) hi).
  { unfold keeps, price_between. simpl. rewrite Hlo, Hhi. simpl.
    rewrite <- (FloatFacts.ltb_false_leb (bid_price item) lo Hitem Nlo).
    rewrite <- (FloatFacts.ltb_false_leb hi (bid_price item) Nhi Hitem).
    destruct (PrimFloat.ltb (bid_price item) lo),
      (PrimFloat.ltb hi (bid_price item)); reflexivity. }
  rewrite E. reflexivity.
Qed.

End Selection.

(** ** The order of numbers *)


Section FloatOrderFacts.
Import FloatOrder.

(** The key of a finite number lies strictly between the keys of the
    infinities. *)
Lemma finite_key_bounds (m : positive) (e : Z) :
  bounded prec emax m e = true ->
  0 < Zpos m * 2 ^ (e + 1074) < 2 ^ 2100.
Proof.
  intros Hb.
  pose proof (FloatFacts.bounded_lt m e Hb) as Hm.
  pose proof (FloatFacts.bounded_emin m e Hb) as Hlo.
  destruct (FloatFacts.bounded_canonical m e Hb) as [_ Hhi].
  pose proof (FloatFacts.pow2_pos (e + 1074) ltac:(lia)) as Hp.
  assert (Hq : 2 ^ (e + 1074) <= 2 ^ 2045) by (apply Z.pow_le_mono_r; lia).
  split; [lia|].
  apply Z.lt_le_trans with (2 ^ 53 * 2 ^ 2045).
  - apply Z.le_lt_trans with (Zpos m * 2 ^ 2045).
    + apply Z.mul_le_mono_nonneg_l; lia.
    + apply Z.mul_lt_mono_pos_r; [apply FloatFacts.pow2_pos; lia|exact Hm].
  - rewrite <- Z.pow_add_r by lia. apply Z.pow_le_mono_r; lia.
Qed.

(** Comparison of numbers is comparison of their keys. *)
Lemma SFcompare_key (a b : spec_float) :
  valid_binary a = true -> valid_binary b = true ->
  a <> S754_nan -> b <> S754_nan ->
  SFcompare a b = Some (SFkey a ?= SFkey b).
Proof.
  intros Va Vb Na Nb.
  assert (CL : forall x y, x < y -> Some Lt = Some (x ?= y))
    by (intros x y Hxy; f_equal; symmetry; now apply Z.compare_lt_iff).
  assert (CG : forall x y, y < x -> Some Gt = Some (x ?= y))
    by (intros x y Hxy; f_equal; symmetry; now apply Z.compare_gt_iff).
  assert (P : 0 < 2 ^ 2100) by (apply FloatFacts.pow2_pos; lia).
  destruct a as [sa|sa| |sa ma ea], b as [sb|sb| |sb mb eb];
    try congruence; cbn [valid_binary] in Va, Vb;
    try pose proof (finite_key_bounds ma ea Va);
    try pose proof (finite_key_bounds mb eb Vb).
  - reflexivity.
  - destruct sb; unfold SFcompare, SFkey, cond_Zopp; [apply CG|apply CL]; lia.
  - destruct sb; unfold SFcompare, SFkey, cond_Zopp; [apply CG|apply CL]; lia.
  - destruct sa; unfold SFcompare, SFkey, cond_Zopp; [apply CL|apply CG]; lia.
  - destruct sa, sb; unfold SFcompare, SFkey, cond_Zopp;
      [now rewrite Z.compare_refl|apply CL; lia|apply CG; lia
      |now rewrite Z.compare_refl].
  - destruct sa, sb; unfold SFcompare, SFkey, cond_Zopp;
      (apply CL; lia) || (apply CG; lia).
  - destruct sa; unfold SFcompare, SFkey, cond_Zopp; [apply CL|apply CG]; lia.
  - destruct sa, sb; unfold SFcompare, SFkey, cond_Zopp;
      (apply CL; lia) || (apply CG; lia).
  - rewrite (FloatFacts.SFcompare_finite sa sb ma mb ea eb Va Vb). f_equal.
    pose proof (FloatFacts.bounded_emin ma ea Va).
    pose proof (FloatFacts.bounded_emin mb eb Vb).
    set (ez := Z.min ea eb).
    rewrite !FloatFacts.scaled_value by (subst ez; lia).
    unfold SFkey.
    assert (Hp : 0 < 2 ^ (ez + 1074)) by (apply FloatFacts.pow2_pos; subst ez; lia).
    assert (Ka : cond_Zopp sa (Zpos ma * 2 ^ (ea + 1074))
                 = cond_Zopp sa (Zpos ma * 2 ^ (ea - ez)) * 2 ^ (ez + 1074)).
    { replace (ea + 1074) with ((ea - ez) + (ez + 1074)) by lia.
      rewrite Z.pow_add_r by (subst ez; lia). destruct sa; unfold cond_Zopp; lia. }
    assert (Kb : cond_Zopp sb (Zpos mb * 2 ^ (eb + 1074))
                 = cond_Zopp sb (Zpos mb * 2 ^ (eb - ez)) * 2 ^ (ez + 1074)).
    { replace (eb + 1074) with ((eb - ez) + (ez + 1074)) by lia.
      rewrite Z.pow_add_r by (subst ez; lia). destruct sb; unfold cond_Zopp; lia. }
    rewrite Ka, Kb. clear Ka Kb.
    generalize (cond_Zopp sa (Zpos ma * 2 ^ (ea - ez))),
      (cond_Zopp sb (Zpos mb * 2 ^ (eb - ez))), (2 ^ (ez + 1074)), Hp.
    clear. intros x y c Hc. symmetry.
    destruct (Z.compare_spec x y) as [->|Hlt|Hgt].
    + apply Z.compare_refl.
    + apply Z.compare_lt_iff. now apply Z.mul_lt_mono_pos_r.
    + apply Z.compare_gt_iff. now apply Z.mul_lt_mono_pos_r.
Qed.

Lemma compare_key (x y : float) :
  Num.isNaN x = false -> Num.isNaN y = false ->
  SFcompare (Prim2SF x) (Prim2SF y) = Some (order_key x ?= order_key y).
Proof.
  intros Nx Ny. apply SFcompare_key.
  - apply Prim2SF_valid.
  - apply Prim2SF_valid.
  - now apply FloatFacts.is_nan_Prim2SF.
  - now apply FloatFacts.is_nan_Prim2SF.
Qed.

Lemma ltb_key (x y : float) :
  Num.isNaN x = false -> Num.isNaN y = false ->
  PrimFloat.ltb x y = (order_key x <? order_key y).
Proof.
  intros Nx Ny. rewrite FloatAxioms.ltb_spec. unfold SFltb, Z.ltb.
  now rewrite (compare_key x y Nx Ny).
Qed.

Lemma leb_key (x y : float) :
  Num.isNaN x = false -> Num.isNaN y = false ->
  PrimFloat.leb x y = (order_key x <=? order_key y).
Proof.
  intros Nx Ny. rewrite FloatAxioms.leb_spec. unfold SFleb, Z.leb.
  rewrite (compare_key x y Nx Ny).
  destruct (order_key x ?= order_key y); reflexivity.
Qed.

End FloatOrderFacts.

(** ** Summary statistics, continued *)

Section Extremes.
Import Analytics FloatOrder.

Lemma zero_key (x : float) (s : bool) :
  SF64classify (Prim2SF x) = (if s then NZero else PZero) -> order_key x = 0.
Proof.
  unfold order_key, SF64classify, SFclassify.
  destruct (Prim2SF x) as [s'|s'| |s' m e]; intros H.
  - reflexivity.
  - destruct s, s'; discriminate.
  - destruct s; discriminate.
  - destruct s, s'; destruct (Z.pos (digits2_pos m) =? prec); discriminate.
Qed.

Lemma negative_zero_key (x : float) : is_negative_zero x = true -> order_key x = 0.
Proof.
  unfold is_negative_zero. rewrite FloatAxioms.classify_spec. intros H.
  apply (zero_key x true). destruct (SF64classify (Prim2SF x)); congruence.
Qed.

Lemma positive_zero_key (x : float) : is_positive_zero x = true -> order_key x = 0.
Proof.
  unfold is_positive_zero. rewrite FloatAxioms.classify_spec. intros H.
  apply (zero_key x false). destruct (SF64classify (Prim2SF x)); congruence.
Qed.

(** The loop of [Math.min]: the result is the start value or an element,
    and its key is the least of their keys. *)
Lemma Math_min_from_spec (xs : list float) (lowest : float) :
  Num.isNaN lowest = false ->
  Forall (fun x => Num.isNaN x = false) xs ->
  let r := Math_min_from lowest xs in
  Num.isNaN r = false
  /\ (r = lowest \/ In r xs)
  /\ order_key r <= order_key lowest
  /\ Forall (fun x => order_key r <= order_key x) xs.
Proof.
  revert lowest. induction xs as [|x rest IH]; intros lowest Nl Nxs; simpl.
  - repeat split; [exact Nl|now left|lia|constructor].
  - inversion Nxs as [|? ? Nx Nrest]; subst. rewrite Nx.
    destruct (is_negative_zero x && is_positive_zero lowest) eqn:Ez.
    + apply andb_true_iff in Ez. destruct Ez as [Zx Zl].
      apply negative_zero_key in Zx. apply positive_zero_key in Zl.
      destruct (IH x Nx Nrest) as (Nr & Hin & Hle & Hall).
      split; [exact Nr|]. split; [right; destruct Hin; [now left|now right]|].
      split; [lia|]. constructor; assumption.
    + destruct (PrimFloat.ltb x lowest) eqn:El.
      * rewrite (ltb_key x lowest Nx Nl) in El. apply Z.ltb_lt in El.
        destruct (IH x Nx Nrest) as (Nr & Hin & Hle & Hall).
        split; [exact Nr|]. split; [right; destruct Hin; [now left|now right]|].
        split; [lia|]. constructor; assumption.
      * rewrite (ltb_key x lowest Nx Nl) in El. apply Z.ltb_ge in El.
        destruct (IH lowest Nl Nrest) as (Nr & Hin & Hle & Hall).
        split; [exact Nr|]. split; [destruct Hin; [now left|right; now right]|].
        split; [exact Hle|]. constructor; [lia|assumption].
Qed.

Lemma Math_max_from_spec (xs : list float) (highest : float) :
  Num.isNaN highest = false ->
  Forall (fun x => Num.isNaN x = false) xs ->
  let r := Math_max_from highest xs in
  Num.isNaN r = false
  /\ (r = highest \/ In r xs)
  /\ order_key highest <= order_key r
  /\ Forall (fun x => order_key x <= order_key r) xs.
Proof.
  revert highest. induction xs as [|x rest IH]; intros highest Nl Nxs; simpl.
  - repeat split; [exact Nl|now left|lia|constructor].
  - inversion Nxs as [|? ? Nx Nrest]; subst. rewrite Nx.
    destruct (is_positive_zero x && is_negative_zero highest) eqn:Ez.
    + apply andb_true_iff in Ez. destruct Ez as [Zx Zl].
      apply positive_zero_key in Zx. apply negative_zero_key in Zl.
      destruct (IH x Nx Nrest) as (Nr & Hin & Hle & Hall).
      split; [exact Nr|]. split; [right; destruct Hin; [now left|now right]|].
      split; [lia|]. constructor; assumption.
    + destruct (PrimFloat.ltb highest x) eqn:El.
      * rewrite (ltb_key highest x Nl Nx) in El. apply Z.ltb_lt in El.
        destruct (IH x Nx Nrest) as (Nr & Hin & Hle & Hall).
        split; [exact Nr|]. split; [right; destruct Hin; [now left|now right]|].
        split; [lia|]. constructor; assumption.
      * rewrite (ltb_key highest x Nl Nx) in El. apply Z.ltb_ge in El.
        destruct (IH highest Nl Nrest) as (Nr & Hin & Hle & Hall).
        split; [exact Nr|]. split; [destruct Hin; [now left|right; now right]|].
        split; [exact Hle|]. constructor; [lia|assumption].
Qed.

Lemma key_range (x : float) :
  Num.isNaN x = false -> - 2 ^ 2100 <= order_key x <= 2 ^ 2100.
Proof.
  intros Nx. apply FloatFacts.is_nan_Prim2SF in Nx.
  pose proof (Prim2SF_valid x) as V. unfold order_key.
  assert (P : 0 < 2 ^ 2100) by (apply FloatFacts.pow2_pos; lia).
  destruct (Prim2SF x) as [s|s| |s m e]; [| |congruence|];
    unfold SFkey, cond_Zopp.
  - lia.
  - destruct s; lia.
  - pose proof (finite_key_bounds m e V). destruct s; lia.
Qed.

(** Only the infinities have the extreme keys. *)
Lemma key_top (x : float) :
  Num.isNaN x = false -> 2 ^ 2100 <= order_key x -> x = PrimFloat.infinity.
Proof.
  intros Nx Hk. apply FloatFacts.is_nan_Prim2SF in Nx.
  pose proof (Prim2SF_valid x) as V. unfold order_key in Hk.
  assert (P : 0 < 2 ^ 2100) by (apply FloatFacts.pow2_pos; lia).
  apply Prim2SF_inj.
  destruct (Prim2SF x) as [s|s| |s m e]; [| |congruence|];
    unfold SFkey, cond_Zopp in Hk.
  - lia.
  - destruct s; [lia|reflexivity].
  - pose proof (finite_key_bounds m e V). destruct s; lia.
Qed.

Lemma key_bottom (x : float) :
  Num.isNaN x = false -> order_key x <= - 2 ^ 2100 -> x = PrimFloat.neg_infinity.
Proof.
  intros Nx Hk. apply FloatFacts.is_nan_Prim2SF in Nx.
  pose proof (Prim2SF_valid x) as V. unfold order_key in Hk.
  assert (P : 0 < 2 ^ 2100) by (apply FloatFacts.pow2_pos; lia).
  apply Prim2SF_inj.
  destruct (Prim2SF x) as [s|s| |s m e]; [| |congruence|];
    unfold SFkey, cond_Zopp in Hk.
  - lia.
  - destruct s; [reflexivity|lia].
  - pose proof (finite_key_bounds m e V). destruct s; lia.
Qed.

Lemma Math_min_spec (xs : list float) :
  xs <> [] -> Forall (fun x => Num.isNaN x = false) xs ->
  In (Math_min xs) xs
  /\ Forall (fun x => PrimFloat.leb (Math_min xs) x = true) xs.
Proof.
  intros Hne Nxs. unfold Math_min.
  destruct (Math_min_from_spec xs PrimFloat.infinity eq_refl Nxs)
    as (Nr & Hin & _ & Hall).
  set (r := Math_min_from PrimFloat.infinity xs) in *.
  split.
  - destruct Hin as [E|Hin]; [|exact Hin].
    destruct xs as [|x rest]; [congruence|].
    inversion Hall as [|? ? Hx _]; subst. inversion Nxs as [|? ? Nx _]; subst.
    rewrite E in Hx. left. rewrite E. apply key_top; [exact Nx|exact Hx].
  - rewrite List.Forall_forall in *. intros x Hx.
    rewrite (leb_key r x Nr (Nxs x Hx)). apply Z.leb_le. now apply Hall.
Qed.

Lemma Math_max_spec (xs : list float) :
  xs <> [] -> Forall (fun x => Num.isNaN x = false) xs ->
  In (Math_max xs) xs
  /\ Forall (fun x => PrimFloat.leb x (Math_max xs) = true) xs.
Proof.
  intros Hne Nxs. unfold Math_max.
  destruct (Math_max_from_spec xs PrimFloat.neg_infinity eq_refl Nxs)
    as (Nr & Hin & _ & Hall).
  set (r := Math_max_from PrimFloat.neg_infinity xs) in *.
  split.
  - destruct Hin as [E|Hin]; [|exact Hin].
    destruct xs as [|x rest]; [congruence|].
    inversion Hall as [|? ? Hx _]; subst. inversion Nxs as [|? ? Nx _]; subst.
    rewrite E in Hx. left. rewrite E. apply key_bottom; [exact Nx|exact Hx].
  - rewrite List.Forall_forall in *. intros x Hx.
    rewrite (leb_key x r (Nxs x Hx) Nr). apply Z.leb_le. now apply Hall.
Qed.

(** One NaN among the arguments makes the result NaN. *)
Lemma Math_min_from_nan (xs : list float) (lowest : float) :
  Exists (fun x => Num.isNaN x = true) xs ->
  Math_min_from lowest xs = PrimFloat.nan.
Proof.
  intros H. revert lowest. induction H as [x rest Hx|x rest _ IH]; intros lowest;
    simpl.
  - now rewrite Hx.
  - destruct (Num.isNaN x); [reflexivity|].
    destruct (is_negative_zero x && is_positive_zero lowest); [apply IH|].
    destruct (PrimFloat.ltb x lowest); apply IH.
Qed.

Lemma Math_max_from_nan (xs : list float) (highest : float) :
  Exists (fun x => Num.isNaN x = true) xs ->
  Math_max_from highest xs = PrimFloat.nan.
Proof.
  intros H. revert highest. induction H as [x rest Hx|x rest _ IH]; intros highest;
    simpl.
  - now rewrite Hx.
  - destruct (Num.isNaN x); [reflexivity|].
    destruct (is_positive_zero x && is_negative_zero highest); [apply IH|].
    destruct (PrimFloat.ltb highest x); apply IH.
Qed.

End Extremes.

Section PriceBounds.
Import Analytics MedianSpec.
Variable h : Host.

(** The statistics of a dataset with records. *)
Lemma getDataStatistics_some (data processedData : option (list BidRecord))
    (st : Statistics) :
  getDataStatistics h data processedData = Some st ->
  exists sourceData,
    sourceOf data processedData = Some sourceData /\ sourceData <> []
    /\ st = {| totalRecords := length sourceData;
               priceStats :=
                 {| min := Math_min (map bid_price sourceData);
                    max := Math_max (map bid_price sourceData);
                    average :=
                      PrimFloat.div (sum (map bid_price sourceData))
                        (Number_of_nat (length (map bid_price sourceData)));
                    median := calculateMedian (map bid_price sourceData) |};
               earliest :=
                 date_extreme Z.min None
                   (map (fun item => Date_new h (bid_date item)) sourceData);
               latest :=
                 date_extreme Z.max None
                   (map (fun item => Date_new h (bid_date item)) sourceData);
               uniqueUsers := length (remove_dups (map user_name sourceData));
               uniqueCompanies :=
                 length (remove_dups (map power_company sourceData)) |}.
Proof.
  unfold getDataStatistics.
  destruct (sourceOf data processedData) as [[|x rest]|]; try discriminate.
  intros [= <-]. exists (x :: rest). repeat split. discriminate.
Qed.

(** X14.  On prices without NaN the minimum and the maximum of the
    statistics are prices of the dataset and bound every price; one NaN
    price makes both NaN. *)
Theorem getDataStatistics_price_bounds
    (data processedData : option (list BidRecord))
    (sourceData : list BidRecord) (st : Statistics) :
  sourceOf data processedData = Some sourceData ->
  getDataStatistics h data processedData = Some st ->
  (all_numbers sourceData ->
   In (min (priceStats st)) (map bid_price sourceData)
   /\ In (max (priceStats st)) (map bid_price sourceData)
   /\ Forall (fun item =>
                le (min (priceStats st)) (bid_price item)
                /\ le (bid_price item) (max (priceStats st))) sourceData)
  /\ (Exists (fun item => Num.isNaN (bid_price item) = true) sourceData ->
      min (priceStats st) = PrimFloat.nan /\ max (priceStats st) = PrimFloat.nan).
Proof.
  intros Hsrc Hst.
  destruct (getDataStatistics_some data processedData st Hst)
    as (src & Hsrc' & Hne & ->).
  rewrite Hsrc in Hsrc'. injection Hsrc' as <-. simpl.
  split.
  - intros Hnum.
    assert (Np : Forall (fun x => Num.isNaN x = false) (map bid_price sourceData))
      by (apply List.Forall_map; exact Hnum).
    assert (Hne' : map bid_price sourceData <> [])
      by (destruct sourceData; [congruence|discriminate]).
    destruct (Math_min_spec _ Hne' Np) as [Imin Lmin].
    destruct (Math_max_spec _ Hne' Np) as [Imax Lmax].
    split; [exact Imin|]. split; [exact Imax|].
    rewrite List.Forall_map in Lmin, Lmax.
    rewrite List.Forall_forall in *. intros item Hitem.
    split; [now apply Lmin|now apply Lmax].
  - intros Hnan.
    assert (Ep : Exists (fun x => Num.isNaN x = true) (map bid_price sourceData))
      by (apply List.Exists_map; exact Hnan).
    split; [apply Math_min_from_nan|apply Math_max_from_nan]; exact Ep.
Qed.

End PriceBounds.

Section Counts.
Import Analytics DateSpec.
Variable h : Host.

Lemma length_remove_dups (l : list string) :
  (length (remove_dups l) <= length l)%nat
  /\ (l <> [] -> 1 <= length (remove_dups l))%nat.
Proof.
  induction l as [|x rest [IH1 IH2]]; simpl; [split; [lia|congruence]|].
  destruct (decide_rel elem_of x rest) as [Hin|Hout]; simpl.
  - split; [lia|]. intros _. apply IH2. intros ->. inversion Hin.
  - split; lia.
Qed.

(** The size of [new Set(names)]. *)
Lemma distinct_count (l : list string) :
  length (remove_dups l) = size (list_to_set l : gset string).
Proof.
  rewrite <- (size_list_to_set (C := gset string) (remove_dups l))
    by apply NoDup_remove_dups.
  f_equal. apply set_eq. intros x.
  rewrite !elem_of_list_to_set. apply elem_of_remove_dups.
Qed.

(** X15.  [getDataStatistics] returns [null] exactly when there is no
    dataset or an empty one; otherwise [totalRecords] is the number of
    records, and [uniqueUsers] and [uniqueCompanies] are the numbers of
    distinct names, between 1 and [totalRecords]. *)
Theorem getDataStatistics_counts (data processedData : option (list BidRecord)) :
  (getDataStatistics h data processedData = None
   <-> sourceOf data processedData = None \/ sourceOf data processedData = Some [])
  /\ forall sourceData st,
       sourceOf data processedData = Some sourceData ->
       getDataStatistics h data processedData = Some st ->
       totalRecords st = length sourceData
       /\ uniqueUsers st
          = size (list_to_set (map user_name sourceData) : gset string)
       /\ uniqueCompanies st
          = size (list_to_set (map power_company sourceData) : gset string)
       /\ (1 <= uniqueUsers st <= totalRecords st)%nat
       /\ (1 <= uniqueCompanies st <= totalRecords st)%nat.
Proof.
  split.
  - unfold getDataStatistics.
    destruct (sourceOf data processedData) as [[|x rest]|]; simpl.
    + split; [now right|reflexivity].
    + split; [discriminate|]. intros [?|?]; discriminate.
    + split; [now left|reflexivity].
  - intros sourceData st Hsrc Hst.
    destruct (getDataStatistics_some h data processedData st Hst)
      as (src & Hsrc' & Hne & ->).
    rewrite Hsrc in Hsrc'. injection Hsrc' as <-. simpl.
    split; [reflexivity|]. split; [apply distinct_count|].
    split; [apply distinct_count|].
    destruct (length_remove_dups (map user_name sourceData)) as [U1 U2].
    destruct (length_remove_dups (map power_company sourceData)) as [C1 C2].
    rewrite length_map in U1, C1.
    split; (split; [|assumption]).
    + apply U2. destruct sourceData; [congruence|discriminate].
    + apply C2. destruct sourceData; [congruence|discriminate].
Qed.

(** [Math.min(...dates)] of dates that can all be read is the least of
    them; likewise [Math.max]. *)
Lemma date_extreme_min (dates : list (option Z)) (acc : option Z) :
  Forall is_Some dates -> (dates <> [] \/ is_Some acc) ->
  exists m, date_extreme Z.min acc dates = Some m
    /\ (In (Some m) dates \/ acc = Some m)
    /\ (forall a, acc = Some a -> m <= a)
    /\ Forall (fun d => forall t, d = Some t -> m <= t) dates.
Proof.
  intros Hv. revert acc. induction Hv as [|d rest [t ->] _ IH]; intros acc Hne.
  - destruct Hne as [?|[a ->]]; [congruence|]. exists a. simpl.
    split; [reflexivity|]. split; [now right|]. split; [|constructor].
    intros ? [= <-]. lia.
  - simpl.
    destruct (IH (Some (match acc with Some a => Z.min a t | None => t end)))
      as (m & E & Hin & Hacc & Hall); [right; eexists; reflexivity|].
    exists m. split; [exact E|].
    specialize (Hacc _ eq_refl).
    split; [|split].
    + destruct Hin as [Hin|Hm]; [left; now right|].
      injection Hm as Hm. destruct acc as [a|].
      * destruct (Z.min_spec a t) as [[_ Ea]|[_ Ea]]; rewrite Ea in Hm.
        -- right. now subst.
        -- left. left. now subst.
      * left. left. now subst.
    + intros a ->. lia.
    + constructor; [|exact Hall]. intros t' [= <-].
      destruct acc; lia.
Qed.

Lemma date_extreme_max (dates : list (option Z)) (acc : option Z) :
  Forall is_Some dates -> (dates <> [] \/ is_Some acc) ->
  exists m, date_extreme Z.max acc dates = Some m
    /\ (In (Some m) dates \/ acc = Some m)
    /\ (forall a, acc = Some a -> a <= m)
    /\ Forall (fun d => forall t, d = Some t -> t <= m) dates.
Proof.
  intros Hv. revert acc. induction Hv as [|d rest [t ->] _ IH]; intros acc Hne.
  - destruct Hne as [?|[a ->]]; [congruence|]. exists a. simpl.
    split; [reflexivity|]. split; [now right|]. split; [|constructor].
    intros ? [= <-]. lia.
  - simpl.
    destruct (IH (Some (match acc with Some a => Z.max a t | None => t end)))
      as (m & E & Hin & Hacc & Hall); [right; eexists; reflexivity|].
    exists m. split; [exact E|].
    specialize (Hacc _ eq_refl).
    split; [|split].
    + destruct Hin as [Hin|Hm]; [left; now right|].
      injection Hm as Hm. destruct acc as [a|].
      * destruct (Z.max_spec a t) as [[_ Ea]|[_ Ea]]; rewrite Ea in Hm.
        -- left. left. now subst.
        -- right. now subst.
      * left. left. now subst.
    + intros a ->. lia.
    + constructor; [|exact Hall]. intros t' [= <-].
      destruct acc; lia.
Qed.

Lemma date_extreme_invalid (pick : Z -> Z -> Z) (dates : list (option Z))
    (acc : option Z) :
  In None dates -> date_extreme pick acc dates = None.
Proof.
  revert acc. induction dates as [|d rest IH]; intros acc Hin; [destruct Hin|].
  simpl. destruct d as [t|]; [|reflexivity].
  apply IH. destruct Hin; [discriminate|assumption].
Qed.

(** X16.  When every date can be read, [earliest] and [latest] are the
    dates of two records of the dataset and bound every date; one date that
    cannot be read makes both invalid. *)
Theorem getDataStatistics_date_range
    (data processedData : option (list BidRecord))
    (sourceData : list BidRecord) (st : Statistics) :
  sourceOf data processedData = Some sourceData ->
  getDataStatistics h data processedData = Some st ->
  (Forall (valid_date h) sourceData ->
   exists lo hi,
     earliest st = Some lo /\ latest st = Some hi
     /\ (exists a, In a sourceData /\ Date_new h (bid_date a) = Some lo)
     /\ (exists b, In b sourceData /\ Date_new h (bid_date b) = Some hi)
     /\ Forall (fun item => forall t, Date_new h (bid_date item) = Some t ->
                                      lo <= t <= hi) sourceData)
  /\ (Exists (fun item => Date_new h (bid_date item) = None) sourceData ->
      earliest st = None /\ latest st = None).
Proof.
  intros Hsrc Hst.
  destruct (getDataStatistics_some h data processedData st Hst)
    as (src & Hsrc' & Hne & ->).
  rewrite Hsrc in Hsrc'. injection Hsrc' as <-. simpl.
  set (dates := map (fun item => Date_new h (bid_date item)) sourceData).
  split.
  - intros Hv.
    assert (Dv : Forall is_Some dates) by (apply List.Forall_map; exact Hv).
    assert (Dne : dates <> [] \/ is_Some (@None Z))
      by (left; subst dates; destruct sourceData; [congruence|discriminate]).
    destruct (date_extreme_min dates None Dv Dne) as (lo & Elo & Ilo & _ & Alo).
    destruct (date_extreme_max dates None Dv Dne) as (hi & Ehi & Ihi & _ & Ahi).
    exists lo, hi. split; [exact Elo|]. split; [exact Ehi|].
    destruct Ilo as [Ilo|?]; [|discriminate].
    destruct Ihi as [Ihi|?]; [|discriminate].
    subst dates. apply List.in_map_iff in Ilo, Ihi.
    destruct Ilo as (a & Ea & Ia). destruct Ihi as (b & Eb & Ib).
    split; [now exists a|]. split; [now exists b|].
    rewrite List.Forall_map in Alo, Ahi. rewrite List.Forall_forall in *.
    intros item Hitem t Ht. split; [now apply (Alo item)|now apply (Ahi item)].
  - intros Hinv.
    assert (Hin : In None dates).
    { apply List.Exists_exists in Hinv. destruct Hinv as (item & Hitem & E).
      subst dates. apply List.in_map_iff. now exists item. }
    split; apply date_extreme_invalid; exact Hin.
Qed.

End Counts.

Section MedianCentral.
Import Analytics MedianSpec FloatOrder.


(** The sorted copy of numbers is in the order of their keys, which is
    transitive. *)
Lemma sorted_keys (numbers : list float) :
  Forall (fun x => Num.isNaN x = false) numbers ->
  StronglySorted key_le (JSArray.sort minus_positive numbers).
Proof.
  intros Hnum.
  assert (Hs : Forall (fun x => Num.isNaN x = false)
                 (JSArray.sort minus_positive numbers)).
  { eapply Permutation_Forall; [|exact Hnum]. symmetry. apply sort_perm. }
  pose proof (sort_prices_ascending numbers) as S.
  apply Sorted_StronglySorted; [intros a b c; unfold key_le; lia|].
  apply Sorted_LocallySorted_iff.
  induction S as [|a|a b rest S IH Hab]; constructor.
  - apply IH. now inversion Hs.
  - inversion Hs as [|? ? Na Hrest]; subst.
    inversion Hrest as [|? ? Nb _]; subst.
    unfold ascending in Hab. rewrite (ltb_key b a Nb Na) in Hab.
    apply Z.ltb_ge in Hab. exact Hab.
Qed.

(** An element of a sorted array bounds what stands before it and what
    stands after it. *)
Lemma sorted_middle (l1 l2 : list float) (x : float) :
  StronglySorted key_le (l1 ++ x :: l2) ->
  Forall (fun a => key_le a x) (l1 ++ [x]) /\ Forall (key_le x) (x :: l2).
Proof.
  induction l1 as [|a l1 IH]; simpl; intros S.
  - apply StronglySorted_inv in S. destruct S as [_ H].
    split; constructor; try constructor; unfold key_le; try lia. exact H.
  - apply StronglySorted_inv in S. destruct S as [S H].
    destruct (IH S) as [IH1 IH2]. split; [|exact IH2].
    constructor; [|exact IH1].
    rewrite List.Forall_forall in H. apply H. apply in_or_app. right. now left.
Qed.

Lemma filter_all_length {A : Type} (p : A -> bool) (l : list A) :
  Forall (fun a => p a = true) l -> length (List.filter p l) = length l.
Proof.
  induction 1 as [|a l Ha _ IH]; simpl; [reflexivity|].
  rewrite Ha. simpl. now rewrite IH.
Qed.

Lemma filter_length_perm {A : Type} (p : A -> bool) (l l' : list A) :
  Permutation l l' -> length (List.filter p l) = length (List.filter p l').
Proof.
  induction 1 as [|a l l' _ IH|a b l|l l' l'' _ IH1 _ IH2]; simpl.
  - reflexivity.
  - destruct (p a); simpl; now rewrite IH.
  - destruct (p a), (p b); reflexivity.
  - now rewrite IH1.
Qed.

Lemma split_at (l : list float) (i : nat) :
  (i < length l)%nat ->
  exists l1 l2, l = l1 ++ nth i l PrimFloat.nan :: l2 /\ length l1 = i.
Proof.
  intros Hi. exists (take i l), (drop (S i) l). split.
  - symmetry. apply take_drop_middle.
    destruct (lookup_lt_is_Some_2 l i Hi) as [x Hx].
    now rewrite (nth_lookup_Some l i PrimFloat.nan x Hx).
  - rewrite length_take. lia.
Qed.

(** X17.  The median is central.  For prices without NaN there are two
    prices [lo <= hi] of the dataset, the same when the count is odd, such
    that the median is [lo] (odd count) or [(lo + hi) / 2] (even count), at
    least half of the prices are [<= lo] and at least half are [>= hi]. *)
Theorem calculateMedian_central (numbers : list float) :
  numbers <> [] ->
  Forall (fun x => Num.isNaN x = false) numbers ->
  exists lo hi,
    In lo numbers /\ In hi numbers /\ le lo hi
    /\ calculateMedian numbers
       = (if Nat.even (length numbers)
          then PrimFloat.div (PrimFloat.add lo hi) 2%float else lo)
    /\ (Nat.even (length numbers) = false -> lo = hi)
    /\ (length numbers
        <= 2 * length (List.filter (fun x => PrimFloat.leb x lo) numbers))%nat
    /\ (length numbers
        <= 2 * length (List.filter (fun x => PrimFloat.leb hi x) numbers))%nat.
Proof.
  intros Hne Hnum.
  set (sorted := JSArray.sort minus_positive numbers).
  assert (Hperm : Permutation sorted numbers) by apply sort_perm.
  assert (Hlen : length sorted = length numbers) by apply sort_length.
  assert (Hs : Forall (fun x => Num.isNaN x = false) sorted).
  { eapply Permutation_Forall; [|exact Hnum]. now symmetry. }
  pose proof (sorted_keys numbers Hnum) as SS. fold sorted in SS.
  set (k := length numbers) in *.
  assert (Hk : (0 < k)%nat) by (subst k; destruct numbers; [congruence|simpl; lia]).
  set (i := ((k - 1) / 2)%nat).
  set (j := (k / 2)%nat).
  assert (Hi : (i < k)%nat).
  { subst i. apply Nat.Div0.div_lt_upper_bound. lia. }
  assert (Hj : (j < k)%nat).
  { subst j. apply Nat.Div0.div_lt_upper_bound. lia. }
  assert (Hij : Nat.even k = true /\ i = (j - 1)%nat /\ S i = j /\ k = (2 * j)%nat
                \/ Nat.even k = false /\ i = j /\ k = (2 * j + 1)%nat).
  { destruct (Nat.even k) eqn:Ev.
    - left. apply Nat.even_spec in Ev. destruct Ev as [m Hm].
      assert (j = m) by (subst j; rewrite Hm, Nat.mul_comm; apply Nat.div_mul; lia).
      assert (i = (m - 1)%nat).
      { subst i. rewrite Hm. destruct m as [|m]; [lia|].
        replace (2 * S m - 1)%nat with (1 + m * 2)%nat by lia.
        rewrite Nat.div_add by lia. simpl. lia. }
      repeat split; lia.
    - right. assert (Od : Nat.odd k = true)
        by (rewrite <- Nat.negb_even, Ev; reflexivity).
      apply Nat.odd_spec in Od. destruct Od as [m Hm].
      assert (j = m).
      { subst j. rewrite Hm. replace (2 * m + 1)%nat with (1 + m * 2)%nat by lia.
        rewrite Nat.div_add by lia. simpl. lia. }
      assert (i = m).
      { subst i. rewrite Hm. replace (2 * m + 1 - 1)%nat with (m * 2)%nat by lia.
        apply Nat.div_mul. lia. }
      repeat split; lia. }
  set (lo := nth i sorted PrimFloat.nan).
  set (hi := nth j sorted PrimFloat.nan).
  assert (Ilo : In lo sorted) by (apply nth_In; lia).
  assert (Ihi : In hi sorted) by (apply nth_In; lia).
  assert (Nlo : Num.isNaN lo = false)
    by (rewrite List.Forall_forall in Hs; now apply Hs).
  assert (Nhi : Num.isNaN hi = false)
    by (rewrite List.Forall_forall in Hs; now apply Hs).
  destruct (split_at sorted i ltac:(lia)) as (a1 & a2 & Ea & La).
  destruct (split_at sorted j ltac:(lia)) as (b1 & b2 & Eb & Lb).
  fold lo in Ea. fold hi in Eb.
  pose proof SS as SSa. rewrite Ea in SSa.
  destruct (sorted_middle a1 a2 lo SSa) as [Below Above_lo].
  pose proof SS as SSb. rewrite Eb in SSb.
  destruct (sorted_middle b1 b2 hi SSb) as [_ Above].
  exists lo, hi.
  split; [eapply Permutation_in; [exact Hperm|exact Ilo]|].
  split; [eapply Permutation_in; [exact Hperm|exact Ihi]|].
  split.
  { unfold le. rewrite (leb_key lo hi Nlo Nhi). apply Z.leb_le.
    destruct Hij as [(_ & _ & Hsij & _)|(_ & Eij & _)].
    - (* hi follows lo *)
      assert (Hin : In hi (lo :: a2)).
      { right. subst hi. rewrite Ea.
        rewrite app_nth2 by lia. rewrite La.
        replace (j - i)%nat with (S (j - S i)) by lia. simpl.
        apply nth_In.
        assert (length sorted = (length a1 + S (length a2))%nat)
          by (rewrite Ea at 1; rewrite length_app; reflexivity).
        lia. }
      rewrite List.Forall_forall in Above_lo. exact (Above_lo hi Hin).
    - subst lo hi. rewrite Eij. lia. }
  split.
  { rewrite (calculateMedian_centre numbers Hne). unfold centre.
    fold sorted. rewrite Hlen. fold k.
    destruct Hij as [(Ev & Eij & _)|(Ev & Eij & _)]; rewrite Ev.
    - subst lo hi. fold j. now rewrite Eij.
    - subst lo. fold j. now rewrite Eij. }
  split.
  { intros Ev. destruct Hij as [(Ev' & _)|(_ & Eij & _)]; [congruence|].
    subst lo hi. now rewrite Eij. }
  split.
  - rewrite <- (filter_length_perm _ sorted numbers Hperm).
    rewrite Ea at 1.
    replace (a1 ++ lo :: a2) with ((a1 ++ [lo]) ++ a2)
      by (rewrite <- app_assoc; reflexivity).
    rewrite List.filter_app, length_app.
    rewrite filter_all_length.
    + rewrite length_app. simpl. rewrite La.
      destruct Hij as [(_ & _ & ? & ?)|(_ & ? & ?)]; lia.
    + eapply Permutation_Forall in Hs; [|rewrite Ea; reflexivity].
      replace (a1 ++ lo :: a2) with ((a1 ++ [lo]) ++ a2) in Hs
        by (rewrite <- app_assoc; reflexivity).
      apply Forall_app in Hs. destruct Hs as [Hs1 _].
      rewrite List.Forall_forall in *. intros x Hx.
      rewrite (leb_key x lo (Hs1 x Hx) Nlo). apply Z.leb_le.
      exact (Below x Hx).
  - rewrite <- (filter_length_perm _ sorted numbers Hperm).
    rewrite Eb at 1.
    rewrite List.filter_app, length_app.
    rewrite (filter_all_length _ (hi :: b2)).
    + simpl length.
      assert (length sorted = (length b1 + S (length b2))%nat)
        by (rewrite Eb at 1; rewrite length_app; reflexivity).
      destruct Hij as [(_ & _ & ? & ?)|(_ & ? & ?)]; lia.
    + eapply Permutation_Forall in Hs; [|rewrite Eb; reflexivity].
      apply Forall_app in Hs. destruct Hs as [_ Hs2].
      rewrite List.Forall_forall in *. intros x Hx.
      rewrite (leb_key hi x Nhi (Hs2 x Hx)). apply Z.leb_le.
      exact (Above x Hx).
Qed.

End MedianCentral.

(** ** Loading, continued *)


Section LoaderFacts.
Import DataHandler Processing Loader Cache LoaderSpec.
Variable h : Host.

(** The last segment on a body that validates. *)
Lemma decoded_ok (dataUrl : string) (useCache : bool) (jsonData : JSValue)
    (w : World) (records : list BidRecord) (warnings : list Event) :
  validateDataStructure h jsonData = (Ok records, warnings) ->
  let σ := heap w in
  let p := S (S (length σ)) in
  let σ' := snd (processData h (length σ) (σ ++ [records])) in
  loadData_decoded h dataUrl useCache (Some jsonData) w
  = (Resolved p,
     {| this := {| rawData := Some (length σ);
                   processedData := Some p;
                   dataCache := if useCache
                                then <[dataUrl := p]> (dataCache (this w))
                                else dataCache (this w);
                   isLoading := false |};
        heap := σ';
        events := (events w ++ warnings) ++ [LoadingStateChanged false] |}).
Proof.
  intros Hv σ p σ'. subst σ p σ'. unfold loadData_decoded. rewrite Hv.
  unfold alloc. cbn [this heap events].
  assert (Hd : (length (heap w) < length (heap w ++ [records]))%nat)
    by (rewrite length_app; simpl; lia).
  destruct (processData_value h (length (heap w)) (heap w ++ [records]) Hd)
    as [Ef _].
  rewrite length_app in Ef. cbn [length] in Ef.
  destruct (processData h (length (heap w)) (heap w ++ [records]))
    as [pd σ2] eqn:Ep.
  cbn [fst] in Ef. cbn [snd].
  replace pd with (S (S (length (heap w)))) by lia.
  reflexivity.
Qed.

(** The store after it: three new arrays (the validated records, sorted in
    place by [processData]; the cleaned records; the processed records),
    the others as they were. *)
Lemma decoded_heap (records : list BidRecord) (σ : Heap) :
  let σ' := snd (processData h (length σ) (σ ++ [records])) in
  length σ' = (length σ + 3)%nat
  /\ read σ' (length σ) = sortedByDate h true records
  /\ read σ' (S (S (length σ)))
     = JSArray.mapi (enrichItem h) (map (cleanItem) (sortedByDate h true records))
  /\ forall r, (r < length σ)%nat -> read σ' r = read σ r.
Proof.
  intros σ'.
  assert (Hd : (length σ < length (σ ++ [records]))%nat)
    by (rewrite length_app; simpl; lia).
  assert (R0 : read (σ ++ [records]) (length σ) = records).
  { unfold read. rewrite lookup_app_r by lia. now rewrite Nat.sub_diag. }
  destruct (processData_value h (length σ) (σ ++ [records]) Hd) as [Ef Ev].
  destruct (processData_effect h (length σ) (σ ++ [records]) Hd)
    as (_ & Es & Eo).
  rewrite length_app in Ef. cbn [length] in Ef.
  rewrite Ef, R0 in Ev. rewrite R0 in Es.
  replace (S (length σ + 1)) with (S (S (length σ))) in Ev by lia.
  split; [|split; [exact Es|split; [exact Ev|]]].
  - subst σ'. unfold processData, sortByDate, cleanData, enrichData, alloc.
    cbn [fst snd]. rewrite !length_app, length_write, length_app. simpl. lia.
  - intros r Hr. subst σ'. rewrite Eo by (rewrite ?length_app; simpl; lia).
    unfold read. now rewrite lookup_app_l by exact Hr.
Qed.

End LoaderFacts.

Section LoaderRuns.
Import DataHandler Processing Loader Cache LoaderSpec.
Variable h : Host.

(** The steps of a load that goes well. *)
Lemma step_call_starts (dataUrl : string) (useCache : bool) (s : System) :
  isLoading (this (world s)) = false ->
  (if useCache then dataCache (this (world s)) !! dataUrl else None) = None ->
  step h (Call dataUrl useCache) s
  = (Some AwaitingFetch,
     {| world := emit (LoadingStateChanged true) (set_isLoading true (world s));
        pending := pending s ++ [{| url := dataUrl; cached := useCache;
                                    decoding := false |}] |}).
Proof.
  intros Hflag Hmiss. unfold step, loadData_start. now rewrite Hmiss, Hflag.
Qed.

Lemma step_fetched_ok (k : nat) (status : Z) (s : System) (p : Pending) :
  pending s !! k = Some p -> decoding p = false ->
  step h (Fetched k (Response true status)) s
  = (Some AwaitingJson,
     {| world := world s;
        pending := <[k := {| url := url p; cached := cached p;
                             decoding := true |}]> (pending s) |}).
Proof. intros Hp Hd. unfold step. now rewrite Hp, Hd. Qed.

Lemma step_decoded (k : nat) (body : option JSValue) (s : System) (p : Pending) :
  pending s !! k = Some p -> decoding p = true ->
  step h (Decoded k body) s
  = (Some (fst (loadData_decoded h (url p) (cached p) body (world s))),
     {| world := snd (loadData_decoded h (url p) (cached p) body (world s));
        pending := delete k (pending s) |}).
Proof.
  intros Hp Hd. unfold step. rewrite Hp, Hd.
  now destruct (loadData_decoded h (url p) (cached p) body (world s)).
Qed.

(** The three steps of an uninterrupted load. *)
Lemma run_load (s : System) (dataUrl : string) (useCache : bool)
    (status : Z) (jsonData : JSValue) (records : list BidRecord)
    (warnings : list Event) :
  isLoading (this (world s)) = false ->
  (if useCache then dataCache (this (world s)) !! dataUrl else None) = None ->
  validateDataStructure h jsonData = (Ok records, warnings) ->
  run h (load (length (pending s)) dataUrl useCache status jsonData) s
  = ([Some AwaitingFetch; Some AwaitingJson;
      Some (Resolved (S (S (length (heap (world s))))))],
     {| world := snd (loadData_decoded h dataUrl useCache (Some jsonData)
                        (emit (LoadingStateChanged true)
                              (set_isLoading true (world s))));
        pending := pending s |}).
Proof.
  intros Hflag Hmiss Hv.
  set (new := {| url := dataUrl; cached := useCache; decoding := false |}).
  set (s1 := {| world := emit (LoadingStateChanged true)
                           (set_isLoading true (world s));
                pending := pending s ++ [new] |}).
  set (s2 := {| world := world s1;
                pending := pending s ++ [{| url := dataUrl; cached := useCache;
                                            decoding := true |}] |}).
  assert (E1 : step h (Call dataUrl useCache) s = (Some AwaitingFetch, s1))
    by (apply step_call_starts; assumption).
  assert (E2 : step h (Fetched (length (pending s)) (Response true status)) s1
               = (Some AwaitingJson, s2)).
  { rewrite (step_fetched_ok _ _ s1 new); [|now apply list_lookup_middle|reflexivity].
    unfold s2. do 2 f_equal. cbn [pending s1].
    rewrite insert_app_r_alt by lia. now rewrite Nat.sub_diag. }
  pose proof (decoded_ok h dataUrl useCache jsonData (world s1) records warnings Hv)
    as E3. cbv zeta in E3.
  assert (E3' : step h (Decoded (length (pending s)) (Some jsonData)) s2
                = (Some (Resolved (S (S (length (heap (world s)))))),
                   {| world := snd (loadData_decoded h dataUrl useCache
                                      (Some jsonData) (world s1));
                      pending := pending s |})).
  { rewrite (step_decoded _ _ s2 {| url := dataUrl; cached := useCache;
                                    decoding := true |});
      [|now apply list_lookup_middle|reflexivity].
    cbn [url cached world s2 pending]. rewrite E3. cbn [fst snd].
    do 2 f_equal.
    rewrite (delete_middle (pending s) []). apply app_nil_r. }
  unfold load, run. rewrite E1, E2, E3'. reflexivity.
Qed.

(** X18.  A load that nothing interrupts, of a source that is not cached,
    by a handler that is not loading, with a response that is ok and a body
    that validates: the call suspends twice and resolves to a new array, the
    processed dataset; [rawData] is the validated array, left in date
    order; the result is cached exactly when [useCache] is set; the flag is
    reset; the events are loading-on, the validation warning if any,
    loading-off; the suspended calls and the arrays that existed are as
    before. *)
Theorem loadData_success (s : System) (dataUrl : string) (useCache : bool)
    (status : Z) (jsonData : JSValue) (records : list BidRecord)
    (warnings : list Event) :
  isLoading (this (world s)) = false ->
  (if useCache then dataCache (this (world s)) !! dataUrl else None) = None ->
  validateDataStructure h jsonData = (Ok records, warnings) ->
  let σ := heap (world s) in
  let p := S (S (length σ)) in
  let result := run h (load (length (pending s)) dataUrl useCache status jsonData) s in
  let w' := world (snd result) in
  fst result = [Some AwaitingFetch; Some AwaitingJson; Some (Resolved p)]
  /\ pending (snd result) = pending s
  /\ rawData (this w') = Some (length σ)
  /\ processedData (this w') = Some p
  /\ dataCache (this w')
     = (if useCache then <[dataUrl := p]> (dataCache (this (world s)))
        else dataCache (this (world s)))
  /\ isLoading (this w') = false
  /\ events w'
     = events (world s) ++ [LoadingStateChanged true] ++ warnings
       ++ [LoadingStateChanged false]
  /\ read (heap w') (length σ) = sortedByDate h true records
  /\ read (heap w') p
     = JSArray.mapi (enrichItem h)
         (map (cleanItem) (sortedByDate h true records))
  /\ forall r, (r < length σ)%nat -> read (heap w') r = read σ r.
Proof.
  intros Hflag Hmiss Hv σ p result w'. subst w' result.
  rewrite (run_load s dataUrl useCache status jsonData records warnings
             Hflag Hmiss Hv).
  cbn [fst snd world pending].
  rewrite (decoded_ok h dataUrl useCache jsonData _ records warnings Hv).
  cbn [snd this heap events rawData processedData dataCache isLoading emit
       set_isLoading].
  destruct (decoded_heap h records σ) as (_ & R1 & R2 & R3).
  split; [reflexivity|]. split; [reflexivity|]. split; [reflexivity|].
  split; [reflexivity|]. split; [reflexivity|]. split; [reflexivity|].
  split; [now rewrite <- !app_assoc|].
  split; [exact R1|]. split; [exact R2|exact R3].
Qed.

(** X19.  After a successful load with [useCache], the next call for the
    same source returns the very array that load returned, at once: nothing
    is fetched, no call is suspended, no array is built. *)
Theorem loadData_cached_again (s : System) (dataUrl : string)
    (status : Z) (jsonData : JSValue) (records : list BidRecord)
    (warnings : list Event) :
  isLoading (this (world s)) = false ->
  dataCache (this (world s)) !! dataUrl = None ->
  validateDataStructure h jsonData = (Ok records, warnings) ->
  let s' := snd (run h (load (length (pending s)) dataUrl true status jsonData) s) in
  let p := S (S (length (heap (world s)))) in
  fst (step h (Call dataUrl true) s') = Some (Resolved p)
  /\ pending (snd (step h (Call dataUrl true) s')) = pending s
  /\ heap (world (snd (step h (Call dataUrl true) s'))) = heap (world s')
  /\ events (world (snd (step h (Call dataUrl true) s')))
     = events (world s') ++ [LoadingStateChanged false].
Proof.
  intros Hflag Hmiss Hv s' p. subst s'.
  rewrite (run_load s dataUrl true status jsonData records warnings
             Hflag Hmiss Hv).
  cbn [snd]. rewrite (decoded_ok h dataUrl true jsonData _ records warnings Hv).
  cbn [snd heap emit set_isLoading]. fold p.
  unfold step, loadData_start. cbn [world this dataCache].
  rewrite lookup_insert_eq.
  cbn [fst snd world pending heap events finally emit set_isLoading].
  repeat split.
Qed.

End LoaderRuns.

Section LoaderFailure.
Import DataHandler Processing Loader Cache LoaderSpec.
Variable h : Host.

(** Dataset validation reports nothing or one warning. *)
Lemma validateDataStructure_warns (jsonData : JSValue) :
  snd (validateDataStructure h jsonData) = []
  \/ exists errors, snd (validateDataStructure h jsonData) = [ValidationWarning errors].
Proof.
  unfold validateDataStructure.
  destruct (resolveArray jsonData) as [dataArray|e]; [|now left].
  destruct (length dataArray =? 0)%nat; [now left|].
  destruct (validateEach h dataArray 0 [] []) as [validatedData errors].
  unfold qualityGate.
  assert (W : (if (0 <? length errors)%nat then [ValidationWarning errors] else [])
              = []
              \/ exists errs,
                   (if (0 <? length errors)%nat then [ValidationWarning errors]
                    else []) = [ValidationWarning errs]).
  { destruct (0 <? length errors)%nat; [right; now exists errors|now left]. }
  destruct ((0 <? length errors)%nat && overThreshold (length errors) (length dataArray));
    [exact W|].
  destruct (length validatedData =? 0)%nat; exact W.
Qed.

(** X20.  A call of [loadData] that is rejected, at whichever of its
    three stages, leaves [rawData], [processedData], the cache and every
    array as they were, and reports the error by one data-error event,
    followed by loading-off; at the third stage the warning of the
    validation, if there is one, comes before the two.  The errors are:
    the concurrent-load error at the start; the engine's error or the
    status error for the response; the decoding error or the validation
    error for the body. *)
Theorem loadData_rejection_leaves_data
    (dataUrl : string) (useCache : bool) (w : World) (e : Error) :
  (fst (loadData_start dataUrl useCache w) = Rejected e ->
   e = ConcurrentLoad
   /\ same_data w (snd (loadData_start dataUrl useCache w))
   /\ events (snd (loadData_start dataUrl useCache w))
      = events w ++ [DataError e; LoadingStateChanged false])
  /\ (forall response,
      fst (loadData_fetched response w) = Rejected e ->
      (response = NetworkError /\ e = TypeError
       \/ exists status, response = Response false status
                         /\ e = RetrievalFailed status)
      /\ same_data w (snd (loadData_fetched response w))
      /\ events (snd (loadData_fetched response w))
         = events w ++ [DataError e; LoadingStateChanged false])
  /\ (forall body,
      fst (loadData_decoded h dataUrl useCache body w) = Rejected e ->
      (body = None /\ e = DecodeFailed
       \/ exists jsonData, body = Some jsonData
            /\ fst (validateDataStructure h jsonData) = Throw e)
      /\ same_data w (snd (loadData_decoded h dataUrl useCache body w))
      /\ exists warnings,
           warnings = match body with
                      | Some jsonData => snd (validateDataStructure h jsonData)
                      | None => []
                      end
           /\ (warnings = [] \/ exists errors, warnings = [ValidationWarning errors])
           /\ events (snd (loadData_decoded h dataUrl useCache body w))
              = events w ++ warnings ++ [DataError e; LoadingStateChanged false]).
Proof.
  assert (S0 : same_data w w) by (repeat split).
  split; [|split].
  - unfold loadData_start.
    destruct (if useCache then dataCache (this w) !! dataUrl else None);
      [discriminate|].
    destruct (isLoading (this w)); [|discriminate].
    intros [= <-]. split; [reflexivity|]. split; [exact S0|].
    simpl. now rewrite <- app_assoc.
  - intros response. unfold loadData_fetched.
    destruct response as [|ok status].
    + intros [= <-]. split; [now left|]. split; [exact S0|].
      simpl. now rewrite <- app_assoc.
    + destruct ok; simpl; [discriminate|].
      intros [= <-]. split; [right; now exists status|]. split; [exact S0|].
      now rewrite <- app_assoc.
  - intros body. unfold loadData_decoded.
    destruct body as [jsonData|].
    + pose proof (validateDataStructure_warns jsonData) as W.
      destruct (validateDataStructure h jsonData) as [[records|e'] warnings] eqn:Ev.
      * destruct (alloc _ records) as [validatedData σ1].
        destruct (processData h validatedData σ1) as [processed σ2].
        discriminate.
      * intros [= <-]. split; [right; exists jsonData; now rewrite Ev|].
        split; [exact S0|]. exists warnings.
        split; [reflexivity|]. split; [exact W|]. simpl.
        now rewrite <- !app_assoc.
    + intros [= <-]. split; [now left|]. split; [exact S0|].
      exists []. split; [reflexivity|]. split; [now left|].
      simpl. now rewrite <- app_assoc.
Qed.

(** A step only adds arrays. *)
Lemma step_heap (a : Action) (s : System) :
  (length (heap (world s)) <= length (heap (world (snd (step h a s)))))%nat
  /\ forall r, (r < length (heap (world s)))%nat ->
       read (heap (world (snd (step h a s)))) r = read (heap (world s)) r.
Proof.
  assert (Same : (length (heap (world s)) <= length (heap (world s)))%nat
                 /\ forall r, (r < length (heap (world s)))%nat ->
                      read (heap (world s)) r = read (heap (world s)) r)
    by (split; [lia|reflexivity]).
  destruct a as [dataUrl useCache|k response|k body]; unfold step.
  - unfold loadData_start.
    destruct (if useCache then dataCache (this (world s)) !! dataUrl else None);
      [exact Same|].
    destruct (isLoading (this (world s))); exact Same.
  - destruct (pending s !! k) as [p|]; [|exact Same].
    destruct (decoding p); [exact Same|].
    unfold loadData_fetched. destruct response as [|[|] status]; exact Same.
  - destruct (pending s !! k) as [p|]; [|exact Same].
    destruct (decoding p); [|exact Same].
    destruct body as [jsonData|]; [|exact Same].
    destruct (validateDataStructure h jsonData) as [[records|e] warnings] eqn:Ev.
    + rewrite (decoded_ok h (url p) (cached p) jsonData (world s) records
                 warnings Ev).
      cbn [snd world heap].
      destruct (decoded_heap h records (heap (world s))) as (L & _ & _ & R).
      split; [lia|exact R].
    + unfold loadData_decoded. rewrite Ev. exact Same.
Qed.

Lemma run_heap (actions : list Action) (s : System) (r : nat) :
  (r < length (heap (world s)))%nat ->
  (r < length (heap (world (snd (run h actions s)))))%nat
  /\ read (heap (world (snd (run h actions s)))) r = read (heap (world s)) r.
Proof.
  revert s. induction actions as [|a rest IH]; intros s Hr; [now split|].
  simpl. destruct (step h a s) as [o s1] eqn:E1.
  destruct (run h rest s1) as [os s2] eqn:E2. cbn [snd].
  destruct (step_heap a s) as [L R]. rewrite E1 in L, R. cbn [snd] in L, R.
  specialize (IH s1 ltac:(lia)). rewrite E2 in IH. cbn [snd] in IH.
  destruct IH as [IH1 IH2]. split; [exact IH1|]. rewrite IH2. now apply R.
Qed.

Lemma holds_records_same (w w' : World) (r : nat) :
  heap w' = heap w -> holds_records w r -> holds_records w' r.
Proof. unfold holds_records. now intros ->. Qed.

Lemma well_formed_same (s : System) (w' : World) (pending' : list Pending) :
  well_formed s -> same_data (world s) w' ->
  (isLoading (this w') = true -> pending' <> []) ->
  well_formed {| world := w'; pending := pending' |}.
Proof.
  intros (Hc & Hp & Hr & _) (Er & Ep & Ec & Eh) Hflag.
  unfold well_formed. cbn [world pending]. rewrite Er, Ep, Ec.
  split; [|split; [|split]].
  - intros u r Hu. apply (holds_records_same (world s)); [exact Eh|]. eauto.
  - intros r Hu. apply (holds_records_same (world s)); [exact Eh|]. eauto.
  - intros r Hu. apply (holds_records_same (world s)); [exact Eh|]. eauto.
  - exact Hflag.
Qed.

(** Every step keeps the state well formed. *)
Lemma step_well_formed (a : Action) (s : System) :
  well_formed s -> well_formed (snd (step h a s)).
Proof.
  intros Hwf.
  assert (S0 : same_data (world s) (world s)) by (repeat split).
  destruct a as [dataUrl useCache|k response|k body]; unfold step.
  - unfold loadData_start.
    destruct (if useCache then dataCache (this (world s)) !! dataUrl else None).
    + cbn [fst snd]; apply (well_formed_same s); [exact Hwf|exact S0|discriminate].
    + destruct (isLoading (this (world s))).
      * cbn [fst snd]; apply (well_formed_same s); [exact Hwf|exact S0|discriminate].
      * cbn [fst snd]; apply (well_formed_same s); [exact Hwf|exact S0|].
        intros _. now destruct (pending s).
  - destruct (pending s !! k) as [p|] eqn:Hk; [|exact Hwf].
    destruct (decoding p); [exact Hwf|].
    unfold loadData_fetched. destruct response as [|[|] status].
    + cbn [fst snd]; apply (well_formed_same s); [exact Hwf|exact S0|discriminate].
    + cbn [fst snd]; apply (well_formed_same s); [exact Hwf|exact S0|].
      intros _ E. apply (f_equal length) in E. rewrite length_insert in E.
      apply lookup_lt_Some in Hk. simpl in E. lia.
    + cbn [fst snd]; apply (well_formed_same s); [exact Hwf|exact S0|discriminate].
  - destruct (pending s !! k) as [p|] eqn:Hk; [|exact Hwf].
    destruct (decoding p); [|exact Hwf].
    destruct body as [jsonData|];
      [|cbn [fst snd]; apply (well_formed_same s); [exact Hwf|exact S0|discriminate]].
    destruct (validateDataStructure h jsonData) as [[records|e] warnings] eqn:Ev.
    + rewrite (decoded_ok h (url p) (cached p) jsonData (world s) records
                 warnings Ev).
      cbn [snd].
      destruct (decoded_heap h records (heap (world s))) as (L & R1 & R2 & R).
      assert (Hne : records <> []).
      { apply (validateDataStructure_ok_nonempty h jsonData). now rewrite Ev. }
      assert (Hs : sortedByDate h true records <> []).
      { intros E. apply (f_equal length) in E. unfold sortedByDate in E.
        rewrite sort_length in E. destruct records; [congruence|discriminate]. }
      assert (Old : forall r, holds_records (world s) r ->
                holds_records
                  {| this := {| rawData := Some (length (heap (world s)));
                                processedData := Some (S (S (length (heap (world s)))));
                                dataCache :=
                                  if cached p
                                  then <[url p := S (S (length (heap (world s))))]>
                                         (dataCache (this (world s)))
                                  else dataCache (this (world s));
                                isLoading := false |};
                     heap := snd (processData h (length (heap (world s)))
                                    (heap (world s) ++ [records]));
                     events := (events (world s) ++ warnings)
                               ++ [LoadingStateChanged false] |} r).
      { intros r [Hr Hrec]. unfold holds_records. cbn [heap].
        split; [lia|]. now rewrite R. }
      assert (New : holds_records
                  {| this := {| rawData := Some (length (heap (world s)));
                                processedData := Some (S (S (length (heap (world s)))));
                                dataCache :=
                                  if cached p
                                  then <[url p := S (S (length (heap (world s))))]>
                                         (dataCache (this (world s)))
                                  else dataCache (this (world s));
                                isLoading := false |};
                     heap := snd (processData h (length (heap (world s)))
                                    (heap (world s) ++ [records]));
                     events := (events (world s) ++ warnings)
                               ++ [LoadingStateChanged false] |}
                  (S (S (length (heap (world s)))))).
      { unfold holds_records. cbn [heap]. split; [lia|]. rewrite R2.
        intros E. apply (f_equal length) in E. unfold JSArray.mapi in E.
        rewrite map_from_length, length_map in E.
        destruct (sortedByDate h true records); [congruence|discriminate]. }
      destruct Hwf as (Hc & Hp & Hr & _).
      unfold well_formed. cbn [world pending this rawData processedData dataCache
        isLoading]. split; [|split; [|split]].
      * intros u r Hu. destruct (cached p).
        -- destruct (decide (url p = u)) as [<-|Hneq].
           ++ rewrite lookup_insert_eq in Hu. injection Hu as <-. exact New.
           ++ rewrite lookup_insert_ne in Hu by exact Hneq.
              apply Old. eauto.
        -- apply Old. eauto.
      * intros r [= <-]. exact New.
      * intros r [= <-]. unfold holds_records. cbn [heap].
        split; [lia|]. now rewrite R1.
      * discriminate.
    + unfold loadData_decoded. rewrite Ev.
      cbn [fst snd]; apply (well_formed_same s); [exact Hwf| |discriminate].
      repeat split.
Qed.

(** X22.  In every state the handler can reach, the cache, [rawData] and
    [processedData] refer to arrays that exist and hold records, and the
    in-flight flag is set only while some call is suspended (so a handler
    with no call in progress accepts a new one). *)
Theorem reachable_well_formed (actions : list Action) :
  well_formed (snd (run h actions initial)).
Proof.
  assert (Hinit : well_formed initial).
  { unfold well_formed, initial. cbn. split; [|split; [|split]]; discriminate. }
  revert Hinit. generalize initial.
  induction actions as [|a rest IH]; intros s Hwf; [exact Hwf|].
  simpl. destruct (step h a s) as [o s1] eqn:E1.
  destruct (run h rest s1) as [os s2] eqn:E2. cbn [snd].
  pose proof (step_well_formed a s Hwf) as H1. rewrite E1 in H1.
  specialize (IH s1 H1). now rewrite E2 in IH.
Qed.

(** A call resolves to an array with records. *)
Lemma step_resolved (a : Action) (s : System) (p : nat) :
  well_formed s ->
  fst (step h a s) = Some (Resolved p) ->
  holds_records (world (snd (step h a s))) p.
Proof.
  intros Hwf Ho.
  pose proof (step_well_formed a s Hwf) as Hwf'.
  destruct Hwf as (Hc & _). destruct Hwf' as (Hc' & Hp' & _).
  destruct a as [dataUrl useCache|k response|k body]; unfold step in *.
  - unfold loadData_start in *.
    destruct useCache.
    + destruct (dataCache (this (world s)) !! dataUrl) as [r|] eqn:Hu.
      * cbn [fst snd world] in *. injection Ho as <-.
        apply (holds_records_same (world s)); [reflexivity|]. eauto.
      * destruct (isLoading (this (world s))); discriminate.
    + destruct (isLoading (this (world s))); discriminate.
  - destruct (pending s !! k) as [q|]; [|discriminate].
    destruct (decoding q); [discriminate|].
    unfold loadData_fetched in Ho. destruct response as [|[|] status]; discriminate.
  - destruct (pending s !! k) as [q|]; [|discriminate].
    destruct (decoding q); [|discriminate].
    destruct body as [jsonData|]; [|discriminate].
    destruct (validateDataStructure h jsonData) as [[records|e] warnings] eqn:Ev.
    + rewrite (decoded_ok h (url q) (cached q) jsonData (world s) records
                 warnings Ev) in *.
      cbn [fst snd world this processedData] in *. injection Ho as <-.
      apply Hp'. reflexivity.
    + unfold loadData_decoded in Ho. rewrite Ev in Ho. discriminate.
Qed.

(** X21.  Whatever calls, responses and bodies follow each other, no
    array that exists is ever rewritten by [loadData], and every dataset a
    call resolved to is, at the end, still an array with records. *)
Theorem loadData_keeps_datasets (actions : list Action) (s : System) :
  well_formed s ->
  (forall r, (r < length (heap (world s)))%nat ->
     read (heap (world (snd (run h actions s)))) r = read (heap (world s)) r)
  /\ forall p, In (Some (Resolved p)) (fst (run h actions s)) ->
       holds_records (world (snd (run h actions s))) p.
Proof.
  intros Hwf. split; [intros r Hr; now apply run_heap|].
  revert s Hwf. induction actions as [|a rest IH]; intros s Hwf p Hin;
    [destruct Hin|].
  simpl in *. destruct (step h a s) as [o s1] eqn:E1.
  destruct (run h rest s1) as [os s2] eqn:E2. cbn [fst snd] in *.
  pose proof (step_well_formed a s Hwf) as Hwf1. rewrite E1 in Hwf1.
  cbn [snd] in Hwf1.
  destruct Hin as [->|Hin].
  - pose proof (step_resolved a s p Hwf) as H1. rewrite E1 in H1.
    destruct (H1 eq_refl) as [Hlt Hne].
    destruct (run_heap rest s1 p Hlt) as [Hlt' Hsame].
    rewrite E2 in Hlt', Hsame. cbn [snd] in Hlt', Hsame.
    split; [exact Hlt'|]. now rewrite Hsame.
  - specialize (IH s1 Hwf1 p). rewrite E2 in IH. now apply IH.
Qed.

(** X23.  [clearCache] empties the cache and nothing else: [getCacheInfo]
    then reports no entry, the next [loadData] is not answered from the
    cache, and the datasets and arrays stay.  [getCacheInfo] counts the
    cached sources, and a load that resolves adds its source to them exactly
    when [useCache] is set. *)
Theorem cache_info (w : World) (dataUrl : string) (useCache : bool) :
  (getCacheInfo (clearCache w) = {| cache_size := 0; cache_keys := ∅ |}
   /\ fst (loadData_start dataUrl useCache (clearCache w))
      = (if isLoading (this w) then Rejected ConcurrentLoad else AwaitingFetch)
   /\ rawData (this (clearCache w)) = rawData (this w)
   /\ processedData (this (clearCache w)) = processedData (this w)
   /\ heap (clearCache w) = heap w)
  /\ cache_size (getCacheInfo w) = size (cache_keys (getCacheInfo w))
  /\ forall jsonData p,
       fst (loadData_decoded h dataUrl useCache (Some jsonData) w) = Resolved p ->
       let w' := snd (loadData_decoded h dataUrl useCache (Some jsonData) w) in
       cache_keys (getCacheInfo w')
       = (if useCache then {[dataUrl]} ∪ cache_keys (getCacheInfo w)
          else cache_keys (getCacheInfo w))
       /\ (useCache = true -> dataCache (this w') !! dataUrl = Some p).
Proof.
  split; [|split].
  - split; [|split; [|repeat split]].
    + unfold getCacheInfo, clearCache. cbn [this dataCache].
      now rewrite dom_empty_L.
    + unfold loadData_start, clearCache. cbn [this dataCache isLoading].
      rewrite lookup_empty. destruct useCache, (isLoading (this w)); reflexivity.
  - symmetry. apply size_dom.
  - intros jsonData p Ho w'. subst w'.
    destruct (validateDataStructure h jsonData) as [[records|e] warnings] eqn:Ev.
    + rewrite (decoded_ok h dataUrl useCache jsonData w records warnings Ev) in *.
      cbn [fst snd] in *. injection Ho as <-.
      unfold getCacheInfo. cbn [this dataCache cache_keys cache_size].
      split.
      * destruct useCache; [|reflexivity]. now rewrite dom_insert_L.
      * intros ->. apply lookup_insert_eq.
    + unfold loadData_decoded in Ho. rewrite Ev in Ho. discriminate.
Qed.

End LoaderFailure.

(** ** The chart *)

Section ChartFacts.
Import Processing DateSpec ChartData.
Variable h : Host.

(** The trend line of an array with records. *)
Lemma trend_of_nonempty (data : list BidRecord) :
  data <> [] ->
  exists first final trend,
    head data = Some first /\ last data = Some final
    /\ Chart.calculateLinearTrendLine data = Ok trend
    /\ trend_x trend = [bid_date first; bid_date final]
    /\ length (trend_y trend) = 2%nat.
Proof.
  intros Hne.
  destruct data as [|first rest]; [congruence|].
  destruct (last (first :: rest)) as [final|] eqn:El.
  - exists first, final. eexists. split; [reflexivity|]. split; [reflexivity|].
    rewrite (calculateLinearTrendLine_nonempty (first :: rest) first final
               eq_refl El).
    split; [reflexivity|]. split; reflexivity.
  - apply last_None in El. discriminate.
Qed.

Lemma colors_length (data : list BidRecord) :
  length (Chart.generateTimeBasedColors data) = length data.
Proof.
  unfold Chart.generateTimeBasedColors. rewrite colorsLoop_spec. simpl.
  now rewrite length_map, length_seq.
Qed.

(** On an array with records [prepareChartData] returns its two
    traces. *)
Lemma prepareChartData_ok (data : ref) (σ : Heap) :
  (data < length σ)%nat -> read σ data <> [] ->
  exists plotData, fst (prepareChartData h data σ) = Ok plotData.
Proof.
  intros Hd Hne. unfold prepareChartData. cbn [fst].
  rewrite read_write_same by exact Hd.
  assert (Hsne : sortedByDate h true (read σ data) <> []).
  { intros E. apply Hne. apply Permutation_nil. rewrite <- E. apply sort_perm. }
  destruct (trend_of_nonempty _ Hsne) as (first & final & trend & _ & _ & Ht & _).
  rewrite Ht. eexists. reflexivity.
Qed.

(** X24.  [prepareChartData] sorts the array it is given in place by
    date and leaves every other array alone.  On an empty array it throws
    (the trend line reads the first record); otherwise the scatter trace has
    the dates, the prices and one hover text and one colour per record, in
    date order, and the trend line runs from the date of the first record
    to the date of the last. *)
Theorem prepareChartData_traces (data : ref) (σ : Heap) :
  (data < length σ)%nat ->
  let σ' := snd (prepareChartData h data σ) in
  let sorted := read σ' data in
  Permutation sorted (read σ data)
  /\ LocallySorted (not_after h) sorted
  /\ (forall r, r <> data -> read σ' r = read σ r)
  /\ (read σ data = [] -> fst (prepareChartData h data σ) = Throw TypeError)
  /\ (read σ data <> [] ->
      exists scatter trend first final,
        fst (prepareChartData h data σ) = Ok (scatter, trend)
        /\ scatter_x scatter = map bid_date sorted
        /\ scatter_y scatter = map bid_price sorted
        /\ length (scatter_text scatter) = length sorted
        /\ marker_color scatter = Chart.generateTimeBasedColors sorted
        /\ length (marker_color scatter) = length sorted
        /\ head sorted = Some first /\ last sorted = Some final
        /\ trend_x trend = [bid_date first; bid_date final]
        /\ length (trend_y trend) = 2%nat).
Proof.
  intros Hd σ' sorted.
  assert (Es : sorted = sortedByDate h true (read σ data)).
  { subst sorted σ'. unfold prepareChartData. cbn [snd].
    apply read_write_same, Hd. }
  split; [rewrite Es; apply sort_perm|].
  split; [rewrite Es; exact (sortedByDate_ordered h true (read σ data))|].
  split.
  { intros r Hr. subst σ'. unfold prepareChartData. cbn [snd].
    apply read_write_other. congruence. }
  split.
  - intros Hnil. unfold prepareChartData. cbn [fst].
    rewrite read_write_same by exact Hd. now rewrite Hnil.
  - intros Hne.
    assert (Hsne : sorted <> []).
    { intros E. apply Hne. apply Permutation_nil.
      rewrite <- E, Es. apply sort_perm. }
    destruct (trend_of_nonempty sorted Hsne)
      as (first & final & trend & Hf & Hl & Ht & Hx & Hy).
    eexists _, trend, first, final.
    split.
    { unfold prepareChartData. cbn [fst].
      change (read (write σ data (sortedByDate h true (read σ data))) data)
        with sorted.
      rewrite Ht. reflexivity. }
    cbn [scatter_x scatter_y scatter_text marker_color].
    split; [reflexivity|]. split; [reflexivity|].
    split; [apply length_map|]. split; [reflexivity|].
    split; [apply colors_length|].
    repeat split; assumption.
Qed.

(** The comparator looks at the dates only. *)
Lemma in_order_dates (ascending : bool) (a a' b b' : BidRecord) :
  bid_date a = bid_date a' -> bid_date b = bid_date b' ->
  JSArray.in_order (fun a b => is_positive (compareByDate h ascending a b)) a b ->
  JSArray.in_order (fun a b => is_positive (compareByDate h ascending a b)) a' b'.
Proof.
  unfold JSArray.in_order, compareByDate. now intros -> ->.
Qed.

(** X25.  The array [processData] returns, which [loadData] caches and
    the application hands to the chart, is not reordered by the in-place
    sort of [prepareChartData]: it is in date order already, and the sort
    is stable. *)
Theorem prepareChartData_keeps_processed (data : ref) (σ : Heap) :
  (data < length σ)%nat ->
  snd (prepareChartData h (fst (processData h data σ)) (snd (processData h data σ)))
  = snd (processData h data σ).
Proof.
  intros Hd.
  destruct (processData_value h data σ Hd) as [Ef Ev].
  set (p := fst (processData h data σ)) in *.
  set (σ' := snd (processData h data σ)) in *.
  assert (Hs : sortedByDate h true (read σ' p) = read σ' p).
  { apply sort_id. rewrite Ev.
    apply (LocallySorted_map_eq bid_date _
             (sortedByDate h true (read σ data))).
    - intros a a' b b'. apply in_order_dates.
    - unfold JSArray.mapi. rewrite mapi_enrich_dates, map_map. reflexivity.
    - apply sortedByDate_in_order. }
  unfold prepareChartData. cbn [snd]. rewrite Hs.
  unfold write, read.
  destruct (σ' !! p) as [arr|] eqn:El.
  - simpl. now apply list_insert_id.
  - apply lookup_ge_None in El. now apply list_insert_ge.
Qed.

(** X26.  When every date can be read, the two ends of the trend line
    are the earliest and the latest date of the data, whatever the order the
    data came in: each is the date of a record of the data, no record is
    dated before the first, and none after the second. *)
Theorem prepareChartData_trend_spans (data : ref) (σ : Heap)
    (scatter : Scatter) (trend : TrendLine) :
  (data < length σ)%nat ->
  Forall (valid_date h) (read σ data) ->
  fst (prepareChartData h data σ) = Ok (scatter, trend) ->
  exists first final t0 t1,
    In first (read σ data) /\ In final (read σ data)
    /\ trend_x trend = [bid_date first; bid_date final]
    /\ Date_new h (bid_date first) = Some t0
    /\ Date_new h (bid_date final) = Some t1
    /\ Forall (fun item => forall t, Date_new h (bid_date item) = Some t ->
                                     t0 <= t <= t1) (read σ data).
Proof.
  intros Hd Hv Hok.
  set (sorted := sortedByDate h true (read σ data)).
  assert (Hperm : Permutation sorted (read σ data)) by apply sort_perm.
  assert (Hsv : Forall (valid_date h) sorted)
    by (eapply Permutation_Forall; [symmetry; exact Hperm|exact Hv]).
  pose proof (sortedByDate_ordered h true (read σ data)) as Hs. fold sorted in Hs.
  unfold prepareChartData in Hok. cbn [fst] in Hok.
  rewrite read_write_same in Hok by exact Hd. fold sorted in Hok.
  destruct sorted as [|first rest] eqn:Esorted.
  { discriminate. }
  destruct (trend_of_nonempty (first :: rest) ltac:(discriminate))
    as (first' & final & trend' & Hf & Hl & Ht & Hx & _).
  injection Hf as <-.
  rewrite Ht in Hok. simpl in Hok. injection Hok as _ <-.
  assert (Vf : valid_date h first) by now inversion Hsv.
  assert (Vl : valid_date h final).
  { rewrite List.Forall_forall in Hsv. apply Hsv.
    apply last_Some in Hl. destruct Hl as [l' El]. rewrite El.
    apply in_or_app. right. now left. }
  destruct Vf as [t0 E0], Vl as [t1 E1].
  exists first, final, t0, t1.
  split; [eapply Permutation_in; [exact Hperm|now left]|].
  split.
  { eapply Permutation_in; [exact Hperm|].
    apply last_Some in Hl. destruct Hl as [l' El]. rewrite El.
    apply in_or_app. right. now left. }
  split; [exact Hx|]. split; [exact E0|]. split; [exact E1|].
  eapply Permutation_Forall; [exact Hperm|].
  rewrite List.Forall_forall. intros item Hitem t Et. split.
  - destruct Hitem as [<-|Hitem]; [rewrite E0 in Et; injection Et; lia|].
    pose proof (sorted_first h true first rest Hsv Hs item Hitem) as Ho.
    unfold date_ordered, not_after in Ho. rewrite E0, Et in Ho. exact Ho.
  - apply last_Some in Hl. destruct Hl as [l' El].
    assert (Hin : In item (l' ++ [final])) by (rewrite <- El; exact Hitem).
    apply in_app_or in Hin. destruct Hin as [Hin|[<-|[]]].
    + rewrite El in Hsv, Hs.
      pose proof (sorted_split h true l' [final] Hsv Hs item final Hin
                    ltac:(now left)) as Ho.
      unfold date_ordered, not_after in Ho. rewrite E1, Et in Ho. exact Ho.
    + rewrite E1 in Et. injection Et. lia.
Qed.

(** X27.  An empty array: [initChart] refuses it with the invalid-data
    error and changes nothing, whereas [updateChart] lets it through, has
    already replaced [chartData] when the trend line throws, and fails with
    the engine's error.  On an array with records the two prepare the same
    plot. *)
Theorem chart_empty_data (d : ref) (c : ChartState) (σ : Heap) :
  (d < length σ)%nat ->
  (read σ d = [] ->
   initChart h (Some d) c σ = (inl InvalidChartData, c, σ)
   /\ updateChart h (Some d) c σ
      = (inl (Thrown TypeError), set_chartData (Some d) c, σ))
  /\ (read σ d <> [] ->
      initChart h (Some d) c σ = updateChart h (Some d) c σ
      /\ exists plotData, fst (fst (initChart h (Some d) c σ)) = inr plotData).
Proof.
  intros Hd. split.
  - intros Hnil. unfold initChart, updateChart, prepareChartData.
    rewrite Hnil. cbn [length Nat.eqb]. split; [reflexivity|].
    rewrite read_write_same by exact Hd.
    change (sortedByDate h true []) with (@nil BidRecord).
    cbn. do 2 f_equal. unfold write.
    unfold read in Hnil. destruct (σ !! d) as [arr|] eqn:El.
    + simpl in Hnil. subst arr. now apply list_insert_id.
    + apply lookup_ge_None in El. lia.
  - intros Hne. unfold initChart, updateChart.
    destruct (Nat.eqb_spec (length (read σ d)) 0) as [E0|_].
    { destruct (read σ d); [congruence|discriminate]. }
    split; [reflexivity|].
    destruct (prepareChartData_ok d σ Hd Hne) as (plot & Hok).
    destruct (prepareChartData h d σ) as [plotData σ1]. cbn [fst snd] in *.
    rewrite Hok. now exists plot.
Qed.

End ChartFacts.

Section ChartStatsFacts.
Import Analytics Processing DateSpec ChartData.
Variable h : Host.

(** X28.  The statistics of the chart agree with those of the data
    handler on the chart's array: both are [null] exactly on an empty array,
    and the count, the minimum, the maximum and the mean are the same
    numbers (the chart formats them with three digits).  On an array in date
    order whose dates can all be read, the chart's date range, taken from
    the first and the last record, is the handler's earliest and latest. *)
Theorem getChartStats_agrees (c : ChartState) (σ : Heap) (d : ref) :
  chartData c = Some d ->
  (getChartStats h c σ = None <-> read σ d = [])
  /\ (getDataStatistics h (Some (read σ d)) None = None <-> read σ d = [])
  /\ forall cs st,
       getChartStats h c σ = Some cs ->
       getDataStatistics h (Some (read σ d)) None = Some st ->
       stats_totalRecords cs = totalRecords st
       /\ stats_minPrice cs = toFixed3 h (min (priceStats st))
       /\ stats_maxPrice cs = toFixed3 h (max (priceStats st))
       /\ stats_avgPrice cs = toFixed3 h (average (priceStats st))
       /\ (Forall (valid_date h) (read σ d) ->
           LocallySorted (not_after h) (read σ d) ->
           Date_new h (range_start cs) = earliest st
           /\ Date_new h (range_end cs) = latest st).
Proof.
  intros Hc. unfold getChartStats, getDataStatistics, sourceOf. rewrite Hc.
  destruct (read σ d) as [|first rest] eqn:Ed.
  { split; [tauto|]. split; [tauto|]. discriminate. }
  remember (first :: rest) as arr eqn:Earr.
  assert (Hne : arr <> []) by (subst arr; discriminate).
  destruct (Nat.eqb_spec (length arr) 0) as [E0|_];
    [destruct arr; [congruence|discriminate]|].
  split; [split; [discriminate|contradiction]|].
  split; [split; [discriminate|contradiction]|].
  intros cs st Hcs Hst.
  apply (f_equal (fun o => match o with Some x => x | None => cs end)) in Hcs.
  apply (f_equal (fun o => match o with Some x => x | None => st end)) in Hst.
  subst cs st.
  cbn [stats_totalRecords stats_minPrice stats_maxPrice stats_avgPrice
       totalRecords priceStats min max average range_start range_end
       earliest latest].
  split; [reflexivity|]. split; [reflexivity|]. split; [reflexivity|].
  split; [reflexivity|].
  intros Hv Hs.
  set (dates := map (fun item => Date_new h (bid_date item)) arr).
  assert (Dv : Forall is_Some dates) by (apply List.Forall_map; exact Hv).
  assert (Dne : dates <> [] \/ is_Some (@None Z))
    by (left; subst dates arr; discriminate).
  destruct (date_extreme_min dates None Dv Dne) as (lo & Elo & Ilo & _ & Alo).
  destruct (date_extreme_max dates None Dv Dne) as (hi & Ehi & Ihi & _ & Ahi).
  rewrite Elo, Ehi. subst arr.
  destruct Ilo as [Ilo|?]; [|discriminate].
  destruct Ihi as [Ihi|?]; [|discriminate].
  subst dates. apply List.in_map_iff in Ilo, Ihi.
  destruct Ilo as (a & Ea & Ia). destruct Ihi as (b & Eb & Ib).
  rewrite List.Forall_map in Alo, Ahi. rewrite List.Forall_forall in Alo, Ahi.
  destruct (last (first :: rest)) as [final|] eqn:El;
    [|apply last_None in El; discriminate].
  cbn [head].
  assert (Vf : valid_date h first) by now inversion Hv.
  assert (Hfin : In final (first :: rest)).
  { apply last_Some in El. destruct El as [l' El]. rewrite El.
    apply in_or_app. right. now left. }
  assert (Vl : valid_date h final)
    by (rewrite List.Forall_forall in Hv; now apply Hv).
  destruct Vf as [t0 E0], Vl as [t1 E1]. rewrite E0, E1.
  split; f_equal.
  - (* the first record is the earliest *)
    pose proof (Alo first ltac:(now left) t0 E0) as L1.
    assert (L2 : t0 <= lo).
    { destruct Ia as [<-|Ia]; [rewrite E0 in Ea; injection Ea; lia|].
      pose proof (sorted_first h true first rest Hv Hs a Ia) as Ho.
      unfold date_ordered, not_after in Ho. rewrite E0, Ea in Ho. exact Ho. }
    lia.
  - pose proof (Ahi final Hfin t1 E1) as L1.
    assert (L2 : hi <= t1).
    { apply last_Some in El. destruct El as [l' El].
      assert (Hin : In b (l' ++ [final])) by (rewrite <- El; exact Ib).
      apply in_app_or in Hin. destruct Hin as [Hin|[<-|[]]].
      - rewrite El in Hv, Hs.
        pose proof (sorted_split h true l' [final] Hv Hs b final Hin
                      ltac:(now left)) as Ho.
        unfold date_ordered, not_after in Ho. rewrite E1, Eb in Ho. exact Ho.
      - rewrite E1 in Eb. injection Eb. lia. }
    lia.
Qed.

Lemma mapi_lookup {A B : Type} (f : A -> nat -> B) (l : list A) (i : nat) :
  JSArray.mapi f l !! i = (fun x => f x i) <$> l !! i.
Proof. unfold JSArray.mapi. now rewrite map_from_lookup. Qed.

(** X29.  A click on a point outside the data changes nothing.  A click on
    point [i] selects it, reports the record at [i], and restyles the
    markers: size 14 and line width 3 at [i], 10 and 2 elsewhere, with the
    colours of the plot unchanged; [clearSelection] then drops the selection
    and restores every marker. *)
Theorem handlePointClick_selects (pointIndex : nat) (others : list nat)
    (c : ChartState) (σ : Heap) (d : ref) :
  chartData c = Some d ->
  (read σ d !! pointIndex = None ->
   handlePointClick (pointIndex :: others) c σ = (c, None, None))
  /\ (forall selectedData,
      read σ d !! pointIndex = Some selectedData ->
      exists update,
        handlePointClick (pointIndex :: others) c σ
        = (set_selectedPoint (Some pointIndex) c, Some update,
           Some (selectedData, pointIndex))
        /\ update_color update = Chart.generateTimeBasedColors (read σ d)
        /\ (forall j, (j < length (read σ d))%nat ->
            marker_size update !! j
            = Some (if (j =? pointIndex)%nat then 14%float else 10%float)
            /\ line_width update !! j
               = Some (if (j =? pointIndex)%nat then 3%float else 2%float))
        /\ (isInitialized c = true ->
            exists cleared,
              clearSelection (set_selectedPoint (Some pointIndex) c) σ
              = (set_selectedPoint None c, Some cleared)
              /\ update_color cleared = update_color update
              /\ forall j, (j < length (read σ d))%nat ->
                   marker_size cleared !! j = Some 10%float
                   /\ line_width cleared !! j = Some 2%float)).
Proof.
  intros Hc. unfold handlePointClick. rewrite Hc. split.
  - now intros ->.
  - intros selectedData Hsel. rewrite Hsel.
    unfold highlightPoint. cbn [chartData set_selectedPoint]. rewrite Hc.
    eexists. split; [reflexivity|].
    cbn [update_color marker_size line_width].
    split; [reflexivity|]. split.
    + intros j Hj. rewrite !mapi_lookup.
      destruct (lookup_lt_is_Some_2 _ _ Hj) as [x ->]. split; reflexivity.
    + intros Hinit. unfold clearSelection.
      cbn [chartData isInitialized set_selectedPoint selectedPoint].
      rewrite Hc, Hinit. eexists. split; [reflexivity|].
      cbn [update_color marker_size line_width].
      split; [reflexivity|].
      intros j Hj. rewrite !list_lookup_fmap.
      destruct (lookup_lt_is_Some_2 _ _ Hj) as [x ->]. split; reflexivity.
Qed.

End ChartStatsFacts.

Section AppFacts.
Import App.

(** X30.  [truncateText] returns a text of at most [maxLength] code
    units as it is; a longer one is cut to its first [maxLength] code
    units, followed by three dots, so the result can be up to three code
    units longer than [maxLength] (and than a text that is only just too
    long). *)
Theorem truncateText_spec (text : string) (maxLength : nat) :
  ((length text <= maxLength)%nat -> truncateText text maxLength = text)
  /\ ((maxLength < length text)%nat ->
      length (truncateText text maxLength) = (maxLength + 3)%nat
      /\ exists kept rest,
           text = kept ++ rest /\ length kept = maxLength
           /\ truncateText text maxLength = kept ++ "...")
  /\ (length (truncateText text maxLength)
      <= Nat.max (length text) (maxLength + 3))%nat.
Proof.
  unfold truncateText.
  destruct (Nat.leb_spec (length text) maxLength) as [Hle|Hgt].
  - split; [reflexivity|]. split; [lia|lia].
  - assert (L : length (take maxLength text) = maxLength)
      by (rewrite length_take; lia).
    assert (L3 : length (take maxLength text ++ "...") = (maxLength + 3)%nat)
      by (rewrite length_app, L; reflexivity).
    split; [lia|]. split; [|rewrite L3; lia].
    intros _. split; [exact L3|].
    exists (take maxLength text), (drop maxLength text).
    split; [symmetry; apply take_drop|]. split; [exact L|reflexivity].
Qed.

(** The table cuts names at 8: a company name of six characters is shown
    whole, one of thirteen is cut after the eighth.  The count is in code
    units, so a character outside the basic plane counts twice and can be
    cut in two. *)
Example truncateText_names :
  truncateText "广西电网公司" 8 = "广西电网公司"
  /\ truncateText "广西壮族自治区电力交易中心" 8 = "广西壮族自治区电..."
  /\ truncateText "GX Power Trading" 8 = "GX Power..."
  /\ truncateText "𠮷野家电力" 1 = [55362%N; 46%N; 46%N; 46%N].
Proof. vm_compute. repeat split. Qed.

End AppFacts.

(** ** Examples of the further properties *)

Section FurtherExamples.
Import DataHandler DatasetSpec Processing Analytics Loader MedianSpec.
Import DateSpec SelectionSpec Cache LoaderSpec ChartData.
Import ExampleHost Examples Samples.
#[local] Set Warnings "-inexact-float".

Lemma validateRecord_sound_witness :
  exists v,
    validateRecord host nanning 0 = Ok v
    /\ user_name v = "南宁制造"
    /\ StrSpec.trimmed " 南宁制造　" (user_name v)
    /\ power_company v = "广西电网公司"
    /\ bid_price v = 0.4568%float
    /\ PrimFloat.leb lit_0_1 (bid_price v) = true
    /\ PrimFloat.leb (bid_price v) lit_2_0 = true.
Proof.
  destruct (validateRecord host nanning 0) as [v|e] eqn:E;
    [|vm_compute in E; discriminate].
  exists v. split; [reflexivity|].
  destruct (validateRecord_sound host nanning 0 v E)
    as (u & c & t & (Hu & Un & Ut & _) & (Hc & Cn & _) & _
        & (Hp & _ & Hlo & Hhi) & _).
  injection Hu as <-. injection Hc as <-.
  split; [rewrite Un; reflexivity|]. split; [exact Ut|].
  split; [rewrite Cn; reflexivity|].
  split; [rewrite Hp; vm_compute; reflexivity|].
  split; [exact Hlo|exact Hhi].
Defined.

Lemma validateRecord_revalidates_witness :
  validateRecord host (JObj exported) 7 = Ok (priced 0.5).
Proof.
  exact (validateRecord_revalidates host (sample 0.5) 0 7 (priced 0.5) exported
           eq_refl eq_refl eq_refl eq_refl eq_refl eq_refl).
Defined.

Lemma validateDataStructure_reports_rejections_witness :
  exists i item,
    8%nat = (i + 1)%nat /\ ten_with_two_malformed !! i = Some item
    /\ validateRecord host item i = Throw (MissingField "bid_price").
Proof.
  destruct (validateDataStructure_reports_rejections host
              (JArr ten_with_two_malformed) ten_with_two_malformed
              (Ok (acceptedRecords host ten_with_two_malformed))
              [(2%nat, MissingField "bid_price"); (8%nat, MissingField "bid_price")]
              eq_refl ltac:(vm_compute; reflexivity)) as [H _].
  apply H. right. left. reflexivity.
Defined.

Lemma validateDataStructure_all_valid_witness :
  exists records,
    validateDataStructure host (JArr [good "01"; good "02"]) = (Ok records, [])
    /\ Forall2 (fun item r => validateRecord host item 0 = Ok r)
               [good "01"; good "02"] records.
Proof.
  apply (validateDataStructure_all_valid host (JArr [good "01"; good "02"])
           [good "01"; good "02"] eq_refl).
  - discriminate.
  - repeat constructor.
Defined.

Lemma sortByDate_orders_witness :
  Permutation (read (snd (sortByDate host 0 true caller_store)) 0) [june; january]
  /\ LocallySorted (date_ordered host true)
       (read (snd (sortByDate host 0 true caller_store)) 0)
  /\ [january; june] = read (snd (sortByDate host 0 true caller_store)) 0.
Proof.
  destruct (sortByDate_orders host 0 true caller_store ltac:(simpl; lia))
    as (_ & P & S & _ & U & _).
  { repeat constructor; eexists; reflexivity. }
  split; [exact P|]. split; [exact S|].
  apply U.
  - apply perm_swap.
  - repeat constructor. vm_compute. discriminate.
  - intros t. change (read caller_store 0) with [june; january].
    cbn [List.filter].
    change (dated host t january) with (1672531200000 =? t).
    change (dated host t june) with (1685577600000 =? t).
    destruct (Z.eqb_spec 1672531200000 t), (Z.eqb_spec 1685577600000 t);
      try reflexivity.
    exfalso. congruence.
Defined.

Lemma processData_result_witness :
  let out := read (snd (processData host 0 unprocessed))
                  (fst (processData host 0 unprocessed)) in
  map user_name out = ["Bob"; "张 伟"]
  /\ map power_company out = ["GX Power"; "广西 电网"]
  /\ map bid_price out = [1.001; 0.457]%float
  /\ exists n thousandths r,
       out !! 1%nat = Some r
       /\ FloatOrder.nearest_integer (PrimFloat.mul 0.45678 1000) n
       /\ FloatOrder.is_integer thousandths n
       /\ bid_price r = PrimFloat.div thousandths 1000.
Proof.
  intros out.
  split; [vm_compute; reflexivity|]. split; [vm_compute; reflexivity|].
  split; [vm_compute; reflexivity|].
  destruct (processData_result host 0 unprocessed ltac:(simpl; lia))
    as (sorted & P & S & F & _ & _ & H).
  { repeat constructor; eexists; reflexivity. }
  assert (Es : sorted = [bob; zhang]).
  { apply (stable_order_unique host true).
    - eapply Permutation_Forall; [apply Permutation_sym, P|].
      repeat constructor; eexists; reflexivity.
    - rewrite P. apply perm_swap.
    - exact S.
    - repeat constructor. vm_compute. discriminate.
    - intros t. rewrite F. change (read unprocessed 0) with [zhang; bob].
      cbn [List.filter].
      change (dated host t bob) with (1672531200000 =? t).
      change (dated host t zhang) with (1685577600000 =? t).
      destruct (Z.eqb_spec 1672531200000 t), (Z.eqb_spec 1685577600000 t);
        try reflexivity.
      exfalso. congruence. }
  destruct (out !! 1%nat) as [r|] eqn:E; [|vm_compute in E; discriminate].
  destruct (H 1%nat r E) as (a & d & Ha & _ & _ & _ & _ & _ & _ & Hprice).
  rewrite Es in Ha. injection Ha as <-.
  destruct (Hprice ltac:(vm_compute; reflexivity)) as (n & y & Hn & Hy & Hr).
  exists n, y, r. split; [reflexivity|]. split; [exact Hn|].
  split; [exact Hy|exact Hr].
Defined.

Lemma getLatestRecords_result_witness :
  length (read (snd (getLatestRecords host 1 (Some 0%nat) None caller_store))
               (fst (getLatestRecords host 1 (Some 0%nat) None caller_store)))
  = 1%nat.
Proof.
  destruct (getLatestRecords_result host 1 (Some 0%nat) None caller_store 0
              eq_refl ltac:(simpl; lia)) as (_ & _ & L & _).
  exact L.
Defined.

Lemma filterData_selects_witness :
  filterData host grid_only (Some [zhang; bob; zhang]) None = [zhang; zhang]
  /\ exists selected : BidRecord -> bool,
       (forall item, selected item = true <-> passes host grid_only item)
       /\ filterData host grid_only (Some [zhang; bob; zhang]) None
          = List.filter selected [zhang; bob; zhang].
Proof.
  split; [vm_compute; reflexivity|].
  exact (filterData_selects host grid_only (Some [zhang; bob; zhang]) None
           [zhang; bob; zhang] eq_refl).
Defined.

Lemma filterData_price_range_witness :
  filterData host (price_between 0.45 0.55) (Some four_prices) None
  = List.filter (fun item => PrimFloat.leb 0.45 (bid_price item)
                             && PrimFloat.leb (bid_price item) 0.55) four_prices.
Proof.
  apply (filterData_price_range host 0.45 0.55 four_prices None eq_refl eq_refl).
  repeat constructor.
Defined.

Lemma getDataStatistics_price_bounds_witness :
  match getDataStatistics host (Some four_prices) None with
  | Some st => In (min (priceStats st)) (map bid_price four_prices)
  | None => False
  end.
Proof.
  destruct (getDataStatistics host (Some four_prices) None) as [st|] eqn:E;
    [|vm_compute in E; discriminate].
  destruct (getDataStatistics_price_bounds host (Some four_prices) None
              four_prices st eq_refl E) as [H _].
  apply H. repeat constructor.
Defined.

Lemma getDataStatistics_date_range_witness :
  match getDataStatistics host (Some [june; january]) None with
  | Some st => exists lo hi, earliest st = Some lo /\ latest st = Some hi
  | None => False
  end.
Proof.
  destruct (getDataStatistics host (Some [june; january]) None) as [st|] eqn:E;
    [|vm_compute in E; discriminate].
  destruct (getDataStatistics_date_range host (Some [june; january]) None
              [june; january] st eq_refl E) as [H _].
  destruct H as (lo & hi & Hlo & Hhi & _).
  - repeat constructor; eexists; reflexivity.
  - now exists lo, hi.
Defined.

Lemma calculateMedian_central_witness :
  exists lo hi,
    In lo [0.6; 0.4; 0.5]%float /\ In hi [0.6; 0.4; 0.5]%float
    /\ calculateMedian [0.6; 0.4; 0.5]%float = lo /\ lo = hi.
Proof.
  destruct (calculateMedian_central [0.6; 0.4; 0.5]%float ltac:(discriminate)
              ltac:(repeat constructor))
    as (lo & hi & Ilo & Ihi & _ & Em & Eq & _).
  exists lo, hi. split; [exact Ilo|]. split; [exact Ihi|].
  split; [exact Em|]. apply Eq. reflexivity.
Defined.

Lemma loadData_success_witness :
  fst (run host (load 0 "a.json" true 200 dataset) initial)
  = [Some AwaitingFetch; Some AwaitingJson; Some (Resolved 2)].
Proof.
  destruct (loadData_success host initial "a.json" true 200 dataset
              [june; january] [] eq_refl eq_refl eq_refl) as (H & _).
  exact H.
Defined.

Lemma loadData_cached_again_witness :
  fst (step host (Call "a.json" true)
         (snd (run host (load 0 "a.json" true 200 dataset) initial)))
  = Some (Resolved 2).
Proof.
  destruct (loadData_cached_again host initial "a.json" 200 dataset
              [june; january] [] eq_refl eq_refl eq_refl) as (H & _).
  exact H.
Defined.

Lemma loadData_rejection_leaves_data_witness :
  (same_data fresh (snd (loadData_fetched (Response false 404) fresh))
   /\ events (snd (loadData_fetched (Response false 404) fresh))
      = [DataError (RetrievalFailed 404); LoadingStateChanged false])
  /\ (same_data fresh
        (snd (loadData_decoded host "a.json" true
                (Some (JArr ten_with_three_malformed)) fresh))
      /\ events (snd (loadData_decoded host "a.json" true
                        (Some (JArr ten_with_three_malformed)) fresh))
         = [ValidationWarning [(2%nat, MissingField "bid_price");
                               (5%nat, MissingField "bid_price");
                               (8%nat, MissingField "bid_price")];
            DataError (DataQuality 3 10); LoadingStateChanged false]).
Proof.
  split.
  - destruct (loadData_rejection_leaves_data host "a.json" true fresh
                (RetrievalFailed 404)) as (_ & H & _).
    destruct (H (Response false 404) eq_refl) as (_ & S & E).
    split; [exact S|exact E].
  - destruct (loadData_rejection_leaves_data host "a.json" true fresh
                (DataQuality 3 10)) as (_ & _ & H).
    destruct (H (Some (JArr ten_with_three_malformed))
                ltac:(vm_compute; reflexivity))
      as (_ & S & warnings & W & _ & E).
    split; [exact S|]. rewrite E, W. vm_compute. reflexivity.
Defined.

Lemma loadData_keeps_datasets_witness :
  holds_records (world (snd (run host load_twice initial))) 2.
Proof.
  destruct (loadData_keeps_datasets host load_twice initial) as [_ H].
  - unfold well_formed, initial. cbn. repeat split; discriminate.
  - apply H. vm_compute. right. right. left. reflexivity.
Defined.

Lemma prepareChartData_traces_witness :
  Permutation (read (snd (prepareChartData host 0 caller_store)) 0) [june; january]
  /\ LocallySorted (not_after host)
       (read (snd (prepareChartData host 0 caller_store)) 0).
Proof.
  destruct (prepareChartData_traces host 0 caller_store ltac:(simpl; lia))
    as (P & S & _).
  split; [exact P|exact S].
Defined.

Lemma prepareChartData_keeps_processed_witness :
  snd (prepareChartData host (fst (processData host 0 caller_store))
         (snd (processData host 0 caller_store)))
  = snd (processData host 0 caller_store).
Proof.
  exact (prepareChartData_keeps_processed host 0 caller_store ltac:(simpl; lia)).
Defined.

Lemma prepareChartData_trend_spans_witness :
  match fst (prepareChartData host 0 caller_store) with
  | Ok (scatter, trend) =>
      exists first final t0 t1,
        In first [june; january] /\ In final [june; january]
        /\ trend_x trend = [bid_date first; bid_date final]
        /\ Date_new host (bid_date first) = Some t0
        /\ Date_new host (bid_date final) = Some t1
        /\ Forall (fun item => forall t, Date_new host (bid_date item) = Some t ->
                                         t0 <= t <= t1) [june; january]
  | Throw _ => False
  end.
Proof.
  destruct (fst (prepareChartData host 0 caller_store))
    as [[scatter trend]|e] eqn:E; [|vm_compute in E; discriminate].
  apply (prepareChartData_trend_spans host 0 caller_store scatter trend
           ltac:(simpl; lia)); [|exact E].
  repeat constructor; eexists; reflexivity.
Defined.

Lemma chart_empty_data_witness :
  initChart host (Some 0%nat) (chart_on 3) [[]]
  = (inl InvalidChartData, chart_on 3, [[]])
  /\ updateChart host (Some 0%nat) (chart_on 3) [[]]
     = (inl (Thrown TypeError), set_chartData (Some 0%nat) (chart_on 3), [[]]).
Proof.
  destruct (chart_empty_data host 0 (chart_on 3) [[]] ltac:(simpl; lia))
    as [H _].
  exact (H eq_refl).
Defined.

Lemma getChartStats_agrees_witness :
  getChartStats host (chart_on 0) caller_store = None
  <-> read caller_store 0 = [].
Proof.
  exact (proj1 (getChartStats_agrees host (chart_on 0) caller_store 0 eq_refl)).
Defined.

Lemma handlePointClick_selects_witness :
  handlePointClick [5%nat] (chart_on 0) caller_store = (chart_on 0, None, None)
  /\ exists update,
       handlePointClick [1%nat] (chart_on 0) caller_store
       = (set_selectedPoint (Some 1%nat) (chart_on 0), Some update,
          Some (january, 1%nat))
       /\ update_color update = Chart.generateTimeBasedColors [june; january].
Proof.
  split.
  - destruct (handlePointClick_selects 5 [] (chart_on 0) caller_store 0 eq_refl)
      as [H _].
    exact (H eq_refl).
  - destruct (handlePointClick_selects 1 [] (chart_on 0) caller_store 0 eq_refl)
      as [_ H].
    destruct (H january eq_refl) as (update & E & C & _).
    exists update. split; [exact E|exact C].
Defined.

End FurtherExamples.

